(** * Orchestrator and broadcast hub of the industrial IoT backend

    Shallow embedding of
    - [services/protocol_manager.py] ([ProtocolManager]) together with the
      service lookup of [services/protocol_services.py];
    - [services/websocket_manager.py] ([WebSocketManager], module [Hub]);
    - [api/websocket.py] ([WebSocketManager], module [ApiHub]).

    Python dictionaries are stdpp [gmap]s, Python sets of sockets are
    [gset nat] (a socket is identified by a number).  Python exceptions
    are made explicit with a small result type; a [try]/[except] is a
    [match] on it.  Clock readings are passed in as integers (the instant
    of a [datetime]); an ISO rendering of an instant is modelled by the
    instant itself. *)

From Stdlib Require Import ZArith.
From stdpp Require Import base gmap strings list pretty.
From Stdlib Require Import Sorted.

Open Scope string_scope.
Set Warnings "-register-all".

(* ------------------------------------------------------------------ *)
(** ** Python exceptions *)

(** The exceptions the modelled code distinguishes in its handlers. *)
Inductive PyExn :=
  | ValueError
  | WebSocketDisconnect
  | OtherException.

(** A computation that returns a value or raises. *)
Inductive Outcome (A : Type) :=
  | Returned (a : A)
  | Raised (e : PyExn).
Arguments Returned {A} a.
Arguments Raised {A} e.

(* ------------------------------------------------------------------ *)
(** ** models/protocol.py *)

Inductive ProtocolType :=
  | MODBUS_TCP | OPC_UA | PROFINET | ETHERNET_IP | MQTT | CANOPEN | BACNET.

(** [ProtocolType.value] *)
Definition ProtocolType_value (t : ProtocolType) : string :=
  match t with
  | MODBUS_TCP => "modbus-tcp"
  | OPC_UA => "opc-ua"
  | PROFINET => "profinet"
  | ETHERNET_IP => "ethernet-ip"
  | MQTT => "mqtt"
  | CANOPEN => "canopen"
  | BACNET => "bacnet"
  end.

(** [ProtocolType(s)]: the enum lookup by value; [None] is the
    [ValueError] raised for any other string.  A [ProtocolType] member
    is itself a [str] equal to its value, so passing a member goes
    through the same lookup. *)
Definition ProtocolType_of_value (s : string) : option ProtocolType :=
  if String.eqb s "modbus-tcp" then Some MODBUS_TCP
  else if String.eqb s "opc-ua" then Some OPC_UA
  else if String.eqb s "profinet" then Some PROFINET
  else if String.eqb s "ethernet-ip" then Some ETHERNET_IP
  else if String.eqb s "mqtt" then Some MQTT
  else if String.eqb s "canopen" then Some CANOPEN
  else if String.eqb s "bacnet" then Some BACNET
  else None.

Inductive ProtocolStatus := CONNECTED | DISCONNECTED | ERROR.

Definition ProtocolStatus_eqb (a b : ProtocolStatus) : bool :=
  match a, b with
  | CONNECTED, CONNECTED | DISCONNECTED, DISCONNECTED | ERROR, ERROR => true
  | _, _ => false
  end.

(** [Dict[str, Any]] configuration blob, kept opaque. *)
Definition Configuration := list (string * string).

(** The persisted [Protocol] document (fields the manager reads or writes). *)
Record ProtocolDoc := mkProtocolDoc {
  doc_type : ProtocolType;
  doc_status : ProtocolStatus;
  doc_configuration : Configuration
}.

Definition with_status (p : ProtocolDoc) (st : ProtocolStatus) : ProtocolDoc :=
  mkProtocolDoc (doc_type p) st (doc_configuration p).

(** What [protocol = await Protocol.get(id); if protocol: protocol.status = st;
    await protocol.save()] leaves in the store when neither call raises. *)
Definition set_status (id : string) (st : ProtocolStatus)
    (db : gmap string ProtocolDoc) : gmap string ProtocolDoc :=
  match db !! id with
  | Some p => <[id := with_status p st]> db
  | None => db
  end.

(* ------------------------------------------------------------------ *)
(** ** services/protocol_manager.py *)

Module ProtocolManager.

(** One entry of [self.running_protocols]. *)
Record RunningInfo := mkRunningInfo {
  ri_protocol_type : string;
  ri_service : ProtocolType;
  ri_configuration : Configuration;
  ri_started_at : Z;
  ri_status : string
}.

(** The manager's dictionary and the document store it updates. *)
Record Manager := mkManager {
  running_protocols : gmap string RunningInfo;
  db : gmap string ProtocolDoc
}.

(** Behaviour of the protocol services and of the document store, which
    are external to the manager: whether [_load_protocol_service] can
    import the service of a type, and what its [start_protocol] /
    [stop_protocol] do; whether [Protocol.get(id)] or [protocol.save()]
    raises when the manager writes status [st] for [id] (nothing is then
    written); whether [Protocol.find_all().to_list()] raises. *)
Record ServiceEnv := mkServiceEnv {
  loadable : ProtocolType -> bool;
  svc_start : ProtocolType -> string -> Configuration -> Outcome bool;
  svc_stop : ProtocolType -> string -> Outcome bool;
  store_raises : string -> ProtocolStatus -> bool;
  find_all_raises : bool
}.

Section Manager.
Context (E : ServiceEnv).

(** [get_protocol_service]: the registry is filled lazily with the one
    service object of each type; [None] when the import fails. *)
Definition get_protocol_service (t : ProtocolType) : option ProtocolType :=
  if loadable E t then Some t else None.

(** The status write [Protocol.get(id)] ... [protocol.save()] against the
    store [d]. *)
Definition save_status (id : string) (st : ProtocolStatus)
    (d : gmap string ProtocolDoc) : Outcome (gmap string ProtocolDoc) :=
  if store_raises E id st then Raised OtherException
  else Returned (set_status id st d).

(** The outer [except Exception] of [start_protocol]: try to mark the
    document [ERROR] (a raise of that write is caught by the inner
    [except Exception as db_error] and only logged), return [False]. *)
Definition start_failed (m : Manager) (id : string) : bool * Manager :=
  match save_status id ERROR (db m) with
  | Returned d => (false, mkManager (running_protocols m) d)
  | Raised _ => (false, m)
  end.

(** [start_protocol(protocol_id, protocol_type, configuration)] at clock
    reading [now]. *)
Definition start_protocol (m : Manager) (id : string) (protocol_type : string)
    (configuration : Configuration) (now : Z) : bool * Manager :=
  match ProtocolType_of_value protocol_type with
  | None => (false, m)                    (* ValueError: logged, return False *)
  | Some t =>
      match get_protocol_service t with
      | None => start_failed m id         (* raise Exception("No service ...") *)
      | Some service =>
          match svc_start E service id configuration with
          | Raised _ => start_failed m id
          | Returned false => (false, m)
          | Returned true =>
              (* the entry is stored before the document is updated *)
              let m1 := mkManager
                          (<[id := mkRunningInfo (ProtocolType_value t) service
                                                 configuration now "running"]>
                             (running_protocols m))
                          (db m) in
              match save_status id CONNECTED (db m1) with
              | Returned d => (true, mkManager (running_protocols m1) d)
              | Raised _ => start_failed m1 id
              end
          end
      end
  end.

(** [stop_protocol(protocol_id)] *)
Definition stop_protocol (m : Manager) (id : string) : bool * Manager :=
  match running_protocols m !! id with
  | None => (true, m)                     (* "Already stopped" *)
  | Some info =>
      match svc_stop E (ri_service info) id with
      | Raised _ => (false, m)            (* except Exception: return False *)
      | Returned false => (false, m)
      | Returned true =>
          (* [del self.running_protocols[protocol_id]] comes first *)
          let m1 := mkManager (delete id (running_protocols m)) (db m) in
          match save_status id DISCONNECTED (db m1) with
          | Returned d => (true, mkManager (running_protocols m1) d)
          | Raised _ => (false, m1)           (* except Exception: return False *)
          end
      end
  end.

(** [asyncio.sleep(2)] between stop and start: the clock moves on. *)
Definition restart_pause : Z := 2.

(** [restart_protocol(protocol_id)]; [now] is the clock when it is
    called, the new start happens after the pause. *)
Definition restart_protocol (m : Manager) (id : string) (now : Z) : bool * Manager :=
  match running_protocols m !! id with
  | Some info =>
      let '(_, m1) := stop_protocol m id in
      start_protocol m1 id (ri_protocol_type info) (ri_configuration info)
                     (now + restart_pause)
  | None => (false, m)                    (* "Cannot restart ... not running" *)
  end.

(** The loop of [start_all_protocols] over the fetched documents,
    threading [started_count]. *)
Fixpoint start_each (protocols : list (string * ProtocolDoc)) (now : Z)
    (m : Manager) (started_count : nat) : nat * Manager :=
  match protocols with
  | [] => (started_count, m)
  | (id, p) :: rest =>
      if ProtocolStatus_eqb (doc_status p) CONNECTED then
        let '(success, m1) :=
          start_protocol m id (ProtocolType_value (doc_type p))
                         (doc_configuration p) now in
        start_each rest now m1
                   (if success then S started_count else started_count)
      else start_each rest now m started_count
  end.

(** [start_all_protocols()]: [Protocol.find_all().to_list()] is a
    snapshot of the store taken before the loop; when it raises, the
    [except Exception] returns [False]. [start_protocol] never raises. *)
Definition start_all_protocols (m : Manager) (now : Z) : bool * Manager :=
  if find_all_raises E then (false, m)
  else let '(_, m') := start_each (map_to_list (db m)) now m 0 in (true, m').

(** The local [started_count] at the end of [start_all_protocols]; it is
    only written to the log. *)
Definition started_count (m : Manager) (now : Z) : nat :=
  fst (start_each (map_to_list (db m)) now m 0).

(** The ["status"] field of [get_protocol_status(protocol_id)]. *)
Definition get_protocol_status (m : Manager) (id : string) : string :=
  match running_protocols m !! id with
  | None => "stopped"
  | Some _ => "running"
  end.

(** The loop of [stop_all_protocols] over [protocol_ids], threading
    [stopped_count]. *)
Fixpoint stop_each (protocol_ids : list string) (m : Manager) (stopped_count : nat)
    : nat * Manager :=
  match protocol_ids with
  | [] => (stopped_count, m)
  | id :: rest =>
      let '(success, m1) := stop_protocol m id in
      stop_each rest m1 (if success then S stopped_count else stopped_count)
  end.

(** [stop_all_protocols()]: [protocol_ids] is the snapshot
    [list(self.running_protocols.keys())], in the dictionary's order
    (which a [gmap] does not record, so it is passed in). *)
Definition stop_all_protocols (protocol_ids : list string) (m : Manager) : bool * Manager :=
  let '(_, m') := stop_each protocol_ids m 0 in (true, m').

End Manager.

End ProtocolManager.

(* ------------------------------------------------------------------ *)
(** ** services/protocol_services.py *)

Module ProtocolServices.

(** A service object built by [_load_protocol_service]: its type, and
    the number of the construction that made it (its identity). *)
Record Service := mkService {
  service_type : ProtocolType;
  service_serial : nat
}.

(** [PROTOCOL_SERVICES], keyed by the value of the type (a
    [ProtocolType] is a [str] equal to and hashing as its value),
    together with the number of service objects constructed so far. *)
Record Registry := mkRegistry {
  PROTOCOL_SERVICES : gmap string Service;
  constructed : nat
}.

Section Loading.
(** Whether importing and constructing the service class of a type
    succeeds; an [ImportError] ([None] from [_load_protocol_service])
    and any other exception (caught by [get_protocol_service]) both
    leave the registry as it was. *)
Context (importable : ProtocolType -> bool).

(** [_load_protocol_service(protocol_type)]: every one of the seven
    types has its class, constructed anew on each call. *)
Definition load_protocol_service (protocol_type : ProtocolType) (r : Registry)
    : option Service * Registry :=
  if importable protocol_type then
    (Some (mkService protocol_type (constructed r)),
     mkRegistry (PROTOCOL_SERVICES r) (S (constructed r)))
  else (None, r).

(** [get_protocol_service(protocol_type)] *)
Definition get_protocol_service (protocol_type : ProtocolType) (r : Registry)
    : option Service * Registry :=
  let key := ProtocolType_value protocol_type in
  let r1 :=
    match PROTOCOL_SERVICES r !! key with
    | Some _ => r
    | None =>
        match load_protocol_service protocol_type r with
        | (Some service, r') => mkRegistry (<[key := service]> (PROTOCOL_SERVICES r')) (constructed r')
        | (None, r') => r'
        end
    end in
  (PROTOCOL_SERVICES r1 !! key, r1).

End Loading.

(** The loop of [stop_all_protocol_services] over [protocol_types];
    [stop_monitoring] tells whether [await service.stop_monitoring()]
    returns or raises (an exception is logged and the loop goes on). *)
Fixpoint stop_services (stop_monitoring : Service -> Outcome unit)
    (protocol_types : list string) (services : gmap string Service)
    (stopped_count : nat) : nat :=
  match protocol_types with
  | [] => stopped_count
  | k :: rest =>
      match services !! k with
      | Some service =>
          match stop_monitoring service with
          | Returned _ => stop_services stop_monitoring rest services (S stopped_count)
          | Raised _ => stop_services stop_monitoring rest services stopped_count
          end
      | None => stop_services stop_monitoring rest services stopped_count
      end
  end.

(** [stop_all_protocol_services()]: [protocol_types] is the snapshot
    [list(PROTOCOL_SERVICES.keys())] in the dictionary's order; returns
    [stopped_count] and the cleared registry. *)
Definition stop_all_protocol_services (stop_monitoring : Service -> Outcome unit)
    (protocol_types : list string) (r : Registry) : nat * Registry :=
  (stop_services stop_monitoring protocol_types (PROTOCOL_SERVICES r) 0,
   mkRegistry ∅ (constructed r)).

End ProtocolServices.

(* ------------------------------------------------------------------ *)
(** ** services/protocols/modbus_service.py and services/base_protocol.py *)

Module ModbusService.

(** The state of a [ModbusTcpService] object: the ids that are keys of
    [self.masters] and of [self.active_connections] (the values, a
    [TcpMaster] and a dictionary of connection parameters, are not
    modelled), [is_running], and [monitoring_task]: [None], or a task
    together with whether it is done. *)
Record ModbusState := mkModbus {
  masters : gset string;
  active_connections : gset string;
  is_running : bool;
  monitoring_task : option bool
}.

(** What the Modbus library and the devices do. *)
Record ModbusEnv := mkModbusEnv {
  (** [import modbus_tk] succeeded *)
  MODBUS_AVAILABLE : bool;
  (** [TcpMaster(host, port)], [set_timeout] and the test read of
      holding register 0 succeed for this configuration; if any of them
      raises, [start_protocol] returns [False] (closing the master, an
      exception of [close] being caught as well) *)
  connection_test : Configuration -> bool;
  (** [master.close()] of the master of this id raises *)
  close_raises : string -> bool
}.

(** [BaseProtocolService.start_monitoring()] *)
Definition start_monitoring (s : ModbusState) : ModbusState :=
  match monitoring_task s with
  | Some false => s
  | _ => mkModbus (masters s) (active_connections s) true (Some false)
  end.

(** [BaseProtocolService.stop_monitoring()]: a live task is cancelled
    and awaited, so it is done afterwards. *)
Definition stop_monitoring (s : ModbusState) : ModbusState :=
  mkModbus (masters s) (active_connections s) false
           (match monitoring_task s with
            | Some false => Some true
            | t => t
            end).

Section Modbus.
Context (M : ModbusEnv).

(** [ModbusTcpService.start_protocol(protocol_id, configuration)]; the
    calls of [_log_protocol_event] catch their own exceptions and do
    not touch this state. *)
Definition start_protocol (protocol_id : string) (configuration : Configuration)
    (s : ModbusState) : bool * ModbusState :=
  if negb (MODBUS_AVAILABLE M) then (false, s)
  else if connection_test M configuration then
    (true,
     start_monitoring
       (mkModbus ({[protocol_id]} ∪ masters s) ({[protocol_id]} ∪ active_connections s)
                 (is_running s) (monitoring_task s)))
  else (false, s).

(** [ModbusTcpService.stop_protocol(protocol_id)] *)
Definition stop_protocol (protocol_id : string) (s : ModbusState) : bool * ModbusState :=
  if bool_decide (protocol_id ∈ masters s) && close_raises M protocol_id then (false, s)
  else
    let s1 := mkModbus (masters s ∖ {[protocol_id]})
                       (active_connections s ∖ {[protocol_id]})
                       (is_running s) (monitoring_task s) in
    if bool_decide (active_connections s1 = ∅) then (true, stop_monitoring s1)
    else (true, s1).

End Modbus.

End ModbusService.

(* ------------------------------------------------------------------ *)
(** ** JSON messages *)

(** The dictionaries sent with [json.dumps]. *)
Inductive json :=
  | JNull
  | JNum (n : Z)
  | JStr (s : string)
  | JArr (xs : list json)
  | JObj (fields : list (string * json)).

(** [d.get(k)] on an object. *)
Definition jget (k : string) (j : json) : option json :=
  match j with
  | JObj fs => snd <$> List.find (fun kv => String.eqb (fst kv) k) fs
  | _ => None
  end.

(** [d[k] = v]: replaces the value of an existing key in place, appends
    a new key at the end. *)
Definition jset (k : string) (v : json) (j : json) : json :=
  match j with
  | JObj fs =>
      if List.existsb (fun kv => String.eqb (fst kv) k) fs
      then JObj (map (fun kv => if String.eqb (fst kv) k then (k, v) else kv) fs)
      else JObj (app fs [(k, v)])
  | _ => j
  end.

(** [datetime.isoformat()] of an instant, represented by the instant. *)
Definition iso (t : Z) : json := JNum t.

(** Behaviour of the client sockets: [websocket.client_state ==
    WebSocketState.CONNECTED] and the result of [await
    websocket.send_text(...)]. *)
Record SocketEnv := mkSocketEnv {
  client_connected : nat -> bool;
  send_text : nat -> json -> Outcome unit
}.

(** [try: body except: handler] *)
Definition try_except {A : Type} (body : Outcome A) (handler : PyExn -> A) : A :=
  match body with
  | Returned a => a
  | Raised e => handler e
  end.

(** The successful outcomes of the send attempts of one broadcast: one
    entry [(socket, delivered?)] per call of [send_text]. *)
Abbreviation SendTrace := (list (nat * bool)).

(* ------------------------------------------------------------------ *)
(** ** services/websocket_manager.py *)

Module Hub.

(** One entry of [self.connection_info]; instants in microseconds. *)
Record ConnInfo := mkConnInfo {
  ci_channel : string;
  ci_connected_at : Z;
  ci_messages_sent : nat;
  ci_messages_received : nat;
  ci_last_heartbeat : Z
}.

Definition bump_sent (i : ConnInfo) : ConnInfo :=
  mkConnInfo (ci_channel i) (ci_connected_at i) (S (ci_messages_sent i))
             (ci_messages_received i) (ci_last_heartbeat i).

Record HubState := mkHub {
  active_connections : gmap string (gset nat);
  connection_info : gmap nat ConnInfo
}.

(** [__init__] *)
Definition init : HubState :=
  mkHub (<["monitoring" := ∅]> (<["connections" := ∅]> (<["logs" := ∅]> ∅))) ∅.

(** [disconnect(websocket)]: discard from every channel, drop the info. *)
Definition disconnect (ws : nat) (st : HubState) : HubState :=
  mkHub ((fun conns : gset nat => conns ∖ {[ws]}) <$> active_connections st)
        (delete ws (connection_info st)).

Section Sockets.
Context (W : SocketEnv).

(** One iteration of the loop of [broadcast] on [connection]. *)
Definition broadcast_step (channel : string) (message : json) (connection : nat)
    (acc : HubState * SendTrace) : HubState * SendTrace :=
  let '(st, tr) := acc in
  if client_connected W connection then
    try_except
      (match send_text W connection message with
       | Returned _ =>
           Returned (mkHub (active_connections st)
                           (alter bump_sent connection (connection_info st)),
                     app tr [(connection, true)])
       | Raised e => Raised e
       end)
      (fun _ => (disconnect connection st, app tr [(connection, false)]))
      (* except WebSocketDisconnect / except Exception: disconnect *)
  else
    (mkHub (alter (fun conns : gset nat => conns ∖ {[connection]}) channel
                  (active_connections st))
           (delete connection (connection_info st)),
     tr).

Fixpoint broadcast_loop (channel : string) (message : json) (connections : list nat)
    (acc : HubState * SendTrace) : HubState * SendTrace :=
  match connections with
  | [] => acc
  | c :: rest => broadcast_loop channel message rest (broadcast_step channel message c acc)
  end.

(** [message["timestamp"] = ...] at the start of [broadcast]. *)
Definition stamp_message (now : Z) (message : json) : json :=
  jset "timestamp" (iso now) message.

(** [broadcast(message, channel)] at clock [now]; the loop runs over a
    copy of the channel's set. *)
Definition broadcast (message : json) (channel : string) (now : Z)
    (st : HubState) : Outcome (HubState * SendTrace) :=
  match active_connections st !! channel with
  | None => Returned (st, [])             (* non-existent channel: return *)
  | Some conns =>
      Returned (broadcast_loop channel (stamp_message now message) (elements conns) (st, []))
  end.

(** [send_personal_message(message, websocket)]; also returns the
    messages handed to [send_text]. *)
Definition send_personal_message (message : json) (ws : nat) (now : Z)
    (st : HubState) : bool * HubState * list (nat * json) :=
  if client_connected W ws then
    let message :=
      match jget "timestamp" message with
      | Some _ => message
      | None => jset "timestamp" (iso now) message
      end in
    try_except
      (match send_text W ws message with
       | Returned _ =>
           Returned (true, mkHub (active_connections st)
                                 (alter bump_sent ws (connection_info st)),
                     [(ws, message)])
       | Raised e => Raised e
       end)
      (fun _ => (false, disconnect ws st, [(ws, message)]))
  else (false, disconnect ws st, []).

(** [connect(websocket, channel)] after a successful [accept()]; returns
    the messages sent to the new socket. *)
Definition connect (ws : nat) (channel : string) (now : Z) (st : HubState)
    : HubState * list (nat * json) :=
  let conns := default ∅ (active_connections st !! channel) in
  let st1 :=
    mkHub (<[channel := {[ws]} ∪ conns]> (active_connections st))
          (<[ws := mkConnInfo channel now 0 0 now]> (connection_info st)) in
  let welcome :=
    JObj [("type", JStr "connection_confirmed");
          ("data", JObj [("channel", JStr channel);
                         ("server_time", iso now);
                         ("message", JStr ("Connected to " ++ channel ++ " channel"))])] in
  let '(_, st2, sent) := send_personal_message welcome ws now st1 in
  (st2, sent).

(** [connect(websocket, channel)] with the outcome of [await
    websocket.accept()]: a raise is logged and re-raised by [except
    Exception: ... raise] before anything is registered. *)
Definition connect_accepting (accepted : Outcome unit) (ws : nat) (channel : string)
    (now : Z) (st : HubState) : Outcome (HubState * list (nat * json)) :=
  match accepted with
  | Raised e => Raised e
  | Returned _ => Returned (connect ws channel now st)
  end.

(** Staleness test of [cleanup_broken_connections]:
    [(current_time - last_heartbeat).total_seconds() > 300], on
    instants counted in microseconds. *)
Definition stale_threshold_us : Z := 300 * 1000000.

Definition is_stale (now : Z) (i : ConnInfo) : bool :=
  Z.ltb stale_threshold_us (now - ci_last_heartbeat i).

(** [cleanup_broken_connections()] at clock [now]: collect the stale and
    the non-connected sockets, then disconnect each of them. *)
Definition broken_connections (now : Z) (st : HubState) : list nat :=
  map fst (List.filter
             (fun wi => is_stale now (snd wi) || negb (client_connected W (fst wi)))
             (map_to_list (connection_info st))).

Definition cleanup_broken_connections (now : Z) (st : HubState) : HubState :=
  fold_left (fun s ws => disconnect ws s) (broken_connections now st) st.

(** The message of [send_heartbeat]; [channels] are the keys of
    [self.active_connections] in the dictionary's order. *)
Definition heartbeat_message (channels : list string) (now : Z) (st : HubState) : json :=
  JObj [("type", JStr "heartbeat");
        ("data", JObj [("server_time", iso now);
                       ("active_channels",
                         JObj (map (fun ch => (ch, JNum (Z.of_nat
                                     (size (default ∅ (active_connections st !! ch))))))
                                   channels))])].

(** The loop [for channel in self.active_connections: await
    self.broadcast(heartbeat_message, channel)]; each channel comes with
    the clock reading of its [broadcast]. *)
Fixpoint heartbeat_each (message : json) (channels : list (string * Z)) (st : HubState)
    (tr : SendTrace) : Outcome (HubState * SendTrace) :=
  match channels with
  | [] => Returned (st, tr)
  | (channel, t) :: rest =>
      match broadcast message channel t st with
      | Returned (st1, tr1) => heartbeat_each message rest st1 (app tr tr1)
      | Raised e => Raised e
      end
  end.

(** [info["last_heartbeat"] = current_time] *)
Definition refresh_heartbeat (current_time : Z) (i : ConnInfo) : ConnInfo :=
  mkConnInfo (ci_channel i) (ci_connected_at i) (ci_messages_sent i)
             (ci_messages_received i) current_time.

(** [send_heartbeat()]: [now] is the clock when the message is built,
    [current_time] the clock read after the broadcasts. *)
Definition send_heartbeat (channels : list (string * Z)) (now current_time : Z)
    (st : HubState) : Outcome (HubState * SendTrace) :=
  match heartbeat_each (heartbeat_message (map fst channels) now st) channels st [] with
  | Returned (st1, tr) =>
      Returned (mkHub (active_connections st1)
                      (refresh_heartbeat current_time <$> connection_info st1), tr)
  | Raised e => Raised e
  end.

End Sockets.

(** ["total_connections"] of [get_connection_stats()]: the sum of the
    sizes of the channels' sets. *)
Definition total_connections (st : HubState) : nat :=
  map_fold (fun _ (conns : gset nat) acc => size conns + acc) 0 (active_connections st).

End Hub.

(* ------------------------------------------------------------------ *)
(** ** api/websocket.py *)

Module ApiHub.

(** One entry of [self.connection_info] of this manager. *)
Record ConnInfo := mkConnInfo {
  ci_channel : string;
  ci_connected_at : Z;
  ci_messages_sent : nat;
  ci_messages_received : nat;
  ci_last_heartbeat : Z;
  ci_client_id : string
}.

(** [messages_sent += 1], and [last_heartbeat = now] when [stamp] holds. *)
Definition bump_sent (stamp : option Z) (i : ConnInfo) : ConnInfo :=
  mkConnInfo (ci_channel i) (ci_connected_at i) (S (ci_messages_sent i))
             (ci_messages_received i)
             (default (ci_last_heartbeat i) stamp) (ci_client_id i).

Record HubState := mkHub {
  active_connections : gmap string (gset nat);
  connection_info : gmap nat ConnInfo
}.

(** [__init__] *)
Definition init : HubState :=
  mkHub (<["monitoring" := ∅]> (<["connections" := ∅]> (<["logs" := ∅]>
        (<["alerts" := ∅]> (<["data" := ∅]> (<["system" := ∅]> ∅)))))) ∅.

(** [sum(len(conns) for conns in self.active_connections.values())] *)
Definition total_connections (active : gmap string (gset nat)) : nat :=
  map_fold (fun _ (conns : gset nat) acc => size conns + acc) 0 active.

(** [disconnect(websocket)]: drop the info, discard from every channel. *)
Definition disconnect (ws : nat) (st : HubState) : HubState :=
  mkHub ((fun conns : gset nat => conns ∖ {[ws]}) <$> active_connections st)
        (delete ws (connection_info st)).

(** Removal of one socket from one channel and from the info map, as in
    the clean-up at the end of [broadcast]. *)
Definition drop_from_channel (channel : string) (st : HubState) (conn : nat) : HubState :=
  mkHub (alter (fun conns : gset nat => conns ∖ {[conn]}) channel (active_connections st))
        (delete conn (connection_info st)).

(** What [await websocket.receive_text()] gives an endpoint: a text
    frame, arriving at clock [arrival], given by what [json.loads] makes
    of it ([None] is a [JSONDecodeError]); a binary frame, on which
    [receive_text] raises [KeyError] (it returns [message["text"]]), an
    exception no loop handles; or the client going away
    ([WebSocketDisconnect]). *)
Inductive Frame :=
  | FText (arrival : Z) (parsed : option json)
  | FBytes
  | FClosed.



(** [messages_received += 1], and [last_heartbeat = now] when [stamp]
    holds. *)
Definition bump_received (stamp : option Z) (i : ConnInfo) : ConnInfo :=
  mkConnInfo (ci_channel i) (ci_connected_at i) (ci_messages_sent i)
             (S (ci_messages_received i))
             (default (ci_last_heartbeat i) stamp) (ci_client_id i).

(** [if websocket in websocket_manager.connection_info: ...] *)
Definition count_received (stamp : option Z) (ws : nat) (st : HubState) : HubState :=
  mkHub (active_connections st) (alter (bump_received stamp) ws (connection_info st)).

Section Sockets.
Context (W : SocketEnv).

(** [send_to_websocket(websocket, message)] at clock [now]; returns the
    new state and the messages handed to [send_text]. *)
Definition send_to_websocket (ws : nat) (message : json) (now : Z) (st : HubState)
    : HubState * list (nat * json) :=
  if client_connected W ws then
    let message := jset "server_timestamp" (iso now) message in
    try_except
      (match send_text W ws message with
       | Returned _ =>
           Returned (mkHub (active_connections st)
                           (alter (bump_sent (Some now)) ws (connection_info st)),
                     [(ws, message)])
       | Raised e => Raised e
       end)
      (fun _ => (disconnect ws st, [(ws, message)]))
  else (st, []).

(** [send_initial_alerts]: [alerts_data] is the ["data"] object built
    from [alerts_storage], or the exception raised while building it
    (caught and logged, nothing sent). *)
Definition send_initial_alerts (alerts_data : Outcome json) (ws : nat) (now : Z)
    (st : HubState) : HubState * list (nat * json) :=
  try_except
    (match alerts_data with
     | Returned d =>
         Returned (send_to_websocket ws
                     (JObj [("type", JStr "initial_alerts"); ("data", d)]) now st)
     | Raised e => Raised e
     end)
    (fun _ => (st, [])).

Definition send_initial_monitoring (ws : nat) (now : Z) (st : HubState)
    : HubState * list (nat * json) :=
  send_to_websocket ws
    (JObj [("type", JStr "initial_monitoring");
           ("data", JObj [("system_status", JStr "online");
                          ("protocols_active", JNum 6);
                          ("devices_connected", JNum 12);
                          ("data_points_monitored", JNum 48);
                          ("last_update", iso now)])]) now st.

(** The welcome message of [connect], built from the registry after the
    new socket has been added. [available_channels] lists the keys in
    the order of the [gmap], not in the dictionary's insertion order; no
    property below depends on that order. *)
Definition welcome_message (channel : string) (now : Z) (client_id : string)
    (active : gmap string (gset nat)) : json :=
  JObj [("type", JStr "connection_established");
        ("channel", JStr channel);
        ("timestamp", iso now);
        ("client_id", JStr client_id);
        ("server_info",
          JObj [("channel_connections",
                  JNum (Z.of_nat (size (default ∅ (active !! channel)))));
                ("total_connections", JNum (Z.of_nat (total_connections active)));
                ("available_channels",
                  JArr (map (fun kv => JStr (fst kv)) (map_to_list active)))])].

(** [connect(websocket, channel)] after a successful [accept()]; returns
    the messages sent to the new socket, in order. *)
Definition connect (alerts_data : Outcome json) (ws : nat) (channel : string)
    (now : Z) (st : HubState) : HubState * list (nat * json) :=
  let conns := {[ws]} ∪ default ∅ (active_connections st !! channel) in
  let active := <[channel := conns]> (active_connections st) in
  let client_id := channel ++ "_" ++ pretty (size conns) in
  let st1 :=
    mkHub active
          (<[ws := mkConnInfo channel now 0 0 now client_id]> (connection_info st)) in
  let '(st2, sent1) :=
    send_to_websocket ws (welcome_message channel now client_id active) now st1 in
  let '(st3, sent2) :=
    if String.eqb channel "alerts" then send_initial_alerts alerts_data ws now st2
    else if String.eqb channel "monitoring" then send_initial_monitoring ws now st2
    else (st2, []) in
  (st3, app sent1 sent2).

(** [connect(websocket, channel)] with the outcome of [await
    websocket.accept()]: a raise is logged and re-raised by [except
    Exception: ... raise] before anything is registered. *)
Definition connect_accepting (accepted : Outcome unit) (alerts_data : Outcome json)
    (ws : nat) (channel : string) (now : Z) (st : HubState)
    : Outcome (HubState * list (nat * json)) :=
  match accepted with
  | Raised e => Raised e
  | Returned _ => Returned (connect alerts_data ws channel now st)
  end.

(** One iteration of the loop of [broadcast]: the accumulator holds the
    [disconnected] list, the state and the send trace. *)
Definition broadcast_step (message : json) (connection : nat)
    (acc : list nat * HubState * SendTrace) : list nat * HubState * SendTrace :=
  let '(disconnected, st, tr) := acc in
  try_except
    (if client_connected W connection then
       match send_text W connection message with
       | Returned _ =>
           Returned (disconnected,
                     mkHub (active_connections st)
                           (alter (bump_sent None) connection (connection_info st)),
                     app tr [(connection, true)])
       | Raised e => Raised e
       end
     else Returned (app disconnected [connection], st, tr))
    (fun _ => (app disconnected [connection], st, app tr [(connection, false)])).

Fixpoint broadcast_loop (message : json) (connections : list nat)
    (acc : list nat * HubState * SendTrace) : list nat * HubState * SendTrace :=
  match connections with
  | [] => acc
  | c :: rest => broadcast_loop message rest (broadcast_step message c acc)
  end.

(** The server metadata [broadcast] adds to the message. *)
Definition stamp_message (channel : string) (now : Z) (message : json) : json :=
  jset "broadcast_channel" (JStr channel) (jset "server_timestamp" (iso now) message).

(** [broadcast(message, channel)] at clock [now]. *)
Definition broadcast (message : json) (channel : string) (now : Z) (st : HubState)
    : Outcome (HubState * SendTrace) :=
  match active_connections st !! channel with
  | None => Returned (st, [])             (* unknown channel: return *)
  | Some conns =>
      match elements conns with
      | [] => Returned (st, [])           (* no connections: return *)
      | connections =>
          let '(disconnected, st1, tr) :=
            broadcast_loop (stamp_message channel now message) connections ([], st, []) in
          Returned (fold_left (drop_from_channel channel) disconnected st1, tr)
      end
  end.

(** A reply of an endpoint through [send_to_websocket]. *)
Definition reply (ws : nat) (message : json) (t : Z) (st : HubState)
    : HubState * Outcome (list (nat * json)) :=
  let '(st1, sent) := send_to_websocket ws message t st in (st1, Returned sent).





(** One parsed frame of [websocket_system_endpoint]: echo it back. *)
Definition on_system_message (ws : nat) (t : Z) (message : json) (st : HubState)
    : HubState * Outcome (list (nat * json)) :=
  reply ws (JObj [("type", JStr "echo"); ("original_message", message)]) t
        (count_received None ws st).

(** The [while True] loop of an endpoint over the frames received so far:
    the state, the messages sent, and whether the loop has left (the
    client went away, or an exception escaped the frame's handling).
    [on_invalid] is the handler of [JSONDecodeError] if the endpoint has
    one; otherwise that exception leaves the loop. *)
Fixpoint session_loop
    (on_message : nat -> Z -> json -> HubState -> HubState * Outcome (list (nat * json)))
    (on_invalid : option (nat -> Z -> HubState -> HubState * list (nat * json)))
    (ws : nat) (frames : list Frame) (st : HubState)
    : HubState * list (nat * json) * bool :=
  match frames with
  | [] => (st, [], false)
  | FClosed :: _ => (st, [], true)
  | FBytes :: _ => (st, [], true)         (* KeyError: the loop is left *)
  | FText t None :: rest =>
      match on_invalid with
      | Some handler =>
          let '(st1, sent1) := handler ws t st in
          let '(st2, sent2, ended) := session_loop on_message on_invalid ws rest st1 in
          (st2, app sent1 sent2, ended)
      | None => (st, [], true)
      end
  | FText t (Some message) :: rest =>
      match on_message ws t message st with
      | (st1, Returned sent1) =>
          let '(st2, sent2, ended) := session_loop on_message on_invalid ws rest st1 in
          (st2, app sent1 sent2, ended)
      | (st1, Raised _) => (st1, [], true)
      end
  end.

(** An endpoint: [await websocket_manager.connect(websocket, channel)] at
    clock [now], the loop, and [finally: websocket_manager.disconnect]
    once the loop has left. *)
Definition endpoint (channel : string)
    (on_message : nat -> Z -> json -> HubState -> HubState * Outcome (list (nat * json)))
    (on_invalid : option (nat -> Z -> HubState -> HubState * list (nat * json)))
    (alerts_data : Outcome json) (ws : nat) (now : Z) (frames : list Frame) (st : HubState)
    : HubState * list (nat * json) * bool :=
  let '(st1, sent0) := connect alerts_data ws channel now st in
  let '(st2, sent1, ended) := session_loop on_message on_invalid ws frames st1 in
  (if ended then disconnect ws st2 else st2, app sent0 sent1, ended).

Definition websocket_system_endpoint :=
  endpoint "system" on_system_message None.

End Sockets.

(** A [SystemAlert] of [alerts_storage], as far as [send_initial_alerts]
    reads it: its id, [acknowledged], [timestamp], and [alert.dict()]. *)
Record Alert := mkAlert {
  alert_id : string;
  alert_acknowledged : bool;
  alert_timestamp : Z;
  alert_dict : json
}.

(** [d[k] = v] on a dictionary kept as its list of items in insertion
    order. *)
Definition dict_set {A : Type} (k : string) (v : A) (d : list (string * A))
    : list (string * A) :=
  if List.existsb (fun kv => String.eqb (fst kv) k) d
  then map (fun kv => if String.eqb (fst kv) k then (k, v) else kv) d
  else app d [(k, v)].

(** [recent_alerts.sort(key=lambda x: x['timestamp'], reverse=True)]: a
    stable sort, newest first, alerts with equal timestamps keeping their
    order (insertion sort, each element placed after the ones not older
    than it). *)
Fixpoint insert_newest_first (a : Alert) (l : list Alert) : list Alert :=
  match l with
  | [] => [a]
  | b :: rest =>
      if Z.ltb (alert_timestamp b) (alert_timestamp a) then a :: b :: rest
      else b :: insert_newest_first a rest
  end.

Definition sort_newest_first (l : list Alert) : list Alert :=
  fold_left (fun acc a => insert_newest_first a acc) l [].

(** [recent_alerts] of [send_initial_alerts], after the sort. *)
Definition recent_alerts (storage : list (string * Alert)) : list Alert :=
  sort_newest_first (List.filter (fun a => negb (alert_acknowledged a)) (map snd storage)).

(** The body of [send_initial_alerts] up to the send: the store (filled
    with [samples], the result of [create_sample_alerts()], when empty)
    and the ["data"] object. *)
Definition initial_alerts_data (alerts_storage : list (string * Alert)) (samples : list Alert)
    : list (string * Alert) * json :=
  let storage :=
    match alerts_storage with
    | [] => fold_left (fun s a => dict_set (alert_id a) a s) samples []
    | _ => alerts_storage
    end in
  let recent := recent_alerts storage in
  (storage,
   JObj [("alerts", JArr (map alert_dict (take 10 recent)));
         ("total_count", JNum (Z.of_nat (length recent)));
         ("unacknowledged_count", JNum (Z.of_nat (length recent)))]).

End ApiHub.

(* ================================================================== *)
(** * Properties of the orchestrator *)

Module ManagerFacts.
Import ProtocolManager.

(** A concrete service environment: every service imports; starting
    ["p2"] reports failure, starting ["p3"] raises; stopping ["p4"]
    reports failure, stopping ["p5"] raises; the store never raises. *)
Definition demo_env : ServiceEnv :=
  mkServiceEnv
    (fun _ => true)
    (fun _ id _ =>
       if String.eqb id "p2" then Returned false
       else if String.eqb id "p3" then Raised OtherException
       else Returned true)
    (fun _ id =>
       if String.eqb id "p4" then Returned false
       else if String.eqb id "p5" then Raised OtherException
       else Returned true)
    (fun _ _ => false)
    false.

(** The same services over a store that is down: every [Protocol.get],
    [save] and [Protocol.find_all] raises. *)
Definition down_store_env : ServiceEnv :=
  mkServiceEnv (loadable demo_env) (svc_start demo_env) (svc_stop demo_env)
    (fun _ _ => true) true.

Definition empty_manager : Manager := mkManager ∅ ∅.

(** A stored document for every test id, in state [CONNECTED]. *)
Definition demo_db : gmap string ProtocolDoc :=
  list_to_map [("p1", mkProtocolDoc MODBUS_TCP CONNECTED []);
               ("p2", mkProtocolDoc MODBUS_TCP CONNECTED []);
               ("p3", mkProtocolDoc OPC_UA CONNECTED [])].

Example start_p1_runs :
  get_protocol_status (snd (start_protocol demo_env empty_manager "p1" "modbus-tcp" [] 0)) "p1"
  = "running".
Proof. reflexivity. Qed.

Example stop_p1_stops :
  let m1 := snd (start_protocol demo_env empty_manager "p1" "modbus-tcp" [] 0) in
  get_protocol_status (snd (stop_protocol demo_env m1 "p1")) "p1" = "stopped".
Proof. vm_compute. reflexivity. Qed.

(** Python's [int(True)] and [int(False)]: how a [bool] return value
    compares with a count. *)
Definition py_int (b : bool) : nat := if b then 1 else 0.

Lemma ProtocolType_of_value_value (t : ProtocolType) :
  ProtocolType_of_value (ProtocolType_value t) = Some t.
Proof. destruct t; reflexivity. Qed.

Lemma set_status_other (id id' : string) (st : ProtocolStatus)
    (d : gmap string ProtocolDoc) :
  id ≠ id' -> set_status id st d !! id' = d !! id'.
Proof.
  intros Hne. unfold set_status. destruct (d !! id); [|done].
  by rewrite lookup_insert_ne.
Qed.

Lemma set_status_self (id : string) (st : ProtocolStatus) (d : gmap string ProtocolDoc) :
  set_status id st d !! id = (fun p => with_status p st) <$> d !! id.
Proof.
  unfold set_status. destruct (d !! id) as [p|] eqn:Hp; simpl.
  - apply lookup_insert_eq.
  - by rewrite Hp.
Qed.

(** The store after a status write whose raise is caught: written when
    the store does not raise, unchanged when it does. *)
Definition stored (E : ServiceEnv) (id : string) (st : ProtocolStatus)
    (d : gmap string ProtocolDoc) : gmap string ProtocolDoc :=
  if store_raises E id st then d else set_status id st d.

Lemma stored_other (E : ServiceEnv) (id id' : string) (st : ProtocolStatus)
    (d : gmap string ProtocolDoc) :
  id ≠ id' -> stored E id st d !! id' = d !! id'.
Proof.
  intros Hne. unfold stored. destruct (store_raises E id st); [done|].
  by apply set_status_other.
Qed.

Lemma stored_self (E : ServiceEnv) (id : string) (st : ProtocolStatus)
    (d : gmap string ProtocolDoc) :
  stored E id st d !! id =
    if store_raises E id st then d !! id else (fun p => with_status p st) <$> d !! id.
Proof.
  unfold stored. destruct (store_raises E id st); [done|]. apply set_status_self.
Qed.

Lemma start_failed_eq (E : ServiceEnv) (m : Manager) (id : string) :
  start_failed E m id = (false, mkManager (running_protocols m) (stored E id ERROR (db m))).
Proof.
  unfold start_failed, save_status, stored.
  destruct (store_raises E id ERROR); [by destruct m|done].
Qed.

(** A start whose service starts: the entry is stored, then the status
    write decides the result. *)
Lemma start_protocol_started (E : ServiceEnv) (m : Manager) (id : string)
    (t : ProtocolType) (cfg : Configuration) (now : Z) :
  loadable E t = true -> svc_start E t id cfg = Returned true ->
  start_protocol E m id (ProtocolType_value t) cfg now =
    (negb (store_raises E id CONNECTED),
     mkManager (<[id := mkRunningInfo (ProtocolType_value t) t cfg now "running"]>
                  (running_protocols m))
               (if store_raises E id CONNECTED then stored E id ERROR (db m)
                else set_status id CONNECTED (db m))).
Proof.
  intros Hld Hs. unfold start_protocol, get_protocol_service.
  rewrite ProtocolType_of_value_value, Hld, Hs. unfold save_status. simpl.
  destruct (store_raises E id CONNECTED); [|done]. by rewrite start_failed_eq.
Qed.

Lemma start_protocol_raised (E : ServiceEnv) (m : Manager) (id : string)
    (t : ProtocolType) (cfg : Configuration) (now : Z) (e : PyExn) :
  loadable E t = true -> svc_start E t id cfg = Raised e ->
  start_protocol E m id (ProtocolType_value t) cfg now =
    (false, mkManager (running_protocols m) (stored E id ERROR (db m))).
Proof.
  intros Hld Hs. unfold start_protocol, get_protocol_service.
  rewrite ProtocolType_of_value_value, Hld, Hs. apply start_failed_eq.
Qed.

Lemma start_protocol_cases (E : ServiceEnv) (m : Manager) (id s : string)
    (cfg : Configuration) (now : Z) :
  start_protocol E m id s cfg now = (false, m) \/
  start_protocol E m id s cfg now =
    (false, mkManager (running_protocols m) (stored E id ERROR (db m))) \/
  exists t, ProtocolType_of_value s = Some t /\ loadable E t = true /\
    svc_start E t id cfg = Returned true /\
    start_protocol E m id s cfg now =
      (negb (store_raises E id CONNECTED),
       mkManager (<[id := mkRunningInfo (ProtocolType_value t) t cfg now "running"]>
                    (running_protocols m))
                 (if store_raises E id CONNECTED then stored E id ERROR (db m)
                  else set_status id CONNECTED (db m))).
Proof.
  unfold start_protocol, get_protocol_service.
  destruct (ProtocolType_of_value s) as [t|] eqn:Ht; [|by left].
  destruct (loadable E t) eqn:Hld; [|right; left; apply start_failed_eq].
  destruct (svc_start E t id cfg) as [[]|] eqn:Hs; [|by left|right; left; apply start_failed_eq].
  right; right. exists t. split; [done|]. split; [done|]. split; [done|].
  unfold save_status. simpl.
  destruct (store_raises E id CONNECTED); [|done]. by rewrite start_failed_eq.
Qed.

(** A stop whose service stops: the entry is deleted, then the status
    write decides the result. *)
Lemma stop_protocol_stopped (E : ServiceEnv) (m : Manager) (id : string) (info : RunningInfo) :
  running_protocols m !! id = Some info -> svc_stop E (ri_service info) id = Returned true ->
  stop_protocol E m id =
    (negb (store_raises E id DISCONNECTED),
     mkManager (delete id (running_protocols m)) (stored E id DISCONNECTED (db m))).
Proof.
  intros Hr Hs. unfold stop_protocol. rewrite Hr, Hs. unfold save_status, stored. simpl.
  by destruct (store_raises E id DISCONNECTED).
Qed.

Lemma stop_protocol_cases (E : ServiceEnv) (m : Manager) (id : string) :
  stop_protocol E m id = (true, m) \/ stop_protocol E m id = (false, m) \/
  exists info, running_protocols m !! id = Some info /\
    svc_stop E (ri_service info) id = Returned true /\
    stop_protocol E m id =
      (negb (store_raises E id DISCONNECTED),
       mkManager (delete id (running_protocols m)) (stored E id DISCONNECTED (db m))).
Proof.
  destruct (running_protocols m !! id) as [info|] eqn:Hr.
  - destruct (svc_stop E (ri_service info) id) as [[]|] eqn:Hs.
    + right; right. exists info. split; [done|]. split; [done|].
      by apply (stop_protocol_stopped E m id info).
    + right; left. unfold stop_protocol. by rewrite Hr, Hs.
    + right; left. unfold stop_protocol. by rewrite Hr, Hs.
  - left. unfold stop_protocol. by rewrite Hr.
Qed.

(** [start_protocol] only ever adds to the running set. *)
Lemma start_protocol_running_mono (E : ServiceEnv) (m : Manager) (id s : string)
    (cfg : Configuration) (now : Z) (x : string) :
  x ∈ dom (running_protocols m) ->
  x ∈ dom (running_protocols (snd (start_protocol E m id s cfg now))).
Proof.
  intros Hx.
  destruct (start_protocol_cases E m id s cfg now) as [H|[H|[t [_ [_ [_ H]]]]]];
    rewrite H; simpl; [done|done|].
  rewrite dom_insert_L. set_solver.
Qed.

(** [start_protocol] on [id] leaves the document of every other id alone. *)
Lemma start_protocol_db_other (E : ServiceEnv) (m : Manager) (id s : string)
    (cfg : Configuration) (now : Z) (x : string) :
  id ≠ x -> db (snd (start_protocol E m id s cfg now)) !! x = db m !! x.
Proof.
  intros Hne.
  destruct (start_protocol_cases E m id s cfg now) as [H|[H|[t [_ [_ [_ H]]]]]];
    rewrite H; simpl; [done|by apply stored_other|].
  destruct (store_raises E id CONNECTED); [by apply stored_other|by apply set_status_other].
Qed.

Lemma start_each_running_mono (E : ServiceEnv) (l : list (string * ProtocolDoc))
    (now : Z) (m : Manager) (c : nat) (x : string) :
  x ∈ dom (running_protocols m) ->
  x ∈ dom (running_protocols (snd (start_each E l now m c))).
Proof.
  revert m c. induction l as [|[id p] rest IH]; intros m c Hx; simpl; [done|].
  destruct (ProtocolStatus_eqb (doc_status p) CONNECTED); [|by apply IH].
  destruct (start_protocol E m id _ _ now) as [ok m1] eqn:Hs.
  apply IH. change m1 with (snd (ok, m1)). rewrite <- Hs.
  by apply start_protocol_running_mono.
Qed.

Lemma start_each_db_other (E : ServiceEnv) (l : list (string * ProtocolDoc))
    (now : Z) (m : Manager) (c : nat) (x : string) :
  x ∉ map fst l ->
  db (snd (start_each E l now m c)) !! x = db m !! x.
Proof.
  revert m c. induction l as [|[id p] rest IH]; intros m c Hx; simpl; [done|].
  simpl in Hx. apply not_elem_of_cons in Hx as [Hne Hx].
  destruct (ProtocolStatus_eqb (doc_status p) CONNECTED); [|by apply IH].
  destruct (start_protocol E m id _ _ now) as [ok m1] eqn:Hs.
  rewrite IH by done. change m1 with (snd (ok, m1)). rewrite <- Hs.
  apply start_protocol_db_other. congruence.
Qed.

(** What the loop does for one document of the snapshot, whatever the
    other documents do. *)
Lemma start_each_item (E : ServiceEnv) (l : list (string * ProtocolDoc))
    (now : Z) (m : Manager) (c : nat) (id : string) (p : ProtocolDoc) :
  NoDup (map fst l) -> (id, p) ∈ l -> db m !! id = Some p ->
  doc_status p = CONNECTED -> loadable E (doc_type p) = true ->
  (svc_start E (doc_type p) id (doc_configuration p) = Returned true ->
     id ∈ dom (running_protocols (snd (start_each E l now m c)))) /\
  (forall e, svc_start E (doc_type p) id (doc_configuration p) = Raised e ->
     db (snd (start_each E l now m c)) !! id =
       Some (if store_raises E id ERROR then p else with_status p ERROR)).
Proof.
  revert m c. induction l as [|[id0 p0] rest IH]; intros m c Hnd Hin Hdb Hst Hld.
  { by apply not_elem_of_nil in Hin. }
  simpl in Hnd. apply NoDup_cons in Hnd as [Hfresh Hnd].
  apply elem_of_cons in Hin as [Heq|Hin].
  - injection Heq as <- <-. simpl. rewrite Hst. simpl. split.
    + intros Hok. rewrite (start_protocol_started E m id (doc_type p) _ now Hld Hok).
      apply start_each_running_mono. simpl. rewrite dom_insert_L. set_solver.
    + intros e Hr. rewrite (start_protocol_raised E m id (doc_type p) _ now e Hld Hr).
      rewrite start_each_db_other by done. simpl. rewrite stored_self, Hdb.
      by destruct (store_raises E id ERROR).
  - assert (Hne : id0 ≠ id).
    { intros Heq. apply Hfresh. rewrite Heq. apply list_elem_of_In, in_map_iff.
      exists (id, p). split; [done|by apply list_elem_of_In]. }
    simpl. destruct (ProtocolStatus_eqb (doc_status p0) CONNECTED).
    + destruct (start_protocol E m id0 _ _ now) as [ok m1] eqn:Hs.
      apply IH; try done. change m1 with (snd (ok, m1)). rewrite <- Hs.
      by rewrite start_protocol_db_other.
    + by apply IH.
Qed.

(** ** Claim theorems *)

(** C1 (amended): when [id] is in the running set, [restart(id)] has the
    result and final state of [stop(id)] followed by [start(id, type,
    configuration)] with the stored type and configuration (the start
    happening after the two-second pause); when [id] is not in the
    running set (never started or already stopped), [restart(id)]
    returns [False] and changes nothing. *)
Theorem restart_is_stop_then_start (E : ServiceEnv) (m : Manager) (id : string) (now : Z) :
  (forall info, running_protocols m !! id = Some info ->
     restart_protocol E m id now =
       let '(_, m1) := stop_protocol E m id in
       start_protocol E m1 id (ri_protocol_type info) (ri_configuration info)
                      (now + restart_pause)) /\
  (running_protocols m !! id = None -> restart_protocol E m id now = (false, m)).
Proof.
  split.
  - intros info Hinfo. unfold restart_protocol. by rewrite Hinfo.
  - intros Hnone. unfold restart_protocol. by rewrite Hnone.
Qed.

Lemma restart_is_stop_then_start_witness :
  let m1 := snd (start_protocol demo_env empty_manager "p1" "modbus-tcp" [] 0) in
  restart_protocol demo_env m1 "p1" 10 =
    (let '(_, m') := stop_protocol demo_env m1 "p1" in
     start_protocol demo_env m' "p1" "modbus-tcp" [] (10 + restart_pause)) /\
  restart_protocol demo_env empty_manager "p1" 10 = (false, empty_manager).
Proof.
  split.
  - exact (proj1 (restart_is_stop_then_start demo_env
                   (snd (start_protocol demo_env empty_manager "p1" "modbus-tcp" [] 0)) "p1" 10)
                 (mkRunningInfo "modbus-tcp" MODBUS_TCP [] 0 "running") eq_refl).
  - apply (proj2 (restart_is_stop_then_start demo_env empty_manager "p1" 10)).
    reflexivity.
Defined.

(** C1 fails: start ["p1"], stop it (a reachable state), then [restart]
    returns [False] and leaves it stopped, while [stop] then [start] with
    the same configuration brings it back to running. *)
Lemma restart_stopped_differs_from_stop_start :
  let m1 := snd (start_protocol demo_env empty_manager "p1" "modbus-tcp" [] 0) in
  let m2 := snd (stop_protocol demo_env m1 "p1") in
  let by_restart := restart_protocol demo_env m2 "p1" 10 in
  let by_stop_start :=
    start_protocol demo_env (snd (stop_protocol demo_env m2 "p1")) "p1" "modbus-tcp" [] 12 in
  by_restart = (false, m2) /\
  get_protocol_status (snd by_restart) "p1" = "stopped" /\
  fst by_stop_start = true /\
  get_protocol_status (snd by_stop_start) "p1" = "running" /\
  by_restart <> by_stop_start.
Proof.
  vm_compute. split; [reflexivity|]. split; [reflexivity|].
  split; [reflexivity|]. split; [reflexivity|]. intros H. discriminate H.
Qed.

(** C2 fails: the service of ["p2"] reports failure; [start] returns
    [False] and the status of ["p2"] is ["stopped"], not an error state
    (the status has only the values ["stopped"] and ["running"]). *)
Lemma start_failure_status_is_not_error :
  let r := start_protocol demo_env (mkManager ∅ demo_db) "p2" "modbus-tcp" [] 0 in
  fst r = false /\ get_protocol_status (snd r) "p2" = "stopped" /\
  get_protocol_status (snd r) "p2" <> "error".
Proof. vm_compute. split; [reflexivity|]. split; [reflexivity|]. discriminate. Qed.

(** C2 (amended): when the service fails to start (reports failure or
    raises), [start] returns [False] and the running set is unchanged,
    so [status(id)] reports what it reported before ("stopped" for an
    instance that was not running); the status only ever reports
    "stopped" or "running". When the service raised, the stored document
    of [id] (if any) is marked [ERROR] if the store accepts the write; if
    [Protocol.get] or [save] raises, that error is caught and the
    document is left as it was. *)
Theorem start_failure_leaves_status (E : ServiceEnv) (m : Manager) (id : string)
    (t : ProtocolType) (cfg : Configuration) (now : Z) :
  loadable E t = true ->
  (svc_start E t id cfg = Returned false \/ exists e, svc_start E t id cfg = Raised e) ->
  let r := start_protocol E m id (ProtocolType_value t) cfg now in
  fst r = false /\
  running_protocols (snd r) = running_protocols m /\
  get_protocol_status (snd r) id = get_protocol_status m id /\
  (forall m' x, get_protocol_status m' x = "stopped" \/ get_protocol_status m' x = "running") /\
  (forall e, svc_start E t id cfg = Raised e ->
     (store_raises E id ERROR = false -> db (snd r) = set_status id ERROR (db m)) /\
     (store_raises E id ERROR = true -> db (snd r) = db m)).
Proof.
  intros Hld Hfail. simpl.
  assert (Hall : forall m' x,
            get_protocol_status m' x = "stopped" \/ get_protocol_status m' x = "running").
  { intros m' x. unfold get_protocol_status. destruct (running_protocols m' !! x); auto. }
  destruct Hfail as [Hf|[e Hf]].
  - assert (Hr : start_protocol E m id (ProtocolType_value t) cfg now = (false, m)).
    { unfold start_protocol, get_protocol_service.
      by rewrite ProtocolType_of_value_value, Hld, Hf. }
    rewrite Hr. simpl. split; [done|]. split; [done|]. split; [done|]. split; [done|].
    intros e He. congruence.
  - rewrite (start_protocol_raised E m id t cfg now e Hld Hf). simpl.
    split; [done|]. split; [done|]. split; [done|]. split; [done|].
    intros _ _. unfold stored. split; intros ->; done.
Qed.

Lemma start_failure_leaves_status_witness :
  fst (start_protocol demo_env (mkManager ∅ demo_db) "p3" "opc-ua" [] 0) = false /\
  db (snd (start_protocol demo_env (mkManager ∅ demo_db) "p3" "opc-ua" [] 0))
    = set_status "p3" ERROR demo_db /\
  db (snd (start_protocol down_store_env (mkManager ∅ demo_db) "p3" "opc-ua" [] 0))
    = demo_db.
Proof.
  destruct (start_failure_leaves_status demo_env (mkManager ∅ demo_db) "p3" OPC_UA [] 0
              eq_refl (or_intror (ex_intro _ OtherException eq_refl)))
    as [H1 [_ [_ [_ H5]]]].
  destruct (start_failure_leaves_status down_store_env (mkManager ∅ demo_db) "p3" OPC_UA [] 0
              eq_refl (or_intror (ex_intro _ OtherException eq_refl)))
    as [_ [_ [_ [_ H5']]]].
  split; [exact H1|]. split.
  - exact (proj1 (H5 OtherException eq_refl) eq_refl).
  - exact (proj2 (H5' OtherException eq_refl) eq_refl).
Defined.

(** C3 fails: two stored [CONNECTED] protocols both start; the count of
    successes is 2, but [start_all_protocols] returns [True] (1 as a
    number). *)
Lemma start_all_returns_bool_not_count :
  let m := mkManager ∅ (list_to_map [("a", mkProtocolDoc MODBUS_TCP CONNECTED []);
                                    ("b", mkProtocolDoc MQTT CONNECTED [])]) in
  fst (start_all_protocols demo_env m 0) = true /\
  started_count demo_env m 0 = 2 /\
  py_int (fst (start_all_protocols demo_env m 0)) <> started_count demo_env m 0.
Proof. vm_compute. split; [reflexivity|]. split; [reflexivity|]. discriminate. Qed.

(** C3 (amended): [start_all_protocols] first fetches the stored
    protocols; when that fetch ([Protocol.find_all().to_list()]) raises,
    it returns [False] and changes nothing. Otherwise it tries every
    stored protocol whose status is [CONNECTED], each on its own:
    whatever the other starts do, one whose service starts ends up
    running, and one whose service raises has its document marked
    [ERROR] when the store accepts that write (left as it was when the
    write raises); the function then returns [True] (the count of
    successes is only logged). *)
Theorem start_all_isolated (E : ServiceEnv) (m : Manager) (now : Z) :
  (find_all_raises E = true -> start_all_protocols E m now = (false, m)) /\
  (find_all_raises E = false ->
   fst (start_all_protocols E m now) = true /\
   forall id p, db m !! id = Some p -> doc_status p = CONNECTED ->
     loadable E (doc_type p) = true ->
     (svc_start E (doc_type p) id (doc_configuration p) = Returned true ->
        id ∈ dom (running_protocols (snd (start_all_protocols E m now)))) /\
     (forall e, svc_start E (doc_type p) id (doc_configuration p) = Raised e ->
        db (snd (start_all_protocols E m now)) !! id =
          Some (if store_raises E id ERROR then p else with_status p ERROR))).
Proof.
  unfold start_all_protocols. split; [intros ->; done|]. intros ->.
  destruct (start_each E (map_to_list (db m)) now m 0) as [n m'] eqn:Hse.
  split; [done|]. intros id p Hdb Hst Hld.
  change m' with (snd (n, m')). rewrite <- Hse.
  apply start_each_item; try done.
  - apply NoDup_fst_map_to_list.
  - by apply elem_of_map_to_list.
Qed.

Lemma start_all_isolated_witness :
  let m := mkManager ∅ demo_db in
  "p1" ∈ dom (running_protocols (snd (start_all_protocols demo_env m 0))) /\
  db (snd (start_all_protocols demo_env m 0)) !! "p3"
    = Some (with_status (mkProtocolDoc OPC_UA CONNECTED []) ERROR) /\
  start_all_protocols down_store_env m 0 = (false, m).
Proof.
  simpl. destruct (start_all_isolated demo_env (mkManager ∅ demo_db) 0) as [_ H].
  destruct (H eq_refl) as [_ H'].
  split; [|split].
  - apply (proj1 (H' "p1" (mkProtocolDoc MODBUS_TCP CONNECTED []) eq_refl eq_refl eq_refl)).
    reflexivity.
  - apply (proj2 (H' "p3" (mkProtocolDoc OPC_UA CONNECTED []) eq_refl eq_refl eq_refl)
                 OtherException).
    reflexivity.
  - apply (proj1 (start_all_isolated down_store_env (mkManager ∅ demo_db) 0)).
    reflexivity.
Defined.

(** C4: [stop] of an id that is not running returns [True] and changes
    nothing; hence a second [stop] after a successful one is again a
    successful no-op. *)
Theorem stop_not_running_is_noop (E : ServiceEnv) (m : Manager) (id : string) :
  (running_protocols m !! id = None -> stop_protocol E m id = (true, m)) /\
  (forall m', stop_protocol E m id = (true, m') -> stop_protocol E m' id = (true, m')).
Proof.
  assert (Hnone : forall m0, running_protocols m0 !! id = None ->
                             stop_protocol E m0 id = (true, m0)).
  { intros m0 H. unfold stop_protocol. by rewrite H. }
  split; [apply Hnone|].
  intros m' Hs. destruct (stop_protocol_cases E m id) as [H|[H|[i0 [_ [_ H]]]]];
    rewrite H in Hs.
  - injection Hs as <-. exact H.
  - discriminate Hs.
  - injection Hs as _ <-. apply Hnone. simpl. apply lookup_delete_eq.
Qed.

Lemma stop_not_running_is_noop_witness :
  stop_protocol demo_env empty_manager "p1" = (true, empty_manager) /\
  (let m1 := snd (start_protocol demo_env empty_manager "p1" "modbus-tcp" [] 0) in
   let m2 := snd (stop_protocol demo_env m1 "p1") in
   stop_protocol demo_env m2 "p1" = (true, m2)).
Proof.
  split.
  - apply (proj1 (stop_not_running_is_noop demo_env empty_manager "p1")). reflexivity.
  - apply (proj2 (stop_not_running_is_noop demo_env
                   (snd (start_protocol demo_env empty_manager "p1" "modbus-tcp" [] 0)) "p1")).
    reflexivity.
Defined.

(** C8: [start] with a type string that is no [ProtocolType] value
    returns [False] and leaves the manager (running set and stored
    documents) unchanged; an id that was not running stays stopped. *)
Theorem start_unknown_type_rejected (E : ServiceEnv) (m : Manager) (id s : string)
    (cfg : Configuration) (now : Z) :
  ProtocolType_of_value s = None ->
  start_protocol E m id s cfg now = (false, m) /\
  (running_protocols m !! id = None ->
     get_protocol_status (snd (start_protocol E m id s cfg now)) id = "stopped").
Proof.
  intros Hs. unfold start_protocol. rewrite Hs. split; [done|].
  intros H. simpl. unfold get_protocol_status. by rewrite H.
Qed.

Lemma start_unknown_type_rejected_witness :
  start_protocol demo_env (mkManager ∅ demo_db) "p1" "profibus" [] 0
    = (false, mkManager ∅ demo_db) /\
  get_protocol_status (snd (start_protocol demo_env (mkManager ∅ demo_db) "p1" "profibus" [] 0))
    "p1" = "stopped".
Proof.
  destruct (start_unknown_type_rejected demo_env (mkManager ∅ demo_db) "p1" "profibus" [] 0
              eq_refl) as [H1 H2].
  split; [exact H1|]. apply H2. reflexivity.
Defined.

(** C10: when the service of a running id fails to stop (reports
    failure or raises), [stop] returns [False], the manager is left as
    it was, and the status still reports ["running"]. *)
Theorem stop_failure_keeps_entry (E : ServiceEnv) (m : Manager) (id : string)
    (info : RunningInfo) :
  running_protocols m !! id = Some info ->
  (svc_stop E (ri_service info) id = Returned false \/
   exists e, svc_stop E (ri_service info) id = Raised e) ->
  stop_protocol E m id = (false, m) /\
  get_protocol_status (snd (stop_protocol E m id)) id = "running".
Proof.
  intros Hr Hfail.
  assert (Hs : stop_protocol E m id = (false, m)).
  { unfold stop_protocol. rewrite Hr. by destruct Hfail as [Hf|[e Hf]]; rewrite Hf. }
  split; [done|]. rewrite Hs. simpl. unfold get_protocol_status. by rewrite Hr.
Qed.

Lemma stop_failure_keeps_entry_witness :
  let m := snd (start_protocol demo_env empty_manager "p4" "mqtt" [] 0) in
  stop_protocol demo_env m "p4" = (false, m).
Proof.
  apply (proj1 (stop_failure_keeps_entry demo_env
                  (snd (start_protocol demo_env empty_manager "p4" "mqtt" [] 0)) "p4"
                  (mkRunningInfo "mqtt" MQTT [] 0 "running") eq_refl
                  (or_introl eq_refl))).
Defined.

End ManagerFacts.

(* ================================================================== *)
(** * Properties of the hub of services/websocket_manager.py *)

Module HubFacts.
Import Hub.

(** [ws] has left the registry: no info entry, in no channel. *)
Definition gone (ws : nat) (st : HubState) : Prop :=
  connection_info st !! ws = None /\
  forall ch conns, active_connections st !! ch = Some conns -> ws ∉ conns.

(** The trace entry of one iteration of the loop. *)
Definition attempt (W : SocketEnv) (message : json) (c : nat) : SendTrace :=
  if client_connected W c then
    [(c, match send_text W c message with Returned _ => true | Raised _ => false end)]
  else [].

Lemma disconnect_gone (ws : nat) (st : HubState) : gone ws (disconnect ws st).
Proof.
  split; simpl; [apply lookup_delete_eq|].
  intros ch conns. rewrite lookup_fmap.
  destruct (active_connections st !! ch); simpl; [|done].
  intros [= <-]. set_solver.
Qed.

Lemma disconnect_keeps_gone (x ws : nat) (st : HubState) :
  gone x st -> gone x (disconnect ws st).
Proof.
  intros [Hi Ha]. split; simpl.
  - destruct (decide (ws = x)) as [->|Hne]; [apply lookup_delete_eq|].
    by rewrite lookup_delete_ne.
  - intros ch conns. rewrite lookup_fmap.
    destruct (active_connections st !! ch) as [c0|] eqn:Hc; simpl; [|done].
    intros [= <-]. specialize (Ha ch c0 Hc). set_solver.
Qed.

Lemma alter_none {A : Type} (f : A -> A) (m : gmap nat A) (i x : nat) :
  m !! x = None -> alter f i m !! x = None.
Proof.
  intros H. rewrite lookup_alter. case_decide; subst; [by rewrite H|done].
Qed.

Lemma step_keeps_gone (W : SocketEnv) (ch : string) (message : json) (c x : nat)
    (st : HubState) (tr : SendTrace) :
  gone x st -> gone x (fst (broadcast_step W ch message c (st, tr))).
Proof.
  intros Hg. unfold broadcast_step.
  destruct (client_connected W c).
  - destruct (send_text W c message); simpl.
    + destruct Hg as [Hi Ha]. split; [by apply alter_none|done].
    + by apply disconnect_keeps_gone.
  - destruct Hg as [Hi Ha]. split; simpl.
    + destruct (decide (c = x)) as [->|Hne]; [apply lookup_delete_eq|].
      by rewrite lookup_delete_ne.
    + intros ch' conns. rewrite lookup_alter. case_decide as Hch.
      * subst ch'. destruct (active_connections st !! ch) as [c0|] eqn:Hc; simpl; [|done].
        intros [= <-]. specialize (Ha ch c0 Hc). set_solver.
      * apply Ha.
Qed.

Lemma step_trace (W : SocketEnv) (ch : string) (message : json) (c : nat)
    (st : HubState) (tr : SendTrace) :
  snd (broadcast_step W ch message c (st, tr)) = app tr (attempt W message c).
Proof.
  unfold broadcast_step, attempt.
  destruct (client_connected W c); [|by rewrite app_nil_r].
  by destruct (send_text W c message).
Qed.

Lemma loop_trace (W : SocketEnv) (ch : string) (message : json) (l : list nat)
    (st : HubState) (tr : SendTrace) :
  snd (broadcast_loop W ch message l (st, tr)) =
  app tr (concat (map (attempt W message) l)).
Proof.
  revert st tr. induction l as [|c rest IH]; intros st tr; cbn [broadcast_loop snd].
  - by rewrite app_nil_r.
  - destruct (broadcast_step W ch message c (st, tr)) as [st1 tr1] eqn:Hs.
    rewrite IH. pose proof (step_trace W ch message c st tr) as Ht.
    rewrite Hs in Ht. simpl in Ht. rewrite Ht. by rewrite <- app_assoc.
Qed.

Lemma loop_keeps_gone (W : SocketEnv) (ch : string) (message : json) (l : list nat)
    (x : nat) (st : HubState) (tr : SendTrace) :
  gone x st -> gone x (fst (broadcast_loop W ch message l (st, tr))).
Proof.
  revert st tr. induction l as [|c rest IH]; intros st tr Hg; cbn [broadcast_loop]; [done|].
  destruct (broadcast_step W ch message c (st, tr)) as [st1 tr1] eqn:Hs.
  apply IH. change st1 with (fst (st1, tr1)). rewrite <- Hs.
  by apply step_keeps_gone.
Qed.

(** A socket whose send raises is disconnected by the loop. *)
Lemma loop_failed_gone (W : SocketEnv) (ch : string) (message : json) (l : list nat)
    (a : nat) (e : PyExn) (st : HubState) (tr : SendTrace) :
  a ∈ l -> client_connected W a = true -> send_text W a message = Raised e ->
  gone a (fst (broadcast_loop W ch message l (st, tr))).
Proof.
  revert st tr. induction l as [|c rest IH]; intros st tr Hin Hc Hs.
  { by apply not_elem_of_nil in Hin. }
  cbn [broadcast_loop]. destruct (broadcast_step W ch message c (st, tr)) as [st1 tr1] eqn:Hstep.
  apply elem_of_cons in Hin as [->|Hin]; [|by apply IH].
  apply loop_keeps_gone. change st1 with (fst (st1, tr1)). rewrite <- Hstep.
  unfold broadcast_step. rewrite Hc, Hs. apply disconnect_gone.
Qed.

(** The attempts of one socket in the trace of a loop over a list
    without repetition. *)
Lemma attempts_of_absent (W : SocketEnv) (message : json) (l : list nat) (a : nat) :
  a ∉ l -> List.filter (fun x => Nat.eqb (fst x) a) (concat (map (attempt W message) l)) = [].
Proof.
  induction l as [|c rest IH]; intros Hn; simpl; [done|].
  apply not_elem_of_cons in Hn as [Hne Hn].
  rewrite List.filter_app, IH by done. rewrite app_nil_r.
  unfold attempt. destruct (client_connected W c); simpl; [|done].
  destruct (Nat.eqb_spec c a); [congruence|done].
Qed.

Lemma attempts_of_member (W : SocketEnv) (message : json) (l : list nat) (a : nat) :
  NoDup l -> a ∈ l ->
  List.filter (fun x => Nat.eqb (fst x) a) (concat (map (attempt W message) l)) =
  attempt W message a.
Proof.
  induction l as [|c rest IH]; intros Hnd Hin.
  { by apply not_elem_of_nil in Hin. }
  apply NoDup_cons in Hnd as [Hc Hnd]. simpl. rewrite List.filter_app.
  apply elem_of_cons in Hin as [Heq|Hin].
  - subst c. rewrite attempts_of_absent by done. rewrite app_nil_r.
    unfold attempt. destruct (client_connected W a); simpl; [|done].
    by rewrite Nat.eqb_refl.
  - rewrite IH by done.
    assert (Hne : c ≠ a) by (intros ->; contradiction).
    unfold attempt at 1. destruct (client_connected W c); simpl; [|done].
    by destruct (Nat.eqb_spec c a).
Qed.

Lemma attempt_in_trace (W : SocketEnv) (message : json) (l : list nat) (b : nat) :
  b ∈ l -> client_connected W b = true -> send_text W b message = Returned tt ->
  (b, true) ∈ concat (map (attempt W message) l).
Proof.
  intros Hin Hc Hs. apply list_elem_of_In, in_concat.
  exists (attempt W message b). split.
  - apply in_map. by apply list_elem_of_In.
  - unfold attempt. rewrite Hc, Hs. left. done.
Qed.

(** The services hub's [broadcast]: a socket whose send raises is
    disconnected in the same call, attempted once; another socket of the
    channel still gets the message; the call returns normally. *)
Lemma broadcast_failure_isolated (W : SocketEnv) (message : json) (ch : string)
    (now : Z) (st : HubState) (conns : gset nat) (a b : nat) (e : PyExn) :
  active_connections st !! ch = Some conns -> a ∈ conns -> b ∈ conns ->
  client_connected W a = true -> send_text W a (stamp_message now message) = Raised e ->
  client_connected W b = true -> send_text W b (stamp_message now message) = Returned tt ->
  exists st' tr, broadcast W message ch now st = Returned (st', tr) /\
    (b, true) ∈ tr /\
    List.filter (fun x => Nat.eqb (fst x) a) tr = [(a, false)] /\
    gone a st'.
Proof.
  intros Hch Ha Hb Hca Hsa Hcb Hsb. unfold broadcast. rewrite Hch.
  destruct (broadcast_loop W ch (stamp_message now message) (elements conns) (st, []))
    as [st' tr] eqn:Hl.
  exists st', tr. split; [done|].
  assert (Htr : tr = concat (map (attempt W (stamp_message now message)) (elements conns))).
  { change tr with (snd (st', tr)). rewrite <- Hl. by rewrite loop_trace. }
  rewrite Htr. split; [|split].
  - apply attempt_in_trace; [by apply elem_of_elements|done|done].
  - rewrite attempts_of_member; [|apply NoDup_elements|by apply elem_of_elements].
    unfold attempt. by rewrite Hca, Hsa.
  - change st' with (fst (st', tr)). rewrite <- Hl.
    eapply loop_failed_gone; [by apply elem_of_elements|done|done].
Qed.

Lemma fold_disconnect_keeps_gone (l : list nat) (x : nat) (st : HubState) :
  gone x st -> gone x (fold_left (fun s ws => disconnect ws s) l st).
Proof.
  revert st. induction l as [|c rest IH]; intros st Hg; simpl; [done|].
  apply IH. by apply disconnect_keeps_gone.
Qed.

Lemma fold_disconnect_gone (l : list nat) (x : nat) (st : HubState) :
  x ∈ l -> gone x (fold_left (fun s ws => disconnect ws s) l st).
Proof.
  revert st. induction l as [|c rest IH]; intros st Hin.
  { by apply not_elem_of_nil in Hin. }
  simpl. apply elem_of_cons in Hin as [->|Hin]; [|by apply IH].
  apply fold_disconnect_keeps_gone, disconnect_gone.
Qed.

Lemma fold_disconnect_info (l : list nat) (x : nat) (i : ConnInfo) (st : HubState) :
  connection_info (fold_left (fun s ws => disconnect ws s) l st) !! x = Some i ->
  connection_info st !! x = Some i.
Proof.
  revert st. induction l as [|c rest IH]; intros st H; simpl in *; [done|].
  apply IH in H. simpl in H.
  destruct (decide (c = x)) as [->|Hne]; [by rewrite lookup_delete_eq in H|].
  by rewrite lookup_delete_ne in H.
Qed.

Lemma stale_is_broken (W : SocketEnv) (now : Z) (st : HubState) (ws : nat) (i : ConnInfo) :
  connection_info st !! ws = Some i -> is_stale now i = true ->
  ws ∈ broken_connections W now st.
Proof.
  intros Hi Hs. unfold broken_connections.
  apply list_elem_of_In, in_map_iff. exists (ws, i). split; [done|].
  apply filter_In. split.
  - apply list_elem_of_In. by apply elem_of_map_to_list.
  - simpl. by rewrite Hs.
Qed.

End HubFacts.

(* ================================================================== *)
(** * Properties of the hub of api/websocket.py *)

Module ApiHubFacts.
Import ApiHub.

(** [ws] is no longer registered in [channel]. *)
Definition gone_from (channel : string) (ws : nat) (st : HubState) : Prop :=
  connection_info st !! ws = None /\
  forall conns, active_connections st !! channel = Some conns -> ws ∉ conns.

(** What one iteration appends to the [disconnected] list. *)
Definition failed (W : SocketEnv) (message : json) (c : nat) : list nat :=
  if client_connected W c then
    match send_text W c message with Returned _ => [] | Raised _ => [c] end
  else [c].

Lemma step_shape (W : SocketEnv) (message : json) (c : nat)
    (d : list nat) (st : HubState) (tr : SendTrace) :
  exists st', broadcast_step W message c (d, st, tr) =
              (app d (failed W message c), st', app tr (HubFacts.attempt W message c)) /\
              active_connections st' = active_connections st.
Proof.
  unfold broadcast_step, failed, HubFacts.attempt.
  destruct (client_connected W c); [destruct (send_text W c message)|];
    simpl; eexists; rewrite ?app_nil_r; split; reflexivity.
Qed.

Lemma loop_shape (W : SocketEnv) (message : json) (l : list nat)
    (d : list nat) (st : HubState) (tr : SendTrace) :
  exists st', broadcast_loop W message l (d, st, tr) =
              (app d (concat (map (failed W message) l)), st',
               app tr (concat (map (HubFacts.attempt W message) l))) /\
              active_connections st' = active_connections st.
Proof.
  revert d st tr. induction l as [|c rest IH]; intros d st tr; cbn [broadcast_loop].
  - exists st. by rewrite !app_nil_r.
  - destruct (step_shape W message c d st tr) as [st1 [Hs Ha1]]. rewrite Hs.
    destruct (IH (app d (failed W message c)) st1 (app tr (HubFacts.attempt W message c)))
      as [st2 [Hl Ha2]].
    exists st2. split; [|congruence].
    refine (eq_trans Hl _). by rewrite <- !app_assoc.
Qed.

Lemma drop_gone (channel : string) (x : nat) (st : HubState) :
  gone_from channel x (drop_from_channel channel st x).
Proof.
  split; simpl; [apply lookup_delete_eq|].
  intros conns. rewrite lookup_alter_eq.
  destruct (active_connections st !! channel); simpl; [|done].
  intros [= <-]. set_solver.
Qed.

Lemma drop_keeps_gone (channel : string) (x c : nat) (st : HubState) :
  gone_from channel x st -> gone_from channel x (drop_from_channel channel st c).
Proof.
  intros [Hi Ha]. split; simpl.
  - destruct (decide (c = x)) as [->|Hne]; [apply lookup_delete_eq|].
    by rewrite lookup_delete_ne.
  - intros conns. rewrite lookup_alter_eq.
    destruct (active_connections st !! channel) as [c0|] eqn:Hc; simpl; [|done].
    intros [= <-]. specialize (Ha c0 eq_refl). set_solver.
Qed.

Lemma fold_drop_gone (channel : string) (l : list nat) (x : nat) (st : HubState) :
  x ∈ l -> gone_from channel x (fold_left (drop_from_channel channel) l st).
Proof.
  assert (Hkeep : forall l' st', gone_from channel x st' ->
                    gone_from channel x (fold_left (drop_from_channel channel) l' st')).
  { induction l' as [|c rest IH]; intros st' Hg; simpl; [done|].
    apply IH. by apply drop_keeps_gone. }
  revert st. induction l as [|c rest IH]; intros st Hin.
  { by apply not_elem_of_nil in Hin. }
  simpl. apply elem_of_cons in Hin as [->|Hin]; [|by apply IH].
  apply Hkeep, drop_gone.
Qed.

Lemma failed_in (W : SocketEnv) (message : json) (l : list nat) (a : nat) (e : PyExn) :
  a ∈ l -> client_connected W a = true -> send_text W a message = Raised e ->
  a ∈ concat (map (failed W message) l).
Proof.
  intros Hin Hc Hs. apply list_elem_of_In, in_concat.
  exists (failed W message a). split.
  - apply in_map. by apply list_elem_of_In.
  - unfold failed. rewrite Hc, Hs. left. done.
Qed.

(** The api hub's [broadcast]: a socket whose send raises is removed
    from the channel and from the info map in the same call, attempted
    once; another socket of the channel still gets the message; the
    call returns normally. *)
Lemma api_broadcast_failure_isolated (W : SocketEnv) (message : json) (ch : string)
    (now : Z) (st : HubState) (conns : gset nat) (a b : nat) (e : PyExn) :
  active_connections st !! ch = Some conns -> a ∈ conns -> b ∈ conns ->
  client_connected W a = true -> send_text W a (stamp_message ch now message) = Raised e ->
  client_connected W b = true -> send_text W b (stamp_message ch now message) = Returned tt ->
  exists st' tr, broadcast W message ch now st = Returned (st', tr) /\
    (b, true) ∈ tr /\
    List.filter (fun x => Nat.eqb (fst x) a) tr = [(a, false)] /\
    gone_from ch a st'.
Proof.
  intros Hch Ha Hb Hca Hsa Hcb Hsb. unfold broadcast. rewrite Hch.
  set (msg := stamp_message ch now message) in *.
  assert (Hae : a ∈ elements conns) by (by apply elem_of_elements).
  assert (Hbe : b ∈ elements conns) by (by apply elem_of_elements).
  pose proof (NoDup_elements conns) as Hnd.
  destruct (elements conns) as [|n l0] eqn:He; [by apply not_elem_of_nil in Hae|].
  destruct (loop_shape W msg (n :: l0) [] st []) as [st1 [Hl _]].
  cbv beta iota. rewrite Hl. cbv beta iota. rewrite !app_nil_l.
  eexists _, _. split; [reflexivity|]. split; [|split].
  - apply HubFacts.attempt_in_trace; done.
  - rewrite HubFacts.attempts_of_member by done.
    unfold HubFacts.attempt. by rewrite Hca, Hsa.
  - apply fold_drop_gone. by eapply failed_in.
Qed.

End ApiHubFacts.

(* ================================================================== *)
(** * Claims about the hubs *)

Module HubClaims.

(** Sockets 1 and 2 are open; sending to socket 2 raises. *)
Definition demo_sockets : SocketEnv :=
  mkSocketEnv (fun c => negb (Nat.eqb c 9))
              (fun c _ => if Nat.eqb c 2 then Raised OtherException else Returned tt).

Definition demo_conns : gset nat := {[1]} ∪ {[2]}.

Definition demo_hub : Hub.HubState :=
  Hub.mkHub (<["monitoring" := demo_conns]> (Hub.active_connections Hub.init))
            (<[1 := Hub.mkConnInfo "monitoring" 0 0 0 0]>
              (<[2 := Hub.mkConnInfo "monitoring" 0 0 0 400000000]> ∅)).

Definition demo_api_hub : ApiHub.HubState :=
  ApiHub.mkHub (<["alerts" := demo_conns]> (ApiHub.active_connections ApiHub.init))
               (<[1 := ApiHub.mkConnInfo "alerts" 0 0 0 0 "alerts_1"]>
                 (<[2 := ApiHub.mkConnInfo "alerts" 0 0 0 0 "alerts_2"]> ∅)).

Definition demo_event : json := JObj [("type", JStr "new_alert"); ("data", JNull)].

Example demo_broadcast_drops_2 :
  match Hub.broadcast demo_sockets demo_event "monitoring" 5 demo_hub with
  | Returned (st', tr) => tr = [(2, false); (1, true)] /\
                          Hub.connection_info st' !! 2 = None
  | Raised _ => False
  end.
Proof. vm_compute. split; reflexivity. Qed.

Lemma api_send_to_websocket_sent (W : SocketEnv) (ws : nat) (message : json) (now : Z)
    (st : ApiHub.HubState) :
  client_connected W ws = true ->
  snd (ApiHub.send_to_websocket W ws message now st) =
  [(ws, jset "server_timestamp" (iso now) message)].
Proof.
  intros Hc. unfold ApiHub.send_to_websocket. rewrite Hc.
  by destruct (send_text W ws _).
Qed.

Lemma hub_send_personal_message_sent (W : SocketEnv) (ws : nat) (message : json) (now : Z)
    (st : Hub.HubState) :
  client_connected W ws = true -> jget "timestamp" message = None ->
  snd (Hub.send_personal_message W message ws now st) =
  [(ws, jset "timestamp" (iso now) message)].
Proof.
  intros Hc Ht. unfold Hub.send_personal_message. rewrite Hc, Ht.
  by destruct (send_text W ws _).
Qed.

(** C5: for both hubs, when the send to subscriber [a] of a channel
    raises, [broadcast] still returns normally, delivers to another
    subscriber [b] whose send succeeds, tries [a] exactly once (no
    retry), and removes [a] from the channel's subscriber set and from
    the info map during that same call. *)
Theorem broadcast_send_failure_isolated (W : SocketEnv) (message : json) (ch : string)
    (now : Z) (a b : nat) (e : PyExn) :
  a ≠ b -> client_connected W a = true -> client_connected W b = true ->
  (forall (st : Hub.HubState) (conns : gset nat),
     Hub.active_connections st !! ch = Some conns -> a ∈ conns -> b ∈ conns ->
     send_text W a (Hub.stamp_message now message) = Raised e ->
     send_text W b (Hub.stamp_message now message) = Returned tt ->
     exists st' tr, Hub.broadcast W message ch now st = Returned (st', tr) /\
       (b, true) ∈ tr /\
       List.filter (fun x => Nat.eqb (fst x) a) tr = [(a, false)] /\
       Hub.connection_info st' !! a = None /\
       (forall conns', Hub.active_connections st' !! ch = Some conns' -> a ∉ conns')) /\
  (forall (st : ApiHub.HubState) (conns : gset nat),
     ApiHub.active_connections st !! ch = Some conns -> a ∈ conns -> b ∈ conns ->
     send_text W a (ApiHub.stamp_message ch now message) = Raised e ->
     send_text W b (ApiHub.stamp_message ch now message) = Returned tt ->
     exists st' tr, ApiHub.broadcast W message ch now st = Returned (st', tr) /\
       (b, true) ∈ tr /\
       List.filter (fun x => Nat.eqb (fst x) a) tr = [(a, false)] /\
       ApiHub.connection_info st' !! a = None /\
       (forall conns', ApiHub.active_connections st' !! ch = Some conns' -> a ∉ conns')).
Proof.
  intros _ Hca Hcb. split.
  - intros st conns Hch Ha Hb Hsa Hsb.
    destruct (HubFacts.broadcast_failure_isolated W message ch now st conns a b e
                Hch Ha Hb Hca Hsa Hcb Hsb) as (st' & tr & Hr & Hin & Hf & Hi & Hg).
    exists st', tr. repeat split; try done. intros conns' H'. by apply (Hg ch).
  - intros st conns Hch Ha Hb Hsa Hsb.
    destruct (ApiHubFacts.api_broadcast_failure_isolated W message ch now st conns a b e
                Hch Ha Hb Hca Hsa Hcb Hsb) as (st' & tr & Hr & Hin & Hf & Hi & Hg).
    exists st', tr. by repeat split.
Qed.

Lemma broadcast_send_failure_isolated_witness :
  (exists st' tr, Hub.broadcast demo_sockets demo_event "monitoring" 5 demo_hub
                  = Returned (st', tr) /\ (1, true) ∈ tr /\
                  List.filter (fun x => Nat.eqb (fst x) 2) tr = [(2, false)] /\
                  Hub.connection_info st' !! 2 = None /\
                  (forall conns', Hub.active_connections st' !! "monitoring" = Some conns' ->
                                  2 ∉ conns')) /\
  (exists st' tr, ApiHub.broadcast demo_sockets demo_event "alerts" 5 demo_api_hub
                  = Returned (st', tr) /\ (1, true) ∈ tr /\
                  List.filter (fun x => Nat.eqb (fst x) 2) tr = [(2, false)] /\
                  ApiHub.connection_info st' !! 2 = None /\
                  (forall conns', ApiHub.active_connections st' !! "alerts" = Some conns' ->
                                  2 ∉ conns')).
Proof.
  destruct (broadcast_send_failure_isolated demo_sockets demo_event "monitoring" 5 2 1
              OtherException ltac:(discriminate) eq_refl eq_refl) as [H1 _].
  destruct (broadcast_send_failure_isolated demo_sockets demo_event "alerts" 5 2 1
              OtherException ltac:(discriminate) eq_refl eq_refl) as [_ H2].
  split.
  - apply (H1 demo_hub demo_conns); [reflexivity|vm_compute; reflexivity
                                    |vm_compute; reflexivity|reflexivity|reflexivity].
  - apply (H2 demo_api_hub demo_conns); [reflexivity|vm_compute; reflexivity
                                        |vm_compute; reflexivity|reflexivity|reflexivity].
Defined.

(** C6 fails: the [connect] of services/websocket_manager.py sends as its
    acknowledgement a message of type ["connection_confirmed"], not
    ["connection_established"], and with no subscriber counts. *)
Lemma hub_connect_ack_is_connection_confirmed :
  exists msg rest,
    snd (Hub.connect demo_sockets 1 "alerts" 0 Hub.init) = (1, msg) :: rest /\
    jget "type" msg = Some (JStr "connection_confirmed") /\
    jget "type" msg <> Some (JStr "connection_established") /\
    jget "server_info" msg = None.
Proof.
  vm_compute. eexists _, _. split; [reflexivity|].
  split; [reflexivity|]. split; [discriminate|reflexivity].
Qed.

(** C6 (amended): the [connect] of api/websocket.py, used by the
    WebSocket endpoints, sends the new (open) subscriber as its first
    message a ["connection_established"] acknowledgement whose
    ["server_info"] holds the subscriber count of the channel and the
    total count, both taken after the subscriber was added; the
    [connect] of services/websocket_manager.py sends instead a single
    ["connection_confirmed"] message whose ["data"] holds the channel,
    the server time and a text, with no counts. *)
Theorem connect_acknowledgement (W : SocketEnv) (ws : nat) (ch : string) (now : Z) :
  client_connected W ws = true ->
  (forall (alerts_data : Outcome json) (st : ApiHub.HubState),
     let conns := {[ws]} ∪ default ∅ (ApiHub.active_connections st !! ch) in
     exists msg rest,
       snd (ApiHub.connect W alerts_data ws ch now st) = (ws, msg) :: rest /\
       jget "type" msg = Some (JStr "connection_established") /\
       (jget "server_info" msg ≫= jget "channel_connections")
         = Some (JNum (Z.of_nat (size conns))) /\
       (jget "server_info" msg ≫= jget "total_connections")
         = Some (JNum (Z.of_nat (ApiHub.total_connections
                                   (<[ch := conns]> (ApiHub.active_connections st)))))) /\
  (forall st : Hub.HubState,
     exists msg,
       snd (Hub.connect W ws ch now st) = [(ws, msg)] /\
       jget "type" msg = Some (JStr "connection_confirmed") /\
       jget "server_info" msg = None /\
       jget "data" msg = Some (JObj [("channel", JStr ch); ("server_time", iso now);
                                     ("message", JStr ("Connected to " ++ ch ++ " channel"))])).
Proof.
  intros Hc. split.
  - intros alerts_data st conns. unfold ApiHub.connect. fold conns.
    set (cid := ch ++ "_" ++ pretty (size conns)).
    set (act := <[ch := conns]> (ApiHub.active_connections st)).
    set (st1 := ApiHub.mkHub act _).
    pose proof (api_send_to_websocket_sent W ws (ApiHub.welcome_message ch now cid act)
                  now st1 Hc) as Hs.
    destruct (ApiHub.send_to_websocket W ws _ now st1) as [st2 sent1]. simpl in Hs. subst sent1.
    destruct (if String.eqb ch "alerts" then _ else _) as [st3 sent2].
    eexists _, sent2. split; [reflexivity|].
    unfold ApiHub.welcome_message. subst act. rewrite lookup_insert_eq.
    repeat split.
  - intros st. unfold Hub.connect.
    match goal with
    | |- context [Hub.send_personal_message W ?m ws now ?s] =>
        pose proof (hub_send_personal_message_sent W ws m now s Hc eq_refl) as Hs;
        destruct (Hub.send_personal_message W m ws now s) as [[ok st2] sent]
    end.
    simpl in Hs. subst sent. eexists. repeat split.
Qed.

Lemma connect_acknowledgement_witness :
  (exists msg rest,
     snd (ApiHub.connect demo_sockets (Returned JNull) 1 "alerts" 0 ApiHub.init)
       = (1, msg) :: rest /\
     jget "type" msg = Some (JStr "connection_established") /\
     (jget "server_info" msg ≫= jget "channel_connections") = Some (JNum 1) /\
     (jget "server_info" msg ≫= jget "total_connections") = Some (JNum 1)) /\
  (exists msg, snd (Hub.connect demo_sockets 1 "alerts" 0 Hub.init) = [(1, msg)] /\
     jget "type" msg = Some (JStr "connection_confirmed") /\
     jget "server_info" msg = None /\
     jget "data" msg = Some (JObj [("channel", JStr "alerts"); ("server_time", iso 0);
                                   ("message", JStr ("Connected to " ++ "alerts" ++ " channel"))])).
Proof.
  destruct (connect_acknowledgement demo_sockets 1 "alerts" 0 eq_refl) as [H1 H2].
  split; [|apply H2].
  exact (H1 (Returned JNull) ApiHub.init).
Defined.

(** C7: right after [cleanup_broken_connections] at clock [now], a
    subscriber whose last heartbeat is more than 300 seconds old is in
    neither the info registry nor any channel, and every subscriber still
    in the registry has a fresh heartbeat. *)
Theorem cleanup_evicts_stale (W : SocketEnv) (now : Z) (st : Hub.HubState) :
  let st' := Hub.cleanup_broken_connections W now st in
  (forall ws i, Hub.connection_info st !! ws = Some i -> Hub.is_stale now i = true ->
     Hub.connection_info st' !! ws = None /\
     forall ch conns, Hub.active_connections st' !! ch = Some conns -> ws ∉ conns) /\
  (forall ws i, Hub.connection_info st' !! ws = Some i -> Hub.is_stale now i = false).
Proof.
  simpl. unfold Hub.cleanup_broken_connections.
  assert (Hev : forall ws i, Hub.connection_info st !! ws = Some i ->
                  Hub.is_stale now i = true ->
                  HubFacts.gone ws (fold_left (fun s ws => Hub.disconnect ws s)
                                      (Hub.broken_connections W now st) st)).
  { intros ws i Hi Hs. apply HubFacts.fold_disconnect_gone.
    by eapply HubFacts.stale_is_broken. }
  split; [exact Hev|].
  intros ws i Hi. pose proof (HubFacts.fold_disconnect_info _ _ _ _ Hi) as H0.
  destruct (Hub.is_stale now i) eqn:Hs; [|done].
  destruct (Hev ws i H0 Hs) as [Hn _]. congruence.
Qed.

Lemma cleanup_evicts_stale_witness :
  let st' := Hub.cleanup_broken_connections demo_sockets 400000001 demo_hub in
  Hub.connection_info st' !! 1 = None /\
  (forall ch conns, Hub.active_connections st' !! ch = Some conns -> 1 ∉ conns).
Proof.
  destruct (cleanup_evicts_stale demo_sockets 400000001 demo_hub) as [H _].
  exact (H 1 (Hub.mkConnInfo "monitoring" 0 0 0 0) eq_refl eq_refl).
Defined.

Example cleanup_keeps_fresh :
  Hub.connection_info (Hub.cleanup_broken_connections demo_sockets 400000001 demo_hub) !! 2
  = Some (Hub.mkConnInfo "monitoring" 0 0 0 400000000).
Proof. vm_compute. reflexivity. Qed.

(** C9: for both hubs, [broadcast] on a channel that is not registered,
    or that has no subscriber, returns normally, sends nothing and
    leaves the state unchanged. *)
Theorem broadcast_empty_channel (W : SocketEnv) (message : json) (ch : string) (now : Z) :
  (forall st : Hub.HubState,
     Hub.active_connections st !! ch = None \/ Hub.active_connections st !! ch = Some ∅ ->
     Hub.broadcast W message ch now st = Returned (st, [])) /\
  (forall st : ApiHub.HubState,
     ApiHub.active_connections st !! ch = None \/ ApiHub.active_connections st !! ch = Some ∅ ->
     ApiHub.broadcast W message ch now st = Returned (st, [])).
Proof.
  split; intros st [H|H].
  - unfold Hub.broadcast. by rewrite H.
  - unfold Hub.broadcast. rewrite H. by rewrite elements_empty.
  - unfold ApiHub.broadcast. by rewrite H.
  - unfold ApiHub.broadcast. rewrite H. by rewrite elements_empty.
Qed.

Lemma broadcast_empty_channel_witness :
  Hub.broadcast demo_sockets demo_event "logs" 0 Hub.init = Returned (Hub.init, []) /\
  ApiHub.broadcast demo_sockets demo_event "nowhere" 0 ApiHub.init = Returned (ApiHub.init, []).
Proof.
  destruct (broadcast_empty_channel demo_sockets demo_event "logs" 0) as [H1 _].
  destruct (broadcast_empty_channel demo_sockets demo_event "nowhere" 0) as [_ H2].
  split; [apply H1; right; reflexivity|apply H2; left; reflexivity].
Defined.

End HubClaims.

(* ================================================================== *)
(** * More properties of the orchestrator *)

Module ManagerExtra.
Import ProtocolManager ManagerFacts.

(** Every entry of the running set names a valid type and its service:
    what [start_protocol] stores. *)
Definition well_formed (m : Manager) : Prop :=
  forall id info, running_protocols m !! id = Some info ->
    ProtocolType_of_value (ri_protocol_type info) = Some (ri_service info) /\
    ri_status info = "running".

Lemma ProtocolType_value_of_value (s : string) (t : ProtocolType) :
  ProtocolType_of_value s = Some t -> ProtocolType_value t = s.
Proof.
  unfold ProtocolType_of_value.
  repeat match goal with
  | |- context [String.eqb s ?v] => destruct (String.eqb_spec s v) as [->|_]
  end; intros H; try discriminate H; injection H as <-; reflexivity.
Qed.

Lemma start_protocol_other (E : ServiceEnv) (m : Manager) (id s : string)
    (cfg : Configuration) (now : Z) (x : string) :
  id ≠ x ->
  running_protocols (snd (start_protocol E m id s cfg now)) !! x = running_protocols m !! x /\
  db (snd (start_protocol E m id s cfg now)) !! x = db m !! x.
Proof.
  intros Hne. split; [|by apply ManagerFacts.start_protocol_db_other].
  destruct (start_protocol_cases E m id s cfg now) as [H|[H|[t [_ [_ [_ H]]]]]];
    rewrite H; simpl; [done|done|by rewrite lookup_insert_ne].
Qed.

Lemma stop_protocol_other (E : ServiceEnv) (m : Manager) (id x : string) :
  id ≠ x ->
  running_protocols (snd (stop_protocol E m id)) !! x = running_protocols m !! x /\
  db (snd (stop_protocol E m id)) !! x = db m !! x.
Proof.
  intros Hne. destruct (stop_protocol_cases E m id) as [H|[H|[i0 [_ [_ H]]]]];
    rewrite H; simpl; [done|done|].
  rewrite lookup_delete_ne by done. split; [done|]. by apply stored_other.
Qed.

Lemma start_protocol_wf (E : ServiceEnv) (m : Manager) (id s : string)
    (cfg : Configuration) (now : Z) :
  well_formed m -> well_formed (snd (start_protocol E m id s cfg now)).
Proof.
  intros Hwf. destruct (start_protocol_cases E m id s cfg now) as [H|[H|[t [_ [_ [_ H]]]]]];
    rewrite H; simpl; [done|done|].
  intros x info. simpl. destruct (decide (id = x)) as [->|Hne].
  - rewrite lookup_insert_eq. intros [= <-]. simpl. split; [|done].
    apply ManagerFacts.ProtocolType_of_value_value.
  - rewrite lookup_insert_ne by done. apply Hwf.
Qed.

Lemma stop_protocol_wf (E : ServiceEnv) (m : Manager) (id : string) :
  well_formed m -> well_formed (snd (stop_protocol E m id)).
Proof.
  intros Hwf. destruct (stop_protocol_cases E m id) as [H|[H|[i0 [_ [_ H]]]]];
    rewrite H; simpl; [done|done|].
  intros x info. simpl. destruct (decide (id = x)) as [->|Hne].
  - by rewrite lookup_delete_eq.
  - rewrite lookup_delete_ne by done. apply Hwf.
Qed.

Lemma restart_protocol_wf (E : ServiceEnv) (m : Manager) (id : string) (now : Z) :
  well_formed m -> well_formed (snd (restart_protocol E m id now)).
Proof.
  intros Hwf. unfold restart_protocol.
  destruct (running_protocols m !! id) as [info|]; [|done].
  destruct (stop_protocol E m id) as [b m1] eqn:Hs.
  apply start_protocol_wf. change m1 with (snd (b, m1)). rewrite <- Hs.
  by apply stop_protocol_wf.
Qed.

Lemma start_each_wf (E : ServiceEnv) (l : list (string * ProtocolDoc)) (now : Z)
    (m : Manager) (c : nat) :
  well_formed m -> well_formed (snd (start_each E l now m c)).
Proof.
  revert m c. induction l as [|[id p] rest IH]; intros m c Hwf; simpl; [done|].
  destruct (ProtocolStatus_eqb (doc_status p) CONNECTED); [|by apply IH].
  destruct (start_protocol E m id _ _ now) as [ok m1] eqn:Hs.
  apply IH. change m1 with (snd (ok, m1)). rewrite <- Hs. by apply start_protocol_wf.
Qed.

Lemma stop_each_wf (E : ServiceEnv) (l : list string) (m : Manager) (c : nat) :
  well_formed m -> well_formed (snd (stop_each E l m c)).
Proof.
  revert m c. induction l as [|id rest IH]; intros m c Hwf; simpl; [done|].
  destruct (stop_protocol E m id) as [ok m1] eqn:Hs.
  apply IH. change m1 with (snd (ok, m1)). rewrite <- Hs. by apply stop_protocol_wf.
Qed.

Lemma stop_each_other (E : ServiceEnv) (l : list string) (m : Manager) (c : nat) (x : string) :
  x ∉ l ->
  running_protocols (snd (stop_each E l m c)) !! x = running_protocols m !! x /\
  db (snd (stop_each E l m c)) !! x = db m !! x.
Proof.
  revert m c. induction l as [|id rest IH]; intros m c Hx; simpl; [done|].
  apply not_elem_of_cons in Hx as [Hne Hx].
  destruct (stop_protocol E m id) as [ok m1] eqn:Hs.
  destruct (IH m1 (if ok then S c else c) Hx) as [H1 H2]. rewrite H1, H2.
  change m1 with (snd (ok, m1)). rewrite <- Hs. apply stop_protocol_other. congruence.
Qed.

Lemma stop_each_none (E : ServiceEnv) (l : list string) (m : Manager) (c : nat) (x : string) :
  running_protocols m !! x = None -> running_protocols (snd (stop_each E l m c)) !! x = None.
Proof.
  revert m c. induction l as [|id rest IH]; intros m c Hx; simpl; [done|].
  destruct (stop_protocol E m id) as [ok m1] eqn:Hs. apply IH.
  destruct (stop_protocol_cases E m id) as [H|[H|[i0 [_ [_ H]]]]]; rewrite H in Hs;
    injection Hs as _ <-; [done|done|]. simpl. destruct (decide (id = x)) as [->|Hne].
  - apply lookup_delete_eq.
  - by rewrite lookup_delete_ne.
Qed.

(** What the loop of [stop_all_protocols] does for one running id. *)
Lemma stop_each_item (E : ServiceEnv) (l : list string) (m : Manager) (c : nat)
    (id : string) (info : RunningInfo) :
  NoDup l -> id ∈ l -> running_protocols m !! id = Some info ->
  (svc_stop E (ri_service info) id = Returned true ->
     running_protocols (snd (stop_each E l m c)) !! id = None /\
     db (snd (stop_each E l m c)) !! id =
       if store_raises E id DISCONNECTED then db m !! id
       else (fun p => with_status p DISCONNECTED) <$> db m !! id) /\
  (svc_stop E (ri_service info) id <> Returned true ->
     running_protocols (snd (stop_each E l m c)) !! id = Some info /\
     db (snd (stop_each E l m c)) !! id = db m !! id).
Proof.
  revert m c. induction l as [|id0 rest IH]; intros m c Hnd Hin Hr.
  { by apply not_elem_of_nil in Hin. }
  apply NoDup_cons in Hnd as [Hfresh Hnd]. simpl.
  destruct (stop_protocol E m id0) as [ok m1] eqn:Hs.
  apply elem_of_cons in Hin as [Heq|Hin].
  - subst id0. destruct (stop_each_other E rest m1 (if ok then S c else c) id Hfresh) as [H1 H2].
    rewrite H1, H2. split.
    + intros Hok. rewrite (stop_protocol_stopped E m id info Hr Hok) in Hs.
      injection Hs as _ <-. simpl.
      split; [apply lookup_delete_eq|]. apply stored_self.
    + intros Hko. unfold stop_protocol in Hs. rewrite Hr in Hs.
      destruct (svc_stop E (ri_service info) id) as [[]|];
        [done| |]; injection Hs as _ <-; done.
  - assert (Hne : id0 ≠ id) by (intros ->; contradiction).
    assert (Hr1 : running_protocols m1 !! id = Some info).
    { change m1 with (snd (ok, m1)). rewrite <- Hs.
      by rewrite (proj1 (stop_protocol_other E m id0 id Hne)). }
    assert (Hd1 : db m1 !! id = db m !! id).
    { change m1 with (snd (ok, m1)). rewrite <- Hs.
      by rewrite (proj2 (stop_protocol_other E m id0 id Hne)). }
    rewrite <- Hd1. by apply IH.
Qed.

(** ** Extra properties *)

(** X1: Starting an id that is not running (its service starting), then
    stopping it (its service stopping) gives back the running set of
    before and touches no other document, whatever the store does: the
    entry is stored before, and deleted before, the status writes. Each
    call returns [True] exactly when its status write does not raise;
    when neither write raises, the stored document of [id], if any, ends
    [DISCONNECTED]. *)
Theorem start_then_stop_round_trip (E : ServiceEnv) (m : Manager) (id : string)
    (t : ProtocolType) (cfg : Configuration) (now : Z) :
  running_protocols m !! id = None -> loadable E t = true ->
  svc_start E t id cfg = Returned true -> svc_stop E t id = Returned true ->
  let r1 := start_protocol E m id (ProtocolType_value t) cfg now in
  let r2 := stop_protocol E (snd r1) id in
  fst r1 = negb (store_raises E id CONNECTED) /\
  fst r2 = negb (store_raises E id DISCONNECTED) /\
  running_protocols (snd r2) = running_protocols m /\
  (forall x, x ≠ id -> db (snd r2) !! x = db m !! x) /\
  (store_raises E id CONNECTED = false -> store_raises E id DISCONNECTED = false ->
     db (snd r2) !! id = (fun p => with_status p DISCONNECTED) <$> db m !! id).
Proof.
  intros Hnone Hld Hst Hsp. simpl.
  rewrite (start_protocol_started E m id t cfg now Hld Hst). simpl.
  rewrite (stop_protocol_stopped E _ id (mkRunningInfo (ProtocolType_value t) t cfg now "running"));
    [|simpl; apply lookup_insert_eq|exact Hsp].
  simpl. split; [done|]. split; [done|]. split; [by apply delete_insert_id|]. split.
  - intros x Hx. rewrite stored_other by congruence.
    destruct (store_raises E id CONNECTED); [by apply stored_other|by apply set_status_other].
  - intros Hc Hd. rewrite Hc. unfold stored. rewrite Hd, !set_status_self.
    by destruct (db m !! id).
Qed.

Lemma start_then_stop_round_trip_witness :
  let m := mkManager ∅ demo_db in
  let r1 := start_protocol demo_env m "p1" (ProtocolType_value MODBUS_TCP) [] 0 in
  let r2 := stop_protocol demo_env (snd r1) "p1" in
  fst r1 = true /\ fst r2 = true /\
  running_protocols (snd r2) = running_protocols m /\
  db (snd r2) !! "p1" = Some (mkProtocolDoc MODBUS_TCP DISCONNECTED []).
Proof.
  destruct (start_then_stop_round_trip demo_env (mkManager ∅ demo_db) "p1" MODBUS_TCP [] 0)
    as [H1 [H2 [H3 [_ H5]]]]; [vm_compute; reflexivity|reflexivity|reflexivity|reflexivity|].
  split; [exact H1|]. split; [exact H2|]. split; [exact H3|].
  exact (H5 eq_refl eq_refl).
Defined.

(** X2: [start], [stop] and [restart] of [id] change neither the running
    entry nor the stored document of any other id. *)
Theorem operations_touch_only_their_id (E : ServiceEnv) (m : Manager) (id x s : string)
    (cfg : Configuration) (now : Z) :
  id ≠ x ->
  (running_protocols (snd (start_protocol E m id s cfg now)) !! x = running_protocols m !! x /\
   db (snd (start_protocol E m id s cfg now)) !! x = db m !! x) /\
  (running_protocols (snd (stop_protocol E m id)) !! x = running_protocols m !! x /\
   db (snd (stop_protocol E m id)) !! x = db m !! x) /\
  (running_protocols (snd (restart_protocol E m id now)) !! x = running_protocols m !! x /\
   db (snd (restart_protocol E m id now)) !! x = db m !! x).
Proof.
  intros Hne. split; [by apply start_protocol_other|].
  split; [by apply stop_protocol_other|].
  unfold restart_protocol. destruct (running_protocols m !! id) as [info|]; [|done].
  destruct (stop_protocol E m id) as [b m1] eqn:Hs.
  destruct (start_protocol_other E m1 id (ri_protocol_type info) (ri_configuration info)
              (now + restart_pause) x Hne) as [H1 H2].
  rewrite H1, H2. change m1 with (snd (b, m1)). rewrite <- Hs.
  by apply stop_protocol_other.
Qed.

Lemma operations_touch_only_their_id_witness :
  let m := snd (start_protocol ManagerFacts.demo_env (mkManager ∅ ManagerFacts.demo_db)
                  "p1" "modbus-tcp" [] 0) in
  (running_protocols (snd (start_protocol ManagerFacts.demo_env m "p3" "opc-ua" [] 1)) !! "p1"
     = running_protocols m !! "p1" /\
   db (snd (start_protocol ManagerFacts.demo_env m "p3" "opc-ua" [] 1)) !! "p1" = db m !! "p1") /\
  (running_protocols (snd (stop_protocol ManagerFacts.demo_env m "p3")) !! "p1"
     = running_protocols m !! "p1" /\
   db (snd (stop_protocol ManagerFacts.demo_env m "p3")) !! "p1" = db m !! "p1") /\
  (running_protocols (snd (restart_protocol ManagerFacts.demo_env m "p3" 1)) !! "p1"
     = running_protocols m !! "p1" /\
   db (snd (restart_protocol ManagerFacts.demo_env m "p3" 1)) !! "p1" = db m !! "p1").
Proof.
  apply (operations_touch_only_their_id ManagerFacts.demo_env _ "p3" "p1" "opc-ua" [] 1).
  discriminate.
Defined.

(** X3: [start] of an id that is already running calls its service again.
    When the service starts, the entry is replaced (new start time) and
    [start] returns [True] unless the [CONNECTED] write raises (it then
    returns [False], the new entry staying). When the service reports
    failure nothing changes. When it raises, [start] returns [False] and
    the id stays in the running set with its old entry (status
    ["running"]), while its stored document is marked [ERROR] if the
    store accepts that write. *)
Theorem start_already_running (E : ServiceEnv) (m : Manager) (id : string)
    (t : ProtocolType) (cfg : Configuration) (now : Z) (info : RunningInfo) :
  running_protocols m !! id = Some info -> loadable E t = true ->
  let r := start_protocol E m id (ProtocolType_value t) cfg now in
  (svc_start E t id cfg = Returned true ->
     fst r = negb (store_raises E id CONNECTED) /\
     running_protocols (snd r) !! id = Some (mkRunningInfo (ProtocolType_value t) t cfg now "running")) /\
  (svc_start E t id cfg = Returned false -> r = (false, m)) /\
  (forall e, svc_start E t id cfg = Raised e ->
     fst r = false /\ running_protocols (snd r) !! id = Some info /\
     get_protocol_status (snd r) id = "running" /\
     db (snd r) !! id =
       if store_raises E id ERROR then db m !! id
       else (fun p => with_status p ERROR) <$> db m !! id).
Proof.
  intros Hr Hld. simpl. split; [|split].
  - intros Hs. rewrite (start_protocol_started E m id t cfg now Hld Hs). simpl.
    split; [done|]. apply lookup_insert_eq.
  - intros Hs. unfold start_protocol, get_protocol_service.
    by rewrite ProtocolType_of_value_value, Hld, Hs.
  - intros e Hs. rewrite (start_protocol_raised E m id t cfg now e Hld Hs).
    unfold get_protocol_status. simpl. rewrite Hr.
    split; [done|]. split; [done|]. split; [done|]. apply stored_self.
Qed.

Lemma start_already_running_witness :
  let r := start_protocol ManagerFacts.demo_env
             (mkManager (<["p3" := mkRunningInfo "opc-ua" OPC_UA [] 0 "running"]> (∅ : gmap string RunningInfo))
                        ManagerFacts.demo_db) "p3" (ProtocolType_value OPC_UA) [] 5 in
  fst r = false /\
  running_protocols (snd r) !! "p3" = Some (mkRunningInfo "opc-ua" OPC_UA [] 0 "running") /\
  get_protocol_status (snd r) "p3" = "running" /\
  db (snd r) !! "p3" =
    (fun p => with_status p ERROR) <$> ManagerFacts.demo_db !! "p3".
Proof.
  pose proof (start_already_running ManagerFacts.demo_env
              (mkManager (<["p3" := mkRunningInfo "opc-ua" OPC_UA [] 0 "running"]> (∅ : gmap string RunningInfo))
                         ManagerFacts.demo_db) "p3" OPC_UA [] 5
              (mkRunningInfo "opc-ua" OPC_UA [] 0 "running")) as Hs.
  destruct Hs as [_ [_ H]]; [vm_compute; reflexivity|vm_compute; reflexivity|].
  exact (H OtherException eq_refl).
Defined.

(** X4: The manager keeps its running set well formed: every entry holds
    the value of a valid type and the service of that type, with status
    ["running"]. This holds with an empty running set and is kept by
    [start], [stop], [restart], [start_all_protocols] and
    [stop_all_protocols]. *)
Theorem well_formed_invariant (E : ServiceEnv) :
  (forall d, well_formed (mkManager ∅ d)) /\
  forall m, well_formed m ->
    (forall id s cfg now, well_formed (snd (start_protocol E m id s cfg now))) /\
    (forall id, well_formed (snd (stop_protocol E m id))) /\
    (forall id now, well_formed (snd (restart_protocol E m id now))) /\
    (forall now, well_formed (snd (start_all_protocols E m now))) /\
    (forall ids, well_formed (snd (stop_all_protocols E ids m))).
Proof.
  split.
  - intros d id info. simpl. by rewrite lookup_empty.
  - intros m Hwf. split; [intros; by apply start_protocol_wf|].
    split; [intros; by apply stop_protocol_wf|].
    split; [intros; by apply restart_protocol_wf|].
    split.
    + intros now. unfold start_all_protocols. destruct (find_all_raises E); [done|].
      destruct (start_each E (map_to_list (db m)) now m 0) as [n m'] eqn:Hse.
      change m' with (snd (n, m')). rewrite <- Hse. by apply start_each_wf.
    + intros ids. unfold stop_all_protocols.
      destruct (stop_each E ids m 0) as [n m'] eqn:Hse.
      change m' with (snd (n, m')). rewrite <- Hse. by apply stop_each_wf.
Qed.

Lemma well_formed_invariant_witness :
  well_formed (snd (restart_protocol ManagerFacts.demo_env
                      (snd (start_protocol ManagerFacts.demo_env ManagerFacts.empty_manager
                              "p1" "mqtt" [] 0)) "p1" 3)).
Proof.
  destruct (well_formed_invariant ManagerFacts.demo_env) as [H0 H].
  destruct (H ManagerFacts.empty_manager (H0 ∅)) as [Hstart _].
  destruct (H _ (Hstart "p1" "mqtt" [] 0%Z)) as [_ [_ [Hrestart _]]].
  apply Hrestart.
Defined.

(** X5: In a well-formed state, [restart] of a running id whose service
    starts again leaves the id running with the same type and
    configuration, started after the pause, whatever the stop did (a
    failed stop does not prevent the new start); it returns [True]
    exactly when the store accepts the [CONNECTED] write. *)
Theorem restart_keeps_type_and_configuration (E : ServiceEnv) (m : Manager) (id : string)
    (now : Z) (info : RunningInfo) :
  well_formed m -> running_protocols m !! id = Some info ->
  loadable E (ri_service info) = true ->
  svc_start E (ri_service info) id (ri_configuration info) = Returned true ->
  fst (restart_protocol E m id now) = negb (store_raises E id CONNECTED) /\
  running_protocols (snd (restart_protocol E m id now)) !! id =
    Some (mkRunningInfo (ri_protocol_type info) (ri_service info) (ri_configuration info)
                        (now + restart_pause) "running").
Proof.
  intros Hwf Hr Hld Hst. destruct (Hwf id info Hr) as [Hty _].
  unfold restart_protocol. rewrite Hr.
  destruct (stop_protocol E m id) as [b m1] eqn:Hs.
  rewrite <- (ProtocolType_value_of_value _ _ Hty).
  rewrite (start_protocol_started E m1 id (ri_service info) _ _ Hld Hst). simpl.
  split; [done|]. apply lookup_insert_eq.
Qed.

Lemma restart_keeps_type_and_configuration_witness :
  let m := mkManager (<["p4" := mkRunningInfo "mqtt" MQTT [] 0 "running"]> ∅) ∅ in
  fst (restart_protocol ManagerFacts.demo_env m "p4" 7) = true /\
  running_protocols (snd (restart_protocol ManagerFacts.demo_env m "p4" 7)) !! "p4" =
    Some (mkRunningInfo "mqtt" MQTT [] (7 + restart_pause) "running").
Proof.
  apply (restart_keeps_type_and_configuration ManagerFacts.demo_env
           (mkManager (<["p4" := mkRunningInfo "mqtt" MQTT [] 0 "running"]> ∅) ∅) "p4" 7
           (mkRunningInfo "mqtt" MQTT [] 0 "running")); [|reflexivity|reflexivity|reflexivity].
  intros x info. simpl. destruct (decide (x = "p4")) as [->|Hne].
  - rewrite lookup_insert_eq. intros [= <-]. split; reflexivity.
  - rewrite lookup_insert_ne by congruence. by rewrite lookup_empty.
Defined.

(** X6: [stop_all_protocols], for any order of the snapshot of the running
    ids, returns [True]; every running id whose service stops leaves the
    running set, its document being marked [DISCONNECTED] when the store
    accepts that write and left as it was when the write raises; every
    one whose service does not stop keeps its entry and document; when
    every service stops, the running set ends empty. *)
Theorem stop_all_protocols_outcome (E : ServiceEnv) (m : Manager) (ids : list string) :
  ids ≡ₚ elements (dom (running_protocols m)) ->
  let r := stop_all_protocols E ids m in
  fst r = true /\
  (forall id info, running_protocols m !! id = Some info ->
    (svc_stop E (ri_service info) id = Returned true ->
       running_protocols (snd r) !! id = None /\
       db (snd r) !! id =
         if store_raises E id DISCONNECTED then db m !! id
         else (fun p => with_status p DISCONNECTED) <$> db m !! id) /\
    (svc_stop E (ri_service info) id <> Returned true ->
       running_protocols (snd r) !! id = Some info /\ db (snd r) !! id = db m !! id)) /\
  ((forall id info, running_protocols m !! id = Some info ->
      svc_stop E (ri_service info) id = Returned true) ->
   running_protocols (snd r) = ∅).
Proof.
  intros Hp. simpl. unfold stop_all_protocols.
  assert (Hnd : NoDup ids) by (rewrite Hp; apply NoDup_elements).
  assert (Hin : forall x, x ∈ ids <-> x ∈ dom (running_protocols m))
    by (intros x; by rewrite Hp, elem_of_elements).
  destruct (stop_each E ids m 0) as [n m'] eqn:Hse.
  assert (Hitem : forall id info, running_protocols m !! id = Some info ->
    (svc_stop E (ri_service info) id = Returned true ->
       running_protocols m' !! id = None /\
       db m' !! id =
         if store_raises E id DISCONNECTED then db m !! id
         else (fun p => with_status p DISCONNECTED) <$> db m !! id) /\
    (svc_stop E (ri_service info) id <> Returned true ->
       running_protocols m' !! id = Some info /\ db m' !! id = db m !! id)).
  { intros id info Hr. change m' with (snd (n, m')). rewrite <- Hse.
    apply stop_each_item; [done| |done]. apply Hin, elem_of_dom. by exists info. }
  split; [done|]. split; [exact Hitem|].
  intros Hall. apply map_eq. intros x. rewrite lookup_empty.
  destruct (running_protocols m !! x) as [info|] eqn:Hx.
  - apply (Hitem x info Hx). by apply Hall.
  - change m' with (snd (n, m')). rewrite <- Hse. by apply stop_each_none.
Qed.

Lemma stop_all_protocols_outcome_witness :
  let m := snd (start_protocol ManagerFacts.demo_env
                  (snd (start_protocol ManagerFacts.demo_env ManagerFacts.empty_manager
                          "p1" "modbus-tcp" [] 0)) "p4" "mqtt" [] 0) in
  running_protocols (snd (stop_all_protocols ManagerFacts.demo_env ["p4"; "p1"] m)) !! "p1"
    = None /\
  running_protocols (snd (stop_all_protocols ManagerFacts.demo_env ["p4"; "p1"] m)) !! "p4"
    = Some (mkRunningInfo "mqtt" MQTT [] 0 "running").
Proof.
  destruct (stop_all_protocols_outcome ManagerFacts.demo_env
              (snd (start_protocol ManagerFacts.demo_env
                      (snd (start_protocol ManagerFacts.demo_env ManagerFacts.empty_manager
                              "p1" "modbus-tcp" [] 0)) "p4" "mqtt" [] 0)) ["p4"; "p1"])
    as [_ [H _]].
  { vm_compute. first [reflexivity | apply perm_swap]. }
  split.
  - apply (proj1 (H "p1" (mkRunningInfo "modbus-tcp" MODBUS_TCP [] 0 "running") eq_refl)).
    reflexivity.
  - apply (proj2 (H "p4" (mkRunningInfo "mqtt" MQTT [] 0 "running") eq_refl)).
    discriminate.
Defined.

End ManagerExtra.

Module ServicesExtra.
Import ProtocolServices.

(** Every registered service sits under the value of its own type and
    was constructed before the current count. *)
Definition registry_ok (r : Registry) : Prop :=
  forall k s, PROTOCOL_SERVICES r !! k = Some s ->
    k = ProtocolType_value (service_type s) /\ service_serial s < constructed r.

Lemma get_protocol_service_grows (importable : ProtocolType -> bool) (t : ProtocolType)
    (r : Registry) :
  constructed r <= constructed (snd (get_protocol_service importable t r)) /\
  forall k s, PROTOCOL_SERVICES r !! k = Some s ->
    PROTOCOL_SERVICES (snd (get_protocol_service importable t r)) !! k = Some s.
Proof.
  unfold get_protocol_service, load_protocol_service. simpl.
  destruct (PROTOCOL_SERVICES r !! ProtocolType_value t) as [s0|] eqn:Hk; simpl; [split; auto|].
  destruct (importable t); simpl; [|split; auto].
  split; [lia|]. intros k s Hs. destruct (decide (k = ProtocolType_value t)) as [->|Hne].
  - congruence.
  - by rewrite lookup_insert_ne by congruence.
Qed.

Lemma get_protocol_service_ok (importable : ProtocolType -> bool) (t : ProtocolType)
    (r : Registry) :
  registry_ok r -> registry_ok (snd (get_protocol_service importable t r)).
Proof.
  intros Hok. unfold get_protocol_service, load_protocol_service. simpl.
  destruct (PROTOCOL_SERVICES r !! ProtocolType_value t) as [s0|] eqn:Hk; simpl; [done|].
  destruct (importable t); simpl; [|done].
  intros k s Hs. simpl in Hs |- *. destruct (decide (k = ProtocolType_value t)) as [->|Hne].
  - rewrite lookup_insert_eq in Hs. injection Hs as <-. simpl. split; [done|lia].
  - rewrite lookup_insert_ne in Hs by congruence. destruct (Hok k s Hs). split; [done|lia].
Qed.

Lemma stop_services_le (stop_monitoring : Service -> Outcome unit) (l : list string)
    (services : gmap string Service) (c : nat) :
  stop_services stop_monitoring l services c <= c + length l.
Proof.
  revert c. induction l as [|k l IH]; intros c; simpl; [lia|].
  destruct (services !! k) as [s|]; [destruct (stop_monitoring s)|].
  - specialize (IH (S c)). lia.
  - specialize (IH c). lia.
  - specialize (IH c). lia.
Qed.

(** X7: [get_protocol_service] caches: a second call for the same type
    returns the same result and leaves the registry as the first call
    left it; a call never drops nor replaces a registered service, never
    lowers the construction count, and in a consistent registry returns
    only a service of the requested type. *)
Theorem get_protocol_service_cached (importable : ProtocolType -> bool) (t : ProtocolType)
    (r : Registry) :
  let res := get_protocol_service importable t r in
  get_protocol_service importable t (snd res) = res /\
  constructed r <= constructed (snd res) /\
  (forall k s, PROTOCOL_SERVICES r !! k = Some s -> PROTOCOL_SERVICES (snd res) !! k = Some s) /\
  (registry_ok r -> registry_ok (snd res) /\
     forall s, fst res = Some s -> service_type s = t).
Proof.
  simpl. split.
  - unfold get_protocol_service, load_protocol_service. simpl.
    destruct (PROTOCOL_SERVICES r !! ProtocolType_value t) as [s0|] eqn:Hk; simpl.
    + rewrite Hk. simpl. rewrite ?Hk. reflexivity.
    + destruct (importable t) eqn:Hi; simpl.
      * rewrite lookup_insert_eq. simpl. rewrite ?lookup_insert_eq. reflexivity.
      * rewrite Hk. simpl. rewrite ?Hi, ?Hk. reflexivity.
  - destruct (get_protocol_service_grows importable t r) as [H1 H2].
    split; [done|]. split; [done|].
    intros Hok. pose proof (get_protocol_service_ok importable t r Hok) as Hok'.
    split; [done|]. intros s Hs.
    assert (Hk : PROTOCOL_SERVICES (snd (get_protocol_service importable t r))
                   !! ProtocolType_value t = Some s)
      by (rewrite <- Hs; unfold get_protocol_service; simpl; reflexivity).
    destruct (Hok' _ _ Hk) as [Hv _].
    pose proof (ManagerFacts.ProtocolType_of_value_value t) as Ht.
    rewrite Hv, ManagerFacts.ProtocolType_of_value_value in Ht. congruence.
Qed.
Lemma get_protocol_service_cached_witness :
  let res := get_protocol_service (fun _ => true) MQTT (mkRegistry ∅ 0) in
  get_protocol_service (fun _ => true) MQTT (snd res) = res /\
  constructed (mkRegistry ∅ 0) <= constructed (snd res) /\
  (forall k s, PROTOCOL_SERVICES (mkRegistry ∅ 0) !! k = Some s ->
     PROTOCOL_SERVICES (snd res) !! k = Some s) /\
  (registry_ok (mkRegistry ∅ 0) -> registry_ok (snd res) /\
     forall s, fst res = Some s -> service_type s = MQTT).
Proof.
  apply (get_protocol_service_cached (fun _ => true) MQTT (mkRegistry ∅ 0)).
Defined.

(** X8: [stop_all_protocol_services] empties the registry and counts at
    most one stop per listed type; a later [get_protocol_service] of a
    type whose class can be built constructs a new service object of
    that type, different from every one the registry held before. *)
Theorem stop_all_then_get_constructs_anew (importable : ProtocolType -> bool)
    (stop_monitoring : Service -> Outcome unit) (protocol_types : list string)
    (r : Registry) (t : ProtocolType) :
  registry_ok r -> importable t = true ->
  let r1 := stop_all_protocol_services stop_monitoring protocol_types r in
  let res := get_protocol_service importable t (snd r1) in
  fst r1 <= length protocol_types /\
  PROTOCOL_SERVICES (snd r1) = ∅ /\ registry_ok (snd r1) /\
  exists s, fst res = Some s /\ service_type s = t /\
    forall k s', PROTOCOL_SERVICES r !! k = Some s' -> s <> s'.
Proof.
  intros Hok Hi. simpl. split; [apply stop_services_le|].
  split; [done|]. split; [intros k s; simpl; by rewrite lookup_empty|].
  exists (mkService t (constructed r)).
  unfold get_protocol_service, load_protocol_service. simpl.
  rewrite lookup_empty, Hi. simpl. rewrite lookup_insert_eq.
  split; [done|]. split; [done|].
  intros k s' Hs' Heq. subst s'. destruct (Hok k _ Hs') as [_ Hlt]. simpl in Hlt. lia.
Qed.

Lemma stop_all_then_get_constructs_anew_witness :
  let r := snd (get_protocol_service (fun _ => true) MQTT (mkRegistry ∅ 0)) in
  let r1 := stop_all_protocol_services (fun _ => Returned tt) ["mqtt"] r in
  let res := get_protocol_service (fun _ => true) MQTT (snd r1) in
  fst r1 <= length ["mqtt"] /\
  PROTOCOL_SERVICES (snd r1) = ∅ /\ registry_ok (snd r1) /\
  exists s, fst res = Some s /\ service_type s = MQTT /\
    forall k s', PROTOCOL_SERVICES r !! k = Some s' -> s <> s'.
Proof.
  apply (stop_all_then_get_constructs_anew (fun _ => true) (fun _ => Returned tt) ["mqtt"]
           (snd (get_protocol_service (fun _ => true) MQTT (mkRegistry ∅ 0))) MQTT);
    [|reflexivity].
  apply get_protocol_service_ok. intros k s. simpl. by rewrite lookup_empty.
Defined.

End ServicesExtra.

Module ModbusExtra.
Import ModbusService.

(** The consistency a [ModbusTcpService] object keeps: the ids with a
    master are the ids with a connection, and monitoring runs (flag set,
    task live) exactly when some connection is active. *)
Definition modbus_ok (s : ModbusState) : Prop :=
  masters s = active_connections s /\
  (is_running s = true <-> monitoring_task s = Some false) /\
  (is_running s = true <-> active_connections s ≠ ∅).

(** X9: [start_protocol] returns [True] exactly when the Modbus library is
    available and the connection test passes; when it returns [False]
    the service is unchanged; when it returns [True] the id is added to
    the masters and to the active connections (nothing else is added)
    and a live monitoring task is present. *)
Theorem modbus_start_protocol_outcome (M : ModbusEnv) (id : string) (cfg : Configuration)
    (s : ModbusState) :
  let r := start_protocol M id cfg s in
  (fst r = true <-> MODBUS_AVAILABLE M = true /\ connection_test M cfg = true) /\
  (fst r = false -> snd r = s) /\
  (fst r = true ->
     masters (snd r) = {[id]} ∪ masters s /\
     active_connections (snd r) = {[id]} ∪ active_connections s /\
     monitoring_task (snd r) = Some false).
Proof.
  simpl. unfold start_protocol.
  destruct (MODBUS_AVAILABLE M); simpl; [|split; [split; [discriminate|intros [? _]; discriminate]|split; [done|discriminate]]].
  destruct (connection_test M cfg); simpl.
  - split; [split; [intros _; split; reflexivity|intros _; reflexivity]|].
    split; [discriminate|]. intros _.
    unfold start_monitoring. simpl.
    destruct (monitoring_task s) as [[|]|]; simpl; auto.
  - split; [split; [discriminate|intros [_ ?]; discriminate]|]. split; [done|discriminate].
Qed.

Lemma modbus_start_protocol_outcome_witness :
  masters (snd (start_protocol (mkModbusEnv true (fun _ => true) (fun _ => false)) "p1" []
                  (mkModbus ∅ ∅ false None))) = {[ "p1" ]} ∪ ∅.
Proof.
  destruct (modbus_start_protocol_outcome (mkModbusEnv true (fun _ => true) (fun _ => false))
              "p1" [] (mkModbus ∅ ∅ false None)) as [_ [_ H]].
  apply H. reflexivity.
Defined.

(** X10: [stop_protocol]: when the id has no master or closing its master
    does not raise, it returns [True] and the id leaves the masters and
    the active connections; if no connection remains, monitoring is
    stopped (flag cleared, no live task), otherwise the monitoring state
    is kept. When closing the master raises, it returns [False] and
    nothing changes. *)
Theorem modbus_stop_protocol_outcome (M : ModbusEnv) (id : string) (s : ModbusState) :
  let r := stop_protocol M id s in
  (close_raises M id = false \/ id ∉ masters s ->
     fst r = true /\
     masters (snd r) = masters s ∖ {[id]} /\
     active_connections (snd r) = active_connections s ∖ {[id]} /\
     (active_connections s ∖ {[id]} = ∅ ->
        is_running (snd r) = false /\ monitoring_task (snd r) <> Some false) /\
     (active_connections s ∖ {[id]} ≠ ∅ ->
        is_running (snd r) = is_running s /\ monitoring_task (snd r) = monitoring_task s)) /\
  (close_raises M id = true -> id ∈ masters s -> r = (false, s)).
Proof.
  simpl. unfold stop_protocol. split.
  - intros Hc.
    assert (Hb : bool_decide (id ∈ masters s) && close_raises M id = false).
    { destruct Hc as [Hc|Hc]; [rewrite Hc; apply andb_false_r|].
      rewrite bool_decide_false by done. done. }
    rewrite Hb. simpl.
    destruct (bool_decide (active_connections s ∖ {[id]} = ∅)) eqn:He; simpl.
    + apply bool_decide_eq_true in He.
      split; [done|]. split; [done|]. split; [done|]. split.
      * intros _. split; [done|]. destruct (monitoring_task s) as [[|]|]; discriminate.
      * intros Hne. contradiction.
    + apply bool_decide_eq_false in He.
      split; [done|]. split; [done|]. split; [done|]. split; [intros; contradiction|done].
  - intros Hc Hin. rewrite bool_decide_true by done. by rewrite Hc.
Qed.

Lemma modbus_stop_protocol_outcome_witness :
  (let r := stop_protocol (mkModbusEnv true (fun _ => true) (fun _ => false)) "p1"
              (mkModbus {[ "p1" ]} {[ "p1" ]} true (Some false)) in
   is_running (snd r) = false /\ monitoring_task (snd r) <> Some false) /\
  stop_protocol (mkModbusEnv true (fun _ => true) (fun _ => true)) "p1"
    (mkModbus {[ "p1" ]} {[ "p1" ]} true (Some false)) =
  (false, mkModbus {[ "p1" ]} {[ "p1" ]} true (Some false)).
Proof.
  split.
  - destruct (modbus_stop_protocol_outcome (mkModbusEnv true (fun _ => true) (fun _ => false)) "p1"
                (mkModbus {[ "p1" ]} {[ "p1" ]} true (Some false))) as [H _].
    destruct H as [_ [_ [_ [H _]]]]; [left; reflexivity|].
    apply H. simpl. set_solver.
  - apply (modbus_stop_protocol_outcome (mkModbusEnv true (fun _ => true) (fun _ => true)) "p1"
             (mkModbus {[ "p1" ]} {[ "p1" ]} true (Some false))); [reflexivity|].
    simpl. set_solver.
Defined.

(** X11: The consistency holds for a new service object ([__init__]) and is
    kept by [start_protocol] and [stop_protocol], whatever the library
    and the devices do. So in any reachable state, [is_running] and a
    live monitoring task go together, and hold exactly while some
    connection is active. *)
Theorem modbus_ok_invariant (M : ModbusEnv) :
  modbus_ok (mkModbus ∅ ∅ false None) /\
  forall s, modbus_ok s ->
    (forall id cfg, modbus_ok (snd (start_protocol M id cfg s))) /\
    (forall id, modbus_ok (snd (stop_protocol M id s))).
Proof.
  split.
  { unfold modbus_ok. simpl. split; [done|]. split; split; (discriminate || done). }
  intros s (Hma & Hrun & Hact). split.
  - intros id cfg. unfold start_protocol.
    destruct (MODBUS_AVAILABLE M); simpl; [|by split].
    destruct (connection_test M cfg); simpl; [|by split].
    unfold start_monitoring. simpl.
    destruct (monitoring_task s) as [[|]|] eqn:Ht; simpl.
    + split; [by rewrite Hma|]. split; [done|]. split; [intros _; set_solver|done].
    + assert (Hr : is_running s = true) by (apply Hrun; reflexivity). rewrite Hr.
      split; [by rewrite Hma|]. split; [done|]. split; [intros _; set_solver|done].
    + split; [by rewrite Hma|]. split; [done|]. split; [intros _; set_solver|done].
  - intros id. unfold stop_protocol.
    destruct (bool_decide (id ∈ masters s) && close_raises M id); simpl; [by split|].
    destruct (bool_decide (active_connections s ∖ {[id]} = ∅)) eqn:He; simpl.
    + apply bool_decide_eq_true in He. unfold modbus_ok. simpl.
      split; [by rewrite Hma|]. split.
      * split; [discriminate|]. destruct (monitoring_task s) as [[|]|]; discriminate.
      * split; [discriminate|]. intros Hne. contradiction.
    + apply bool_decide_eq_false in He. unfold modbus_ok. simpl.
      assert (Hr : is_running s = true).
      { apply Hact. intros He'. apply He. rewrite He'. set_solver. }
      split; [by rewrite Hma|]. split; [done|]. split; [intros _; done|done].
Qed.

Lemma modbus_ok_invariant_witness :
  modbus_ok (snd (stop_protocol (mkModbusEnv true (fun _ => true) (fun _ => false)) "p1"
    (snd (start_protocol (mkModbusEnv true (fun _ => true) (fun _ => false)) "p1" []
       (mkModbus ∅ ∅ false None))))).
Proof.
  destruct (modbus_ok_invariant (mkModbusEnv true (fun _ => true) (fun _ => false))) as [H0 H].
  apply (H _ (proj1 (H _ H0) "p1" [])).
Defined.

End ModbusExtra.

Module HubExtra.
Import Hub.

(** The set of a channel, the empty set for a channel that has none. *)
Definition members (st : HubState) (k : string) : gset nat :=
  default ∅ (active_connections st !! k).

(** [st'] only lost sockets: same channels, smaller sets, fewer infos. *)
Definition shrinks (st st' : HubState) : Prop :=
  dom (active_connections st') = dom (active_connections st) /\
  (forall k, members st' k ⊆ members st k) /\
  dom (connection_info st') ⊆ dom (connection_info st).

Lemma shrinks_refl (st : HubState) : shrinks st st.
Proof. split; [done|]. split; [intros k; set_solver|set_solver]. Qed.

Lemma shrinks_trans (st1 st2 st3 : HubState) :
  shrinks st1 st2 -> shrinks st2 st3 -> shrinks st1 st3.
Proof.
  intros (H1 & H2 & H3) (H4 & H5 & H6). split; [congruence|]. split.
  - intros k. specialize (H2 k). specialize (H5 k). set_solver.
  - set_solver.
Qed.

Lemma shrinks_absent (st st' : HubState) (x : nat) :
  shrinks st st' ->
  (forall k, x ∉ members st k -> x ∉ members st' k) /\
  (connection_info st !! x = None -> connection_info st' !! x = None).
Proof.
  intros (_ & Hm & Hi). split.
  - intros k Hx. specialize (Hm k). set_solver.
  - intros Hx. apply not_elem_of_dom. apply not_elem_of_dom in Hx. set_solver.
Qed.

Lemma disconnect_members (ws : nat) (st : HubState) (k : string) :
  members (disconnect ws st) k = members st k ∖ {[ws]}.
Proof.
  unfold members, disconnect. simpl. rewrite lookup_fmap.
  destruct (active_connections st !! k); simpl; set_solver.
Qed.

Lemma disconnect_shrinks (ws : nat) (st : HubState) : shrinks st (disconnect ws st).
Proof.
  split; [simpl; apply dom_fmap_L|]. split.
  - intros k. rewrite disconnect_members. set_solver.
  - simpl. rewrite dom_delete_L. set_solver.
Qed.

Lemma remove_members (ch : string) (x : nat) (st : HubState) (k : string) :
  members (mkHub (alter (fun conns : gset nat => conns ∖ {[x]}) ch (active_connections st))
                 (delete x (connection_info st))) k =
  if decide (k = ch) then members st k ∖ {[x]} else members st k.
Proof.
  unfold members. simpl. destruct (decide (k = ch)) as [->|Hne].
  - rewrite lookup_alter_eq. destruct (active_connections st !! ch); simpl; set_solver.
  - by rewrite lookup_alter_ne by congruence.
Qed.

Lemma step_shrinks (W : SocketEnv) (ch : string) (message : json) (c : nat)
    (st : HubState) (tr : SendTrace) :
  shrinks st (fst (broadcast_step W ch message c (st, tr))).
Proof.
  unfold broadcast_step, try_except. destruct (client_connected W c).
  - destruct (send_text W c message); simpl; [|apply disconnect_shrinks].
    split; [done|]. split; [intros k; unfold members; simpl; set_solver|].
    simpl. rewrite dom_alter_L. set_solver.
  - cbn -[members]. split; [simpl; apply dom_alter_L|]. split.
    + intros k. rewrite remove_members. case_decide; set_solver.
    + simpl. rewrite dom_delete_L. set_solver.
Qed.

Lemma step_other (W : SocketEnv) (ch : string) (message : json) (c : nat)
    (st : HubState) (tr : SendTrace) (x : nat) :
  x ≠ c ->
  connection_info (fst (broadcast_step W ch message c (st, tr))) !! x = connection_info st !! x /\
  (forall k, x ∈ members (fst (broadcast_step W ch message c (st, tr))) k <-> x ∈ members st k).
Proof.
  intros Hne. unfold broadcast_step, try_except. destruct (client_connected W c).
  - destruct (send_text W c message); cbn -[members disconnect].
    + split; [by rewrite lookup_alter_ne by congruence|done].
    + split; [cbn; by rewrite lookup_delete_ne by congruence|].
      intros k. rewrite disconnect_members. set_solver.
  - cbn -[members]. split; [by rewrite lookup_delete_ne by congruence|].
    intros k. rewrite remove_members. case_decide; set_solver.
Qed.

Lemma loop_shrinks (W : SocketEnv) (ch : string) (message : json) (l : list nat)
    (st : HubState) (tr : SendTrace) :
  shrinks st (fst (broadcast_loop W ch message l (st, tr))).
Proof.
  revert st tr. induction l as [|c rest IH]; intros st tr; cbn [broadcast_loop];
    [apply shrinks_refl|].
  destruct (broadcast_step W ch message c (st, tr)) as [st1 tr1] eqn:Hs.
  apply shrinks_trans with st1; [|apply IH].
  change st1 with (fst (st1, tr1)). rewrite <- Hs. apply step_shrinks.
Qed.

Lemma loop_other (W : SocketEnv) (ch : string) (message : json) (l : list nat)
    (st : HubState) (tr : SendTrace) (x : nat) :
  x ∉ l ->
  connection_info (fst (broadcast_loop W ch message l (st, tr))) !! x = connection_info st !! x /\
  (forall k, x ∈ members (fst (broadcast_loop W ch message l (st, tr))) k <-> x ∈ members st k).
Proof.
  revert st tr. induction l as [|c rest IH]; intros st tr Hx; cbn [broadcast_loop]; [done|].
  apply not_elem_of_cons in Hx as [Hne Hx].
  destruct (broadcast_step W ch message c (st, tr)) as [st1 tr1] eqn:Hs.
  destruct (step_other W ch message c st tr x Hne) as [Hi Hm]. rewrite Hs in Hi, Hm. simpl in Hi, Hm.
  destruct (IH st1 tr1 Hx) as [Hi' Hm']. split; [congruence|].
  intros k. rewrite Hm'. apply Hm.
Qed.

Lemma loop_success (W : SocketEnv) (ch : string) (message : json) (l : list nat)
    (st : HubState) (tr : SendTrace) (b : nat) :
  NoDup l -> b ∈ l -> client_connected W b = true -> send_text W b message = Returned tt ->
  connection_info (fst (broadcast_loop W ch message l (st, tr))) !! b =
    bump_sent <$> connection_info st !! b /\
  (forall k, b ∈ members (fst (broadcast_loop W ch message l (st, tr))) k <-> b ∈ members st k).
Proof.
  revert st tr. induction l as [|c rest IH]; intros st tr Hnd Hin Hc Hs.
  { by apply not_elem_of_nil in Hin. }
  apply NoDup_cons in Hnd as [Hnin Hnd]. cbn [broadcast_loop].
  destruct (decide (b = c)) as [Heq|Hne].
  - subst c. destruct (loop_other W ch message rest
                         (fst (broadcast_step W ch message b (st, tr)))
                         (snd (broadcast_step W ch message b (st, tr))) b Hnin) as [Hi Hm].
    rewrite <- surjective_pairing in Hi, Hm. rewrite Hi. split.
    + unfold broadcast_step, try_except. rewrite Hc, Hs. simpl. apply lookup_alter_eq.
    + intros k. rewrite Hm. unfold broadcast_step, try_except. rewrite Hc, Hs. done.
  - apply elem_of_cons in Hin as [Hin|Hin]; [contradiction|].
    destruct (step_other W ch message c st tr b Hne) as [Hi Hm].
    rewrite (surjective_pairing (broadcast_step W ch message c (st, tr))).
    destruct (IH (fst (broadcast_step W ch message c (st, tr)))
                 (snd (broadcast_step W ch message c (st, tr))) Hnd Hin Hc Hs) as [Hi' Hm'].
    rewrite Hi', Hi. split; [done|]. intros k. rewrite Hm'. apply Hm.
Qed.

Lemma loop_closed (W : SocketEnv) (ch : string) (message : json) (l : list nat)
    (st : HubState) (tr : SendTrace) (c : nat) :
  c ∈ l -> client_connected W c = false ->
  (c ∉ members (fst (broadcast_loop W ch message l (st, tr))) ch) /\
  connection_info (fst (broadcast_loop W ch message l (st, tr))) !! c = None.
Proof.
  revert st tr. induction l as [|c0 rest IH]; intros st tr Hin Hc.
  { by apply not_elem_of_nil in Hin. }
  cbn [broadcast_loop]. rewrite (surjective_pairing (broadcast_step W ch message c0 (st, tr))).
  destruct (decide (c = c0)) as [->|Hne].
  - pose proof (loop_shrinks W ch message rest (fst (broadcast_step W ch message c0 (st, tr)))
                  (snd (broadcast_step W ch message c0 (st, tr)))) as Hsh.
    apply shrinks_absent with (x := c0) in Hsh as [Hm Hi].
    unfold broadcast_step, try_except in Hm, Hi |- *. rewrite Hc in Hm, Hi |- *.
    cbn -[members] in Hm, Hi |- *.
    split.
    + apply Hm. rewrite remove_members. rewrite decide_True by done. set_solver.
    + apply Hi. apply lookup_delete_eq.
  - apply elem_of_cons in Hin as [Hin|Hin]; [contradiction|]. by apply IH.
Qed.
(** X12: [broadcast] of services/websocket_manager.py only removes sockets:
    the channels stay, each set and the info map only lose entries;
    sockets outside the channel are not touched; a subscriber that is
    not connected leaves the channel and the info map; a subscriber whose
    send succeeds stays in every channel it was in and has its
    [messages_sent] counted once. *)
Theorem hub_broadcast_effect (W : SocketEnv) (message : json) (ch : string) (now : Z)
    (st st' : HubState) (tr : SendTrace) :
  broadcast W message ch now st = Returned (st', tr) ->
  shrinks st st' /\
  (forall x, x ∉ members st ch ->
     connection_info st' !! x = connection_info st !! x /\
     forall k, x ∈ members st' k <-> x ∈ members st k) /\
  (forall c, c ∈ members st ch -> client_connected W c = false ->
     (c ∉ members st' ch) /\ connection_info st' !! c = None) /\
  (forall b, b ∈ members st ch -> client_connected W b = true ->
     send_text W b (stamp_message now message) = Returned tt ->
     connection_info st' !! b = bump_sent <$> connection_info st !! b /\
     forall k, b ∈ members st' k <-> b ∈ members st k).
Proof.
  unfold broadcast. destruct (active_connections st !! ch) as [conns|] eqn:Hc.
  - intros [= Heq].
    assert (Hst : st' = fst (broadcast_loop W ch (stamp_message now message) (elements conns) (st, [])))
      by (by rewrite Heq). subst st'.
    assert (Hm : members st ch = conns) by (unfold members; by rewrite Hc). rewrite Hm.
    split; [apply loop_shrinks|]. split; [|split].
    + intros x Hx. apply loop_other. by rewrite elem_of_elements.
    + intros c Hin Hcl. apply loop_closed; [by rewrite elem_of_elements|done].
    + intros b Hin Hcb Hs. apply loop_success; [apply NoDup_elements|by rewrite elem_of_elements|done|done].
  - intros [= <- <-].
    assert (Hm : members st ch = ∅) by (unfold members; by rewrite Hc). rewrite Hm.
    split; [apply shrinks_refl|]. split; [done|]. split; intros c Hin; set_solver.
Qed.

Lemma hub_broadcast_effect_witness :
  let r := broadcast HubClaims.demo_sockets HubClaims.demo_event "monitoring" 0 HubClaims.demo_hub in
  exists st' tr, r = Returned (st', tr) /\ shrinks HubClaims.demo_hub st' /\
    connection_info st' !! 1 = bump_sent <$> connection_info HubClaims.demo_hub !! 1.
Proof.
  destruct (broadcast HubClaims.demo_sockets HubClaims.demo_event "monitoring" 0 HubClaims.demo_hub)
    as [[st' tr]|e] eqn:Hb; [|discriminate].
  destruct (hub_broadcast_effect HubClaims.demo_sockets HubClaims.demo_event "monitoring" 0
              HubClaims.demo_hub st' tr Hb) as [Hsh [_ [_ Hok]]].
  exists st', tr. split; [done|]. split; [done|].
  apply (Hok 1); [vm_compute; set_solver|reflexivity|reflexivity].
Defined.

Lemma jget_jset_eq (k : string) (v : json) (fs : list (string * json)) :
  jget k (jset k v (JObj fs)) = Some v.
Proof.
  unfold jset. destruct (List.existsb (fun kv => String.eqb (fst kv) k) fs) eqn:He; simpl.
  - induction fs as [|[k' v'] rest IH]; simpl in *; [discriminate|].
    destruct (String.eqb k' k) eqn:Hk; simpl; [by rewrite String.eqb_refl|].
    rewrite Hk. by apply IH.
  - induction fs as [|[k' v'] rest IH]; simpl in *; [by rewrite String.eqb_refl|].
    apply orb_false_iff in He as [Hk He]. rewrite Hk. by apply IH.
Qed.

Lemma fold_disconnect_other (l : list nat) (x : nat) (st : HubState) :
  x ∉ l ->
  connection_info (fold_left (fun s ws => disconnect ws s) l st) !! x = connection_info st !! x /\
  (forall k, x ∈ members (fold_left (fun s ws => disconnect ws s) l st) k <-> x ∈ members st k).
Proof.
  revert st. induction l as [|c rest IH]; intros st Hx; simpl; [done|].
  apply not_elem_of_cons in Hx as [Hne Hx]. destruct (IH (disconnect c st) Hx) as [Hi Hm].
  rewrite Hi. split; [simpl; by rewrite lookup_delete_ne by congruence|].
  intros k. rewrite Hm, disconnect_members. set_solver.
Qed.

(** X13: [send_personal_message] of a dictionary: it returns [True] exactly
    when the socket is connected and its send succeeds. At most one
    message is sent, to that socket, and it carries a ["timestamp"]: the
    message's own if it had one, the current time otherwise. On [True]
    the socket's memberships are kept and its [messages_sent] counted
    once, no other info changes; on [False] the socket is disconnected. *)
Theorem send_personal_message_outcome (W : SocketEnv) (fs : list (string * json)) (ws : nat)
    (now : Z) (st : HubState) (ok : bool) (st' : HubState) (sent : list (nat * json)) :
  send_personal_message W (JObj fs) ws now st = (ok, st', sent) ->
  (forall c m, (c, m) ∈ sent ->
     c = ws /\ jget "timestamp" m = Some (default (iso now) (jget "timestamp" (JObj fs)))) /\
  length sent <= 1 /\
  (ok = true <-> client_connected W ws = true /\ exists m, (ws, m) ∈ sent /\ send_text W ws m = Returned tt) /\
  (ok = false -> st' = disconnect ws st) /\
  (ok = true ->
     active_connections st' = active_connections st /\
     connection_info st' !! ws = bump_sent <$> connection_info st !! ws /\
     forall x, x ≠ ws -> connection_info st' !! x = connection_info st !! x).
Proof.
  unfold send_personal_message, try_except.
  set (m := match jget "timestamp" (JObj fs) with
            | Some _ => JObj fs
            | None => jset "timestamp" (iso now) (JObj fs)
            end).
  assert (Hm : jget "timestamp" m = Some (default (iso now) (jget "timestamp" (JObj fs)))).
  { unfold m. destruct (jget "timestamp" (JObj fs)) eqn:Ht; simpl; [done|]. apply jget_jset_eq. }
  destruct (client_connected W ws) eqn:Hc.
  - destruct (send_text W ws m) as [u|e] eqn:Hs; intros [= <- <- <-].
    + split; [intros c m' Hin; apply list_elem_of_singleton in Hin; injection Hin as -> ->; done|].
      split; [simpl; lia|]. split.
      * split; [intros _; split; [done|]; exists m; split; [apply list_elem_of_singleton; done|];
                by destruct u|done].
      * split; [discriminate|]. intros _. simpl. split; [done|]. split; [apply lookup_alter_eq|].
        intros x Hx. by rewrite lookup_alter_ne by congruence.
    + split; [intros c m' Hin; apply list_elem_of_singleton in Hin; injection Hin as -> ->; done|].
      split; [simpl; lia|]. split; [|split; [done|discriminate]].
      split; [discriminate|]. intros [_ [m' [Hin Hs']]].
      apply list_elem_of_singleton in Hin. injection Hin as <-. congruence.
    - intros [= <- <- <-]. split; [intros c m' Hin; by apply not_elem_of_nil in Hin|].
      split; [simpl; lia|]. split; [|split; [done|discriminate]].
      split; [discriminate|]. intros [H _]. discriminate.
Qed.

Lemma send_personal_message_outcome_witness :
  let r := send_personal_message HubClaims.demo_sockets (JObj [("type", JStr "ping")]) 1 7
             HubClaims.demo_hub in
  fst (fst r) = true /\
  connection_info (snd (fst r)) !! 1 = bump_sent <$> connection_info HubClaims.demo_hub !! 1.
Proof.
  destruct (send_personal_message HubClaims.demo_sockets (JObj [("type", JStr "ping")]) 1 7
              HubClaims.demo_hub) as [[ok st'] sent] eqn:Hr.
  destruct (send_personal_message_outcome HubClaims.demo_sockets [("type", JStr "ping")] 1 7
              HubClaims.demo_hub ok st' sent Hr) as [_ [_ [Hok [_ Htrue]]]].
  assert (Hok' : ok = true).
  { apply Hok. split; [reflexivity|]. exists (JObj [("type", JStr "ping"); ("timestamp", iso 7)]).
    split; [|reflexivity]. vm_compute in Hr. injection Hr as _ _ <-. left. }
  simpl. split; [done|]. apply (Htrue Hok').
Defined.

(** X14: [send_heartbeat] then [cleanup_broken_connections]: after the
    heartbeat every registered socket has [last_heartbeat] set to the
    clock read after the broadcasts; a clean-up within 300 seconds of it
    then removes no connected socket (its info and memberships stay) and
    removes every registered socket that is no longer connected. *)
Theorem heartbeat_then_cleanup (W : SocketEnv) (channels : list (string * Z))
    (now current_time t : Z) (st st' : HubState) (tr : SendTrace) :
  send_heartbeat W channels now current_time st = Returned (st', tr) ->
  (t - current_time <= stale_threshold_us)%Z ->
  (forall x i, connection_info st' !! x = Some i -> ci_last_heartbeat i = current_time) /\
  (forall x, client_connected W x = true ->
     connection_info (cleanup_broken_connections W t st') !! x = connection_info st' !! x /\
     forall k, x ∈ members (cleanup_broken_connections W t st') k <-> x ∈ members st' k) /\
  (forall x i, connection_info st' !! x = Some i -> client_connected W x = false ->
     HubFacts.gone x (cleanup_broken_connections W t st')).
Proof.
  unfold send_heartbeat.
  destruct (heartbeat_each W _ channels st []) as [[st1 tr1]|e]; [|discriminate].
  intros [= <- <-] Ht.
  assert (Hhb : forall x i, connection_info (mkHub (active_connections st1)
                   (refresh_heartbeat current_time <$> connection_info st1)) !! x = Some i ->
                   ci_last_heartbeat i = current_time).
  { intros x i Hx. simpl in Hx. apply lookup_fmap_Some in Hx as [i0 [<- _]]. done. }
  split; [exact Hhb|]. split.
  - intros x Hc. unfold cleanup_broken_connections. apply fold_disconnect_other.
    unfold broken_connections. intros Hin. apply list_elem_of_In, in_map_iff in Hin.
    destruct Hin as [[x' i] [Hx Hin]]. simpl in Hx. subst x'.
    apply filter_In in Hin as [Hin Hb]. apply list_elem_of_In, elem_of_map_to_list in Hin.
    simpl in Hb. rewrite Hc in Hb. unfold is_stale in Hb. rewrite (Hhb x i Hin) in Hb.
    apply orb_true_iff in Hb as [Hb|Hb]; [apply Z.ltb_lt in Hb; unfold stale_threshold_us in *; lia|discriminate].
  - intros x i Hx Hc. unfold cleanup_broken_connections. apply HubFacts.fold_disconnect_gone.
    unfold broken_connections. apply list_elem_of_In, in_map_iff. exists (x, i). split; [done|].
    apply filter_In. split; [apply list_elem_of_In, elem_of_map_to_list; done|].
    simpl. rewrite Hc. apply orb_true_r.
Qed.

Lemma heartbeat_then_cleanup_witness :
  match send_heartbeat HubClaims.demo_sockets [("monitoring", 5%Z)] 5 10 HubClaims.demo_hub with
  | Returned (st', _) =>
      connection_info (cleanup_broken_connections HubClaims.demo_sockets 20 st') !! 1 =
      connection_info st' !! 1
  | Raised _ => False
  end.
Proof.
  destruct (send_heartbeat HubClaims.demo_sockets [("monitoring", 5%Z)] 5 10 HubClaims.demo_hub)
    as [[st' tr]|e] eqn:Hh; [|discriminate].
  destruct (heartbeat_then_cleanup HubClaims.demo_sockets [("monitoring", 5%Z)] 5 10 20
              HubClaims.demo_hub st' tr Hh) as [_ [H _]];
    [unfold stale_threshold_us; lia|].
  apply (H 1). reflexivity.
Defined.

End HubExtra.

Module ApiHubExtra.
Import ApiHub.

(** The set of a channel, the empty set for a channel that has none. *)
Definition members (st : HubState) (k : string) : gset nat :=
  default ∅ (active_connections st !! k).

(** [st'] only lost sockets: same channels, smaller sets, fewer infos. *)
Definition shrinks (st st' : HubState) : Prop :=
  dom (active_connections st') = dom (active_connections st) /\
  (forall k, members st' k ⊆ members st k) /\
  dom (connection_info st') ⊆ dom (connection_info st).

Lemma api_disconnect_members (ws : nat) (st : HubState) (k : string) :
  members (disconnect ws st) k = members st k ∖ {[ws]}.
Proof.
  unfold members, disconnect. simpl. rewrite lookup_fmap.
  destruct (active_connections st !! k); simpl; set_solver.
Qed.

Lemma drop_members (ch : string) (st : HubState) (c : nat) (k : string) :
  members (drop_from_channel ch st c) k =
  if decide (k = ch) then members st k ∖ {[c]} else members st k.
Proof.
  unfold members, drop_from_channel. simpl. destruct (decide (k = ch)) as [->|Hne].
  - rewrite lookup_alter_eq. destruct (active_connections st !! ch); simpl; set_solver.
  - by rewrite lookup_alter_ne by congruence.
Qed.

Lemma fold_drop_members (ch : string) (d : list nat) (st : HubState) (k : string) :
  members (fold_left (drop_from_channel ch) d st) k =
  if decide (k = ch) then members st k ∖ list_to_set d else members st k.
Proof.
  revert st. induction d as [|c rest IH]; intros st; simpl.
  - case_decide; [set_solver|done].
  - rewrite IH, drop_members. case_decide; [set_solver|done].
Qed.

Lemma fold_drop_info (ch : string) (d : list nat) (st : HubState) (x : nat) :
  connection_info (fold_left (drop_from_channel ch) d st) !! x =
  if decide (x ∈ d) then None else connection_info st !! x.
Proof.
  revert st. induction d as [|c rest IH]; intros st; cbn [fold_left].
  - case_decide as H; [by apply not_elem_of_nil in H|done].
  - rewrite IH. simpl. destruct (decide (x ∈ rest)) as [Hr|Hr].
    + rewrite decide_True; [done|by apply elem_of_cons; right].
    + destruct (decide (c = x)) as [->|Hne].
      * rewrite decide_True; [apply lookup_delete_eq|by apply elem_of_cons; left].
      * rewrite decide_False; [by rewrite lookup_delete_ne by congruence|].
        rewrite elem_of_cons. intros [->|?]; contradiction.
Qed.

Lemma fold_drop_dom (ch : string) (d : list nat) (st : HubState) :
  dom (active_connections (fold_left (drop_from_channel ch) d st)) = dom (active_connections st).
Proof.
  revert st. induction d as [|c rest IH]; intros st; simpl; [done|].
  rewrite IH. simpl. apply dom_alter_L.
Qed.

Lemma loop_state (W : SocketEnv) (message : json) (l : list nat)
    (d : list nat) (st : HubState) (tr : SendTrace) :
  active_connections (snd (fst (broadcast_loop W message l (d, st, tr)))) = active_connections st /\
  dom (connection_info (snd (fst (broadcast_loop W message l (d, st, tr))))) =
    dom (connection_info st) /\
  (forall x, x ∉ l ->
     connection_info (snd (fst (broadcast_loop W message l (d, st, tr)))) !! x =
     connection_info st !! x) /\
  (forall b, NoDup l -> b ∈ l -> client_connected W b = true ->
     send_text W b message = Returned tt ->
     connection_info (snd (fst (broadcast_loop W message l (d, st, tr)))) !! b =
     bump_sent None <$> connection_info st !! b).
Proof.
  revert d st tr. induction l as [|c rest IH]; intros d st tr; cbn [broadcast_loop].
  { split; [done|]. split; [done|]. split; [done|]. intros b _ Hin. by apply not_elem_of_nil in Hin. }
  assert (Hstep : exists st1, snd (fst (broadcast_step W message c (d, st, tr))) = st1 /\
    active_connections st1 = active_connections st /\
    dom (connection_info st1) = dom (connection_info st) /\
    (forall x, x ≠ c -> connection_info st1 !! x = connection_info st !! x) /\
    (client_connected W c = true -> send_text W c message = Returned tt ->
       connection_info st1 !! c = bump_sent None <$> connection_info st !! c)).
  { unfold broadcast_step, try_except. destruct (client_connected W c) eqn:Hc.
    - destruct (send_text W c message) as [u|e] eqn:Hs; simpl.
      + eexists. split; [reflexivity|]. simpl. split; [done|]. split; [apply dom_alter_L|].
        split; [intros x Hx; by rewrite lookup_alter_ne by congruence|].
        intros _ _. apply lookup_alter_eq.
      + eexists. split; [reflexivity|]. split; [done|]. split; [done|].
        split; [done|]. intros _ Hs'. discriminate.
    - simpl. eexists. split; [reflexivity|]. split; [done|]. split; [done|].
      split; [done|]. discriminate. }
  destruct Hstep as (st1 & Hst1 & Ha & Hd & Ho & Hb).
  rewrite (surjective_pairing (broadcast_step W message c (d, st, tr))).
  rewrite (surjective_pairing (fst (broadcast_step W message c (d, st, tr)))). rewrite Hst1.
  destruct (IH (fst (fst (broadcast_step W message c (d, st, tr)))) st1
               (snd (broadcast_step W message c (d, st, tr)))) as (Ha' & Hd' & Ho' & Hb').
  split; [congruence|]. split; [congruence|]. split.
  - intros x Hx. apply not_elem_of_cons in Hx as [Hne Hx]. rewrite Ho'; [|done]. by apply Ho.
  - intros b Hnd Hin Hcb Hsb. apply NoDup_cons in Hnd as [Hnin Hnd].
    destruct (decide (b = c)) as [->|Hne].
    + rewrite Ho'; [|done]. by apply Hb.
    + apply elem_of_cons in Hin as [Hin|Hin]; [contradiction|].
      rewrite Hb'; [|done|done|done|done]. by rewrite Ho.
Qed.

Lemma in_failed (W : SocketEnv) (message : json) (l : list nat) (x : nat) :
  x ∈ concat (map (ApiHubFacts.failed W message) l) <->
  x ∈ l /\ ApiHubFacts.failed W message x = [x].
Proof.
  induction l as [|c rest IH]; simpl.
  - split; [intros H; by apply not_elem_of_nil in H|intros [H _]; by apply not_elem_of_nil in H].
  - rewrite elem_of_app, IH, elem_of_cons.
    unfold ApiHubFacts.failed at 1.
    destruct (client_connected W c) eqn:Hc; [destruct (send_text W c message) eqn:Hs|].
    + split; [intros [H|H]; [by apply not_elem_of_nil in H|tauto]|].
      intros [[->|H] Hf]; [|tauto]. unfold ApiHubFacts.failed in Hf. rewrite Hc, Hs in Hf. discriminate.
    + split.
      * intros [H|H]; [apply list_elem_of_singleton in H as ->|tauto].
        split; [by left|]. unfold ApiHubFacts.failed. by rewrite Hc, Hs.
      * intros [[->|H] Hf]; [left; by apply list_elem_of_singleton|tauto].
    + split.
      * intros [H|H]; [apply list_elem_of_singleton in H as ->|tauto].
        split; [by left|]. unfold ApiHubFacts.failed. by rewrite Hc.
      * intros [[->|H] Hf]; [left; by apply list_elem_of_singleton|tauto].
Qed.
(** X15: [broadcast] of api/websocket.py only removes sockets, and only from
    the broadcast channel: other channels keep their sets; sockets
    outside the channel keep their info; a subscriber that is not
    connected or whose send raises leaves the channel and the info map
    (but stays in the other channels it was in); a subscriber whose send
    succeeds stays and has [messages_sent] counted once. *)
Theorem api_broadcast_effect (W : SocketEnv) (message : json) (ch : string) (now : Z)
    (st st' : HubState) (tr : SendTrace) :
  broadcast W message ch now st = Returned (st', tr) ->
  shrinks st st' /\
  (forall k, k ≠ ch -> members st' k = members st k) /\
  (forall x, x ∉ members st ch -> connection_info st' !! x = connection_info st !! x) /\
  (forall c, c ∈ members st ch ->
     (client_connected W c = false \/
      exists e, send_text W c (stamp_message ch now message) = Raised e) ->
     (c ∉ members st' ch) /\ connection_info st' !! c = None) /\
  (forall b, b ∈ members st ch -> client_connected W b = true ->
     send_text W b (stamp_message ch now message) = Returned tt ->
     b ∈ members st' ch /\
     connection_info st' !! b = bump_sent None <$> connection_info st !! b).
Proof.
  assert (Hsame : forall st0 : HubState, members st0 ch = ∅ ->
    shrinks st0 st0 /\
    (forall k, k ≠ ch -> members st0 k = members st0 k) /\
    (forall x, x ∉ members st0 ch -> connection_info st0 !! x = connection_info st0 !! x) /\
    (forall c, c ∈ members st0 ch ->
       (client_connected W c = false \/
        exists e, send_text W c (stamp_message ch now message) = Raised e) ->
       (c ∉ members st0 ch) /\ connection_info st0 !! c = None) /\
    (forall b, b ∈ members st0 ch -> client_connected W b = true ->
       send_text W b (stamp_message ch now message) = Returned tt ->
       b ∈ members st0 ch /\
       connection_info st0 !! b = bump_sent None <$> connection_info st0 !! b)).
  { intros st0 Hm. rewrite Hm. split; [split; [done|]; split; [intros k; set_solver|set_solver]|].
    split; [done|]. split; [done|]. split; intros c Hin; set_solver. }
  unfold broadcast. destruct (active_connections st !! ch) as [conns|] eqn:Hc.
  2:{ intros [= <- <-]. apply Hsame. unfold members. by rewrite Hc. }
  assert (Hm : members st ch = conns) by (unfold members; by rewrite Hc).
  assert (Hel : forall x, x ∈ conns <-> x ∈ elements conns) by (intros x; by rewrite elem_of_elements).
  assert (Hnd : NoDup (elements conns)) by apply NoDup_elements.
  destruct (elements conns) as [|c0 l0] eqn:He.
  { intros [= <- <-]. apply Hsame. rewrite Hm. apply set_eq. intros x. rewrite Hel. set_solver. }
  remember (c0 :: l0) as l eqn:El. clear El.
  destruct (ApiHubFacts.loop_shape W (stamp_message ch now message) l [] st []) as [st1 [Hl _]].
  destruct (loop_state W (stamp_message ch now message) l [] st []) as (Ha & Hd & Ho & Hb).
  rewrite Hl in Ha, Hd, Ho, Hb. simpl in Ha, Hd, Ho, Hb. rewrite Hl. simpl.
  intros [= <- <-].
  set (d := concat (map (ApiHubFacts.failed W (stamp_message ch now message)) l)).
  assert (Hm1 : forall k, members st1 k = members st k) by (intros k; unfold members; by rewrite Ha).
  rewrite Hm in *.
  split; [|split; [|split; [|split]]].
  - split; [rewrite fold_drop_dom; congruence|]. split.
    + intros k. rewrite fold_drop_members, Hm1. case_decide; [set_solver|done].
    + intros x Hx. apply elem_of_dom in Hx as [i Hx]. rewrite fold_drop_info in Hx.
      case_decide; [discriminate|]. rewrite <- Hd. apply elem_of_dom. by exists i.
  - intros k Hk. rewrite fold_drop_members, Hm1. by rewrite decide_False.
  - intros x Hx. rewrite fold_drop_info. rewrite Hel in Hx. rewrite decide_False.
    + by apply Ho.
    + unfold d. rewrite in_failed. tauto.
  - intros c Hin Hf. assert (Hcd : c ∈ d).
    { unfold d. rewrite in_failed. split; [by apply Hel|]. unfold ApiHubFacts.failed.
      destruct Hf as [Hf|[e Hf]]; [by rewrite Hf|].
      destruct (client_connected W c); [by rewrite Hf|done]. }
    rewrite fold_drop_members, decide_True by done. rewrite fold_drop_info, decide_True by done.
    split; [set_solver|done].
  - intros b Hin Hcb Hsb. assert (Hbd : b ∉ d).
    { unfold d. rewrite in_failed. unfold ApiHubFacts.failed. rewrite Hcb, Hsb. intros [_ ?]. discriminate. }
    rewrite fold_drop_members, decide_True by done. rewrite fold_drop_info, decide_False by done.
    rewrite Hm1, Hm. split; [set_solver|]. apply Hb; [done|by apply Hel|done|done].
Qed.

Lemma api_broadcast_effect_witness :
  exists st' tr,
    broadcast HubClaims.demo_sockets HubClaims.demo_event "alerts" 3 HubClaims.demo_api_hub
      = Returned (st', tr) /\
    (2 ∉ members st' "alerts") /\ connection_info st' !! 2 = None /\
    1 ∈ members st' "alerts".
Proof.
  destruct (broadcast HubClaims.demo_sockets HubClaims.demo_event "alerts" 3 HubClaims.demo_api_hub)
    as [[st' tr]|e] eqn:Hb; [|discriminate].
  destruct (api_broadcast_effect HubClaims.demo_sockets HubClaims.demo_event "alerts" 3
              HubClaims.demo_api_hub st' tr Hb) as [_ [_ [_ [Hf Hok]]]].
  exists st', tr. split; [done|].
  destruct (Hf 2) as [H1 H2]; [vm_compute; set_solver|right; exists OtherException; reflexivity|].
  split; [done|]. split; [done|].
  apply (Hok 1); [vm_compute; set_solver|reflexivity|reflexivity].
Defined.

End ApiHubExtra.

Module HubsExtra.

Lemma nodup_list_filter (f : nat -> bool) (l : list nat) :
  NoDup l -> NoDup (List.filter f l).
Proof.
  induction l as [|c rest IH]; intros Hnd; simpl; [constructor|].
  apply NoDup_cons in Hnd as [Hn Hnd]. destruct (f c); [|by apply IH].
  apply NoDup_cons. split; [|by apply IH].
  intros Hin. apply Hn. apply list_elem_of_In in Hin. apply filter_In in Hin as [Hin _].
  by apply list_elem_of_In.
Qed.

Lemma attempts_fst (W : SocketEnv) (message : json) (l : list nat) :
  map fst (concat (map (HubFacts.attempt W message) l)) = List.filter (client_connected W) l.
Proof.
  induction l as [|c rest IH]; simpl; [done|]. rewrite map_app, IH.
  unfold HubFacts.attempt. by destruct (client_connected W c).
Qed.

Lemma total_insert (a : gmap string (gset nat)) (k : string) (s : gset nat) :
  ApiHub.total_connections (<[k := s]> a) + size (default ∅ (a !! k)) =
  ApiHub.total_connections a + size s.
Proof.
  unfold ApiHub.total_connections.
  set (f := fun (_ : string) (conns : gset nat) (acc : nat) => size conns + acc).
  assert (Hins : forall (m : gmap string (gset nat)) (x : gset nat), m !! k = None ->
            map_fold f 0 (<[k := x]> m) = size x + map_fold f 0 m).
  { intros m x Hm. rewrite map_fold_insert_L; [done| |done]. intros. unfold f. lia. }
  destruct (a !! k) as [g|] eqn:Hk.
  - change (default ∅ (Some g)) with g.
    assert (Ha : map_fold f 0 a = size g + map_fold f 0 (delete k a)).
    { rewrite <- (insert_id a k g Hk) at 1. rewrite <- insert_delete_eq.
      apply Hins, lookup_delete_eq. }
    rewrite <- insert_delete_eq, Hins by apply lookup_delete_eq. lia.
  - change (default ∅ (@None (gset nat))) with (∅ : gset nat).
    rewrite Hins by done. rewrite size_empty. lia.
Qed.

(** X16: [disconnect], in both managers, is idempotent, keeps the set of
    channels, removes the socket from every channel and from the info
    map, and touches no other socket. *)
Theorem disconnect_effect (ws : nat) :
  (forall st : Hub.HubState,
     Hub.disconnect ws (Hub.disconnect ws st) = Hub.disconnect ws st /\
     dom (Hub.active_connections (Hub.disconnect ws st)) = dom (Hub.active_connections st) /\
     Hub.connection_info (Hub.disconnect ws st) !! ws = None /\
     (forall k, ws ∉ HubExtra.members (Hub.disconnect ws st) k) /\
     (forall x, x ≠ ws ->
        Hub.connection_info (Hub.disconnect ws st) !! x = Hub.connection_info st !! x /\
        forall k, x ∈ HubExtra.members (Hub.disconnect ws st) k <-> x ∈ HubExtra.members st k)) /\
  (forall st : ApiHub.HubState,
     ApiHub.disconnect ws (ApiHub.disconnect ws st) = ApiHub.disconnect ws st /\
     dom (ApiHub.active_connections (ApiHub.disconnect ws st)) =
       dom (ApiHub.active_connections st) /\
     ApiHub.connection_info (ApiHub.disconnect ws st) !! ws = None /\
     (forall k, ws ∉ ApiHubExtra.members (ApiHub.disconnect ws st) k) /\
     (forall x, x ≠ ws ->
        ApiHub.connection_info (ApiHub.disconnect ws st) !! x = ApiHub.connection_info st !! x /\
        forall k, x ∈ ApiHubExtra.members (ApiHub.disconnect ws st) k <->
                  x ∈ ApiHubExtra.members st k)).
Proof.
  split; intros st.
  - split.
    { unfold Hub.disconnect. simpl. f_equal; [|apply delete_delete_eq].
      rewrite <- map_fmap_compose. apply map_fmap_ext. intros i x _. simpl. set_solver. }
    split; [simpl; apply dom_fmap_L|]. split; [simpl; apply lookup_delete_eq|].
    split; [intros k; rewrite HubExtra.disconnect_members; set_solver|].
    intros x Hx. split; [simpl; by rewrite lookup_delete_ne by congruence|].
    intros k. rewrite HubExtra.disconnect_members. set_solver.
  - split.
    { unfold ApiHub.disconnect. simpl. f_equal; [|apply delete_delete_eq].
      rewrite <- map_fmap_compose. apply map_fmap_ext. intros i x _. simpl. set_solver. }
    split; [simpl; apply dom_fmap_L|]. split; [simpl; apply lookup_delete_eq|].
    split; [intros k; rewrite ApiHubExtra.api_disconnect_members; set_solver|].
    intros x Hx. split; [simpl; by rewrite lookup_delete_ne by congruence|].
    intros k. rewrite ApiHubExtra.api_disconnect_members. set_solver.
Qed.
Lemma disconnect_effect_witness :
  Hub.disconnect 1 (Hub.disconnect 1 HubClaims.demo_hub) = Hub.disconnect 1 HubClaims.demo_hub /\
  ApiHub.connection_info (ApiHub.disconnect 1 HubClaims.demo_api_hub) !! 2 =
    ApiHub.connection_info HubClaims.demo_api_hub !! 2.
Proof.
  destruct (disconnect_effect 1) as [Hh Ha]. split; [apply Hh|].
  apply (Ha HubClaims.demo_api_hub). lia.
Defined.

(** X17: The sockets a [broadcast] tries, in both managers: exactly the
    connected members of the channel, each once, in the order of the
    copy of the set the loop runs over; a closed member gets no send
    attempt. *)
Theorem broadcast_recipients (W : SocketEnv) (message : json) (ch : string) (now : Z) :
  (forall st st' tr, Hub.broadcast W message ch now st = Returned (st', tr) ->
     map fst tr = List.filter (client_connected W) (elements (HubExtra.members st ch)) /\
     NoDup (map fst tr)) /\
  (forall st st' tr, ApiHub.broadcast W message ch now st = Returned (st', tr) ->
     map fst tr = List.filter (client_connected W) (elements (ApiHubExtra.members st ch)) /\
     NoDup (map fst tr)).
Proof.
  assert (Hgen : forall (tr : SendTrace) (l : list nat), map fst tr = List.filter (client_connected W) l -> NoDup l ->
            map fst tr = List.filter (client_connected W) l /\ NoDup (map fst tr)).
  { intros tr l H Hnd. split; [done|]. rewrite H. by apply nodup_list_filter. }
  split; intros st st' tr.
  - unfold Hub.broadcast, HubExtra.members.
    destruct (Hub.active_connections st !! ch) as [conns|]; simpl; intros [= Heq].
    + apply Hgen; [|apply NoDup_elements].
      assert (Htr : tr = snd (Hub.broadcast_loop W ch (Hub.stamp_message now message)
                                (elements conns) (st, []))) by (by rewrite Heq).
      rewrite Htr, HubFacts.loop_trace. simpl. apply attempts_fst.
    + subst tr. rewrite elements_empty. split; [done|constructor].
  - unfold ApiHub.broadcast, ApiHubExtra.members.
    destruct (ApiHub.active_connections st !! ch) as [conns|]; cbn [default from_option id].
    2:{ intros [= <- <-]. rewrite elements_empty. split; [done|constructor]. }
    pose proof (NoDup_elements conns) as Hnd.
    destruct (elements conns) as [|c0 l0] eqn:He.
    { intros [= <- <-]. split; [done|constructor]. }
    remember (c0 :: l0) as l eqn:El. clear El.
    destruct (ApiHubFacts.loop_shape W (ApiHub.stamp_message ch now message) l [] st [])
      as [st1 [Hl _]].
    rewrite Hl. intros [= _ <-]. apply Hgen; [|done]. apply attempts_fst.
Qed.

Lemma broadcast_recipients_witness :
  match Hub.broadcast HubClaims.demo_sockets HubClaims.demo_event "monitoring" 5
          HubClaims.demo_hub with
  | Returned (_, tr) => NoDup (map fst tr)
  | Raised _ => False
  end.
Proof.
  destruct (Hub.broadcast HubClaims.demo_sockets HubClaims.demo_event "monitoring" 5
              HubClaims.demo_hub) as [[st' tr]|e] eqn:Hb; [|discriminate].
  apply (proj1 (broadcast_recipients HubClaims.demo_sockets HubClaims.demo_event "monitoring" 5)
           HubClaims.demo_hub st' tr Hb).
Defined.

Lemma size_add (ws : nat) (X : gset nat) : ws ∉ X -> size ({[ws]} ∪ X) = S (size X).
Proof. intros Hn. rewrite size_union by set_solver. by rewrite size_singleton. Qed.

Lemma hub_members_insert (st : Hub.HubState) (ch k : string) (X : gset nat)
    (info : gmap nat Hub.ConnInfo) :
  HubExtra.members (Hub.mkHub (<[ch := X]> (Hub.active_connections st)) info) k =
  if decide (k = ch) then X else HubExtra.members st k.
Proof.
  unfold HubExtra.members. simpl. destruct (decide (k = ch)) as [->|Hne].
  - by rewrite lookup_insert_eq.
  - by rewrite lookup_insert_ne by congruence.
Qed.

Lemma api_send_ok (W : SocketEnv) (ws : nat) (message : json) (t : Z) (st : ApiHub.HubState) :
  client_connected W ws = true -> (forall m, send_text W ws m = Returned tt) ->
  fst (ApiHub.send_to_websocket W ws message t st) =
  ApiHub.mkHub (ApiHub.active_connections st)
               (alter (ApiHub.bump_sent (Some t)) ws (ApiHub.connection_info st)).
Proof.
  intros Hc Hs. unfold ApiHub.send_to_websocket, try_except. rewrite Hc, Hs. done.
Qed.

(** X18: [connect] of a socket that is open and whose sends succeed, in both
    managers, when it is not yet in the channel: it joins the channel,
    the total count grows by one, other channels are untouched, and its
    info is registered for the channel. In services/websocket_manager.py
    the info shows the one message sent; in api/websocket.py the client
    id is the channel name and the channel's size after the join, and
    [last_heartbeat] is the connect time. *)
Theorem connect_open_socket (W : SocketEnv) (ws : nat) (ch : string) (now : Z) :
  client_connected W ws = true -> (forall m, send_text W ws m = Returned tt) ->
  (forall st : Hub.HubState, ws ∉ HubExtra.members st ch ->
     let st' := fst (Hub.connect W ws ch now st) in
     ws ∈ HubExtra.members st' ch /\
     Hub.total_connections st' = S (Hub.total_connections st) /\
     Hub.connection_info st' !! ws = Some (Hub.mkConnInfo ch now 1 0 now) /\
     (forall k, k ≠ ch -> HubExtra.members st' k = HubExtra.members st k)) /\
  (forall (alerts_data : Outcome json) (st : ApiHub.HubState), ws ∉ ApiHubExtra.members st ch ->
     let st' := fst (ApiHub.connect W alerts_data ws ch now st) in
     ws ∈ ApiHubExtra.members st' ch /\
     ApiHub.total_connections (ApiHub.active_connections st') =
       S (ApiHub.total_connections (ApiHub.active_connections st)) /\
     (exists i, ApiHub.connection_info st' !! ws = Some i /\ ApiHub.ci_channel i = ch /\
        ApiHub.ci_client_id i = ch ++ "_" ++ pretty (S (size (ApiHubExtra.members st ch))) /\
        ApiHub.ci_last_heartbeat i = now) /\
     (forall k, k ≠ ch -> ApiHubExtra.members st' k = ApiHubExtra.members st k)).
Proof.
  intros Hc Hs. split.
  - intros st Hn. simpl. unfold Hub.connect, Hub.send_personal_message, try_except.
    rewrite Hc, Hs. cbn -[HubExtra.members Hub.total_connections].
    rewrite !hub_members_insert. destruct (decide (ch = ch)) as [_|]; [|done].
    split; [set_solver|]. split; [|split].
    + change (Hub.total_connections ?s) with (ApiHub.total_connections (Hub.active_connections s)).
      simpl. pose proof (total_insert (Hub.active_connections st) ch
                           ({[ws]} ∪ default ∅ (Hub.active_connections st !! ch))) as Ht.
      rewrite size_add in Ht by exact Hn. unfold HubExtra.members in Hn. lia.
    + rewrite lookup_alter_eq, lookup_insert_eq. done.
    + intros k Hk. rewrite hub_members_insert. case_decide; [congruence|done].
  - intros alerts_data st Hn. simpl. unfold ApiHub.connect. cbv zeta.
    set (conns := {[ws]} ∪ default ∅ (ApiHub.active_connections st !! ch)).
    set (act := <[ch := conns]> (ApiHub.active_connections st)).
    set (cid := ch ++ "_" ++ pretty (size conns)).
    set (P := fun st0 : ApiHub.HubState => ApiHub.active_connections st0 = act /\
                exists i, ApiHub.connection_info st0 !! ws = Some i /\ ApiHub.ci_channel i = ch /\
                  ApiHub.ci_client_id i = cid /\ ApiHub.ci_last_heartbeat i = now).
    assert (Hsend : forall m st0, P st0 -> P (fst (ApiHub.send_to_websocket W ws m now st0))).
    { intros m st0 [Ha [i (Hi & H1 & H2 & H3)]]. rewrite api_send_ok by done.
      split; [done|]. exists (ApiHub.bump_sent (Some now) i). simpl.
      rewrite lookup_alter_eq, Hi. done. }
    assert (HP1 : P (ApiHub.mkHub act (<[ws := ApiHub.mkConnInfo ch now 0 0 now cid]>
                                        (ApiHub.connection_info st)))).
    { split; [done|]. exists (ApiHub.mkConnInfo ch now 0 0 now cid). simpl.
      rewrite lookup_insert_eq. done. }
    destruct (ApiHub.send_to_websocket W ws (ApiHub.welcome_message ch now cid act) now
                (ApiHub.mkHub act (<[ws := ApiHub.mkConnInfo ch now 0 0 now cid]>
                                    (ApiHub.connection_info st)))) as [st2 sent1] eqn:H2.
    assert (HP2 : P st2) by (change st2 with (fst (st2, sent1)); rewrite <- H2; by apply Hsend).
    assert (HP3 : P (fst (if String.eqb ch "alerts" then ApiHub.send_initial_alerts W alerts_data ws now st2
                          else if String.eqb ch "monitoring" then ApiHub.send_initial_monitoring W ws now st2
                          else (st2, [])))).
    { destruct (String.eqb ch "alerts").
      - unfold ApiHub.send_initial_alerts, try_except. destruct alerts_data; [by apply Hsend|done].
      - destruct (String.eqb ch "monitoring"); [by apply Hsend|done]. }
    destruct (if String.eqb ch "alerts" then ApiHub.send_initial_alerts W alerts_data ws now st2
              else if String.eqb ch "monitoring" then ApiHub.send_initial_monitoring W ws now st2
              else (st2, [])) as [st3 sent2].
    simpl in HP3 |- *. destruct HP3 as [Ha [i (Hi & H1 & Hcid & H3)]].
    assert (Hsz : size conns = S (size (ApiHubExtra.members st ch))) by (by apply size_add).
    unfold ApiHubExtra.members. rewrite Ha. unfold act. rewrite lookup_insert_eq. simpl.
    split; [unfold conns; set_solver|]. split; [|split].
    + pose proof (total_insert (ApiHub.active_connections st) ch conns) as Ht.
      rewrite Hsz in Ht. unfold ApiHubExtra.members in Ht. lia.
    + exists i. split; [done|]. split; [done|]. split; [|done]. rewrite Hcid. unfold cid.
      by rewrite Hsz.
    + intros k Hk. by rewrite lookup_insert_ne by congruence.
Qed.

Lemma connect_open_socket_witness :
  Hub.connection_info (fst (Hub.connect HubClaims.demo_sockets 5 "logs" 3 HubClaims.demo_hub)) !! 5
    = Some (Hub.mkConnInfo "logs" 3 1 0 3).
Proof.
  destruct (connect_open_socket HubClaims.demo_sockets 5 "logs" 3) as [H _];
    [reflexivity|intros m; reflexivity|].
  apply (H HubClaims.demo_hub). vm_compute. set_solver.
Defined.

(** Whether an outcome is a raised exception. *)
Definition raised {A : Type} (o : Outcome A) : bool :=
  match o with
  | Raised _ => true
  | Returned _ => false
  end.




Lemma endpoint_ended (W : SocketEnv) (channel : string) on_message on_invalid
    (alerts_data : Outcome json) (ws : nat) (now : Z) (frames : list ApiHub.Frame) (st : ApiHub.HubState) :
  snd (ApiHub.endpoint W channel on_message on_invalid alerts_data ws now frames st) =
  snd (ApiHub.session_loop on_message on_invalid ws frames
         (fst (ApiHub.connect W alerts_data ws channel now st))).
Proof.
  unfold ApiHub.endpoint. destruct (ApiHub.connect W alerts_data ws channel now st) as [st1 sent0].
  simpl. destruct (ApiHub.session_loop on_message on_invalid ws frames st1) as [[st2 sent1] e]. done.
Qed.



Lemma session_loop_closed on_message on_invalid (ws : nat) (frames : list ApiHub.Frame)
    (st : ApiHub.HubState) :
  ApiHub.FClosed ∈ frames -> snd (ApiHub.session_loop on_message on_invalid ws frames st) = true.
Proof.
  revert st. induction frames as [|f rest IH]; intros st Hin; [by apply not_elem_of_nil in Hin|].
  apply elem_of_cons in Hin as [<-|Hin]; [done|].
  destruct f as [t [m|]| |]; simpl; [|destruct on_invalid as [h|]|done|done].
  - destruct (on_message ws t m st) as [st1 [sent1|e]]; [|done].
    specialize (IH st1 Hin).
    destruct (ApiHub.session_loop on_message on_invalid ws rest st1) as [[st2 sent2] e]. done.
  - destruct (h ws t st) as [st1 sent1]. specialize (IH st1 Hin).
    destruct (ApiHub.session_loop on_message (Some h) ws rest st1) as [[st2 sent2] e]. done.
  - done.
Qed.

(** X21: The [finally] of every endpoint of api/websocket.py: once the client
    has gone away (a closed frame among those received), the loop has
    left, and when it has left the socket has no info and is in no
    channel. *)
Theorem endpoint_exit_disconnects (W : SocketEnv) (channel : string) on_message on_invalid
    (alerts_data : Outcome json) (ws : nat) (now : Z) (frames : list ApiHub.Frame) (st : ApiHub.HubState) :
  let r := ApiHub.endpoint W channel on_message on_invalid alerts_data ws now frames st in
  (ApiHub.FClosed ∈ frames -> snd r = true) /\
  (snd r = true ->
     ApiHub.connection_info (fst (fst r)) !! ws = None /\
     forall k, ws ∉ ApiHubExtra.members (fst (fst r)) k).
Proof.
  simpl. split.
  - intros Hin. rewrite endpoint_ended. by apply session_loop_closed.
  - unfold ApiHub.endpoint. destruct (ApiHub.connect W alerts_data ws channel now st) as [st1 sent0].
    destruct (ApiHub.session_loop on_message on_invalid ws frames st1) as [[st2 sent1] e].
    simpl. intros ->. simpl. split; [by rewrite lookup_delete_eq|].
    intros k. unfold ApiHubExtra.members. simpl. rewrite lookup_fmap.
    destruct (ApiHub.active_connections st2 !! k); simpl; set_solver.
Qed.

Lemma endpoint_exit_disconnects_witness :
  ApiHub.connection_info (fst (fst (ApiHub.websocket_system_endpoint HubClaims.demo_sockets
      (Raised OtherException) 5 3 [ApiHub.FText 4 (Some JNull); ApiHub.FClosed] HubClaims.demo_api_hub))) !! 5 = None.
Proof.
  destruct (endpoint_exit_disconnects HubClaims.demo_sockets "system" (ApiHub.on_system_message HubClaims.demo_sockets) None
              (Raised OtherException) 5 3 [ApiHub.FText 4 (Some JNull); ApiHub.FClosed] HubClaims.demo_api_hub)
    as [H1 H2].
  apply H2. apply H1. vm_compute. set_solver.
Defined.

Definition newer (a b : ApiHub.Alert) : Prop := (ApiHub.alert_timestamp b <= ApiHub.alert_timestamp a)%Z.

Lemma insert_newest_first_perm (a : ApiHub.Alert) (l : list ApiHub.Alert) :
  Permutation (ApiHub.insert_newest_first a l) (a :: l).
Proof.
  induction l as [|b rest IH]; simpl; [done|].
  destruct (Z.ltb _ _); [done|].
  rewrite IH. apply perm_swap.
Qed.

Lemma sort_newest_first_perm_acc (l acc : list ApiHub.Alert) :
  Permutation (fold_left (fun acc a => ApiHub.insert_newest_first a acc) l acc) (app l acc).
Proof.
  revert acc. induction l as [|a l IH]; intros acc; simpl; [done|].
  rewrite IH, insert_newest_first_perm. symmetry. apply Permutation_middle.
Qed.

Lemma insert_newest_first_hd (a b : ApiHub.Alert) (l : list ApiHub.Alert) :
  HdRel newer b l -> newer b a -> HdRel newer b (ApiHub.insert_newest_first a l).
Proof.
  intros Hl Hba. destruct l as [|c rest]; simpl; [by constructor|].
  destruct (Z.ltb _ _); constructor; [done|]. by inversion Hl.
Qed.

Lemma insert_newest_first_sorted (a : ApiHub.Alert) (l : list ApiHub.Alert) :
  Sorted newer l -> Sorted newer (ApiHub.insert_newest_first a l).
Proof.
  induction l as [|b rest IH]; intros Hs; simpl; [by repeat constructor|].
  destruct (Z.ltb (ApiHub.alert_timestamp b) (ApiHub.alert_timestamp a)) eqn:E.
  - apply Z.ltb_lt in E. constructor; [done|]. constructor. unfold newer. lia.
  - apply Z.ltb_ge in E. inversion Hs as [|? ? Hr Hd]; subst.
    constructor; [by apply IH|]. apply insert_newest_first_hd; [done|]. unfold newer. lia.
Qed.

Lemma sort_newest_first_sorted (l acc : list ApiHub.Alert) :
  Sorted newer acc ->
  Sorted newer (fold_left (fun acc a => ApiHub.insert_newest_first a acc) l acc).
Proof.
  revert acc. induction l as [|a l IH]; intros acc Hs; simpl; [done|].
  apply IH. by apply insert_newest_first_sorted.
Qed.

Lemma strongly_sorted_app {A : Type} (R : A -> A -> Prop) (l1 l2 : list A) :
  StronglySorted R (app l1 l2) ->
  Sorted R l1 /\ forall a b, In a l1 -> In b l2 -> R a b.
Proof.
  induction l1 as [|x l1 IH]; simpl; intros Hs; [split; [constructor|done]|].
  apply StronglySorted_inv in Hs as [Hs Hall]. destruct (IH Hs) as [Hs1 Hx].
  split.
  - constructor; [done|]. destruct l1 as [|y l1]; constructor.
    rewrite List.Forall_forall in Hall. apply Hall. simpl. auto.
  - intros a b [<-|Ha] Hb; [|by apply Hx].
    rewrite List.Forall_forall in Hall. apply Hall. apply in_or_app. auto.
Qed.

Lemma dict_set_keys {A : Type} (k x : string) (v : A) (d : list (string * A)) :
  In x (map fst (ApiHub.dict_set k v d)) <-> x = k \/ In x (map fst d).
Proof.
  unfold ApiHub.dict_set. destruct (List.existsb _ d) eqn:E.
  - rewrite map_map.
    rewrite (map_ext (fun kv => fst (if String.eqb (fst kv) k then (k, v) else kv)) fst)
      by (intros [k' v']; simpl; by destruct (String.eqb_spec k' k) as [->|]).
    apply existsb_exists in E as [[k' v'] [Hin Hk]]. simpl in Hk.
    apply String.eqb_eq in Hk as ->.
    split; [auto|]. intros [->|H]; [|done]. apply in_map_iff. by exists (k, v').
  - rewrite map_app, in_app_iff. simpl. intuition.
Qed.

Lemma dict_set_values {A : Type} (k : string) (v : A) (d : list (string * A)) (kv : string * A) :
  In kv (ApiHub.dict_set k v d) -> kv = (k, v) \/ In kv d.
Proof.
  unfold ApiHub.dict_set. destruct (List.existsb _ d).
  - intros Hin. apply in_map_iff in Hin as [kv0 [<- Hin]].
    destruct (String.eqb (fst kv0) k); auto.
  - rewrite in_app_iff. simpl. intuition.
Qed.

Lemma dict_set_nodup {A : Type} (k : string) (v : A) (d : list (string * A)) :
  List.NoDup (map fst d) -> List.NoDup (map fst (ApiHub.dict_set k v d)).
Proof.
  intros Hnd. unfold ApiHub.dict_set. destruct (List.existsb _ d) eqn:E.
  - rewrite map_map.
    rewrite (map_ext (fun kv => fst (if String.eqb (fst kv) k then (k, v) else kv)) fst)
      by (intros [k' v']; simpl; by destruct (String.eqb_spec k' k) as [->|]).
    done.
  - rewrite map_app. simpl.
    apply (Permutation_NoDup (Permutation_cons_append (map fst d) k)).
    constructor; [|done]. intros Hin.
    apply in_map_iff in Hin as [[k' v'] [Hk Hin]]. simpl in Hk. subst k'.
    assert (List.existsb (fun kv => String.eqb (fst kv) k) d = true) as Ht
      by (apply existsb_exists; exists (k, v'); simpl; by rewrite String.eqb_refl).
    congruence.
Qed.

Lemma fill_storage (samples l : list ApiHub.Alert) (acc : list (string * ApiHub.Alert)) :
  (forall a, In a l -> In a samples) ->
  List.NoDup (map fst acc) ->
  (forall kv, In kv acc -> In (snd kv) samples /\ fst kv = ApiHub.alert_id (snd kv)) ->
  let d := fold_left (fun s a => ApiHub.dict_set (ApiHub.alert_id a) a s) l acc in
  List.NoDup (map fst d) /\
  (forall kv, In kv d -> In (snd kv) samples /\ fst kv = ApiHub.alert_id (snd kv)) /\
  (forall x, In x (map fst acc) \/ (exists a, In a l /\ ApiHub.alert_id a = x) ->
     In x (map fst d)).
Proof.
  revert acc. induction l as [|a l IH]; intros acc Hl Hnd Hv; simpl.
  - split; [done|]. split; [done|]. intros x [Hx|[? [[] _]]]. done.
  - destruct (IH (ApiHub.dict_set (ApiHub.alert_id a) a acc)) as (H1 & H2 & H3).
    + intros b Hb. apply Hl. by right.
    + by apply dict_set_nodup.
    + intros kv Hkv. apply dict_set_values in Hkv as [->|Hkv]; [|by apply Hv].
      split; [apply Hl; by left|done].
    + split; [done|]. split; [done|].
      intros x Hx. apply H3. destruct Hx as [Hx|[b [[<-|Hb] Hbx]]].
      * left. apply dict_set_keys. by right.
      * left. apply dict_set_keys. by left.
      * right. by exists b.
Qed.

(** X22: The data object built by [send_initial_alerts] in api/websocket.py
    (before the send): when [alerts_storage] is empty it is filled from
    the samples, one entry per distinct alert id, each stored under its
    own id; otherwise it is left as it is. The unacknowledged alerts of
    the store are sorted newest first; [total_count] is their number, and
    ["alerts"] holds the dictionaries of at most 10 of them, in that
    order, none older than an unacknowledged alert left out. *)
Theorem initial_alerts_data_shape (alerts_storage : list (string * ApiHub.Alert))
    (samples : list ApiHub.Alert) :
  let '(storage, data) := ApiHub.initial_alerts_data alerts_storage samples in
  let unacked := List.filter (fun a => negb (ApiHub.alert_acknowledged a)) (map snd storage) in
  (alerts_storage <> [] -> storage = alerts_storage) /\
  (alerts_storage = [] ->
     List.NoDup (map fst storage) /\
     (forall kv, In kv storage -> In (snd kv) samples /\ fst kv = ApiHub.alert_id (snd kv)) /\
     (forall a, In a samples -> In (ApiHub.alert_id a) (map fst storage))) /\
  jget "total_count" data = Some (JNum (Z.of_nat (length unacked))) /\
  exists sent rest,
    jget "alerts" data = Some (JArr (map ApiHub.alert_dict sent)) /\
    Permutation (app sent rest) unacked /\
    length sent = Nat.min 10 (length unacked) /\
    Sorted newer sent /\
    (forall a b, In a sent -> In b rest -> newer a b).
Proof.
  unfold ApiHub.initial_alerts_data.
  set (storage := match alerts_storage with
                  | [] => fold_left (fun s a => ApiHub.dict_set (ApiHub.alert_id a) a s) samples []
                  | _ => alerts_storage
                  end).
  cbv zeta.
  set (unacked := List.filter (fun a => negb (ApiHub.alert_acknowledged a)) (map snd storage)).
  assert (Hperm : Permutation (ApiHub.recent_alerts storage) unacked).
  { unfold ApiHub.recent_alerts, ApiHub.sort_newest_first.
    rewrite sort_newest_first_perm_acc. by rewrite app_nil_r. }
  assert (Hsorted : StronglySorted newer (ApiHub.recent_alerts storage)).
  { apply Sorted_StronglySorted; [intros x y z; unfold newer; lia|].
    apply sort_newest_first_sorted. constructor. }
  split; [|split; [|split]].
  - intros Hne. unfold storage. by destruct alerts_storage.
  - intros ->. unfold storage.
    destruct (fill_storage samples samples []) as (H1 & H2 & H3); [done|constructor|done|].
    split; [done|]. split; [done|]. intros a Ha. apply H3. right. by exists a.
  - simpl. by rewrite (Permutation_length Hperm).
  - exists (take 10 (ApiHub.recent_alerts storage)), (drop 10 (ApiHub.recent_alerts storage)).
    rewrite take_drop.
    rewrite <- (take_drop 10 (ApiHub.recent_alerts storage)) in Hsorted.
    destruct (strongly_sorted_app newer _ _ Hsorted) as [Hs Hx].
    split; [done|]. split; [done|]. split; [|done].
    rewrite length_take, (Permutation_length Hperm). done.
Qed.

Lemma initial_alerts_data_shape_witness :
  exists sent rest : list ApiHub.Alert,
    let a1 := ApiHub.mkAlert "a1" false 5 (JStr "a1") in
    let a2 := ApiHub.mkAlert "a2" true 9 (JStr "a2") in
    jget "alerts" (snd (ApiHub.initial_alerts_data [] [a1; a2])) =
      Some (JArr (map ApiHub.alert_dict sent)) /\
    Permutation (app sent rest) [a1].
Proof.
  pose proof (initial_alerts_data_shape [] [ApiHub.mkAlert "a1" false 5 (JStr "a1");
                                            ApiHub.mkAlert "a2" true 9 (JStr "a2")]) as H.
  cbv zeta in H. destruct H as (_ & _ & _ & sent & rest & H1 & H2 & _).
  exists sent, rest. simpl. split; [exact H1|exact H2].
Defined.

Lemma strip_twice (ws : nat) (a : gmap string (gset nat)) :
  (fun conns : gset nat => conns ∖ {[ws]}) <$> ((fun conns : gset nat => conns ∖ {[ws]}) <$> a) =
  (fun conns : gset nat => conns ∖ {[ws]}) <$> a.
Proof. rewrite <- map_fmap_compose. apply map_fmap_ext. intros i x _. simpl. set_solver. Qed.

Lemma strip_absent (ws : nat) (a : gmap string (gset nat)) :
  map_Forall (fun _ conns => ws ∉ conns) a ->
  (fun conns : gset nat => conns ∖ {[ws]}) <$> a = a.
Proof.
  intros H. apply map_eq. intros k. rewrite lookup_fmap.
  destruct (a !! k) as [c|] eqn:E; simpl; [|done].
  f_equal. pose proof (map_Forall_lookup_1 _ _ _ _ H E). set_solver.
Qed.

Lemma hub_spm_disconnect (W : SocketEnv) (message : json) (ws : nat) (now : Z) (st : Hub.HubState) :
  Hub.disconnect ws (snd (fst (Hub.send_personal_message W message ws now st))) =
  Hub.disconnect ws st.
Proof.
  unfold Hub.send_personal_message, try_except.
  destruct (client_connected W ws); cbv zeta;
    [destruct (jget "timestamp" message);
     match goal with |- context [send_text W ws ?m] => destruct (send_text W ws m) end|];
    unfold Hub.disconnect; simpl;
    rewrite ?delete_alter_eq, ?strip_twice, ?delete_delete_eq; reflexivity.
Qed.

Lemma api_send_disconnect (W : SocketEnv) (ws : nat) (message : json) (t : Z) (st : ApiHub.HubState) :
  ApiHub.disconnect ws (fst (ApiHub.send_to_websocket W ws message t st)) = ApiHub.disconnect ws st.
Proof.
  unfold ApiHub.send_to_websocket, try_except.
  destruct (client_connected W ws); cbv zeta;
    [match goal with |- context [send_text W ws ?m] => destruct (send_text W ws m) end|];
    unfold ApiHub.disconnect; simpl;
    rewrite ?delete_alter_eq, ?strip_twice, ?delete_delete_eq; reflexivity.
Qed.

(** X23: [connect] followed by [disconnect], in both managers, on a socket
    the manager does not know yet and a channel that exists: whatever
    the socket does (accepts the messages, fails on them, or is already
    closed), the manager is left exactly as it was before. *)
Theorem connect_then_disconnect (W : SocketEnv) (ws : nat) (ch : string) (now : Z) :
  (forall st : Hub.HubState,
     is_Some (Hub.active_connections st !! ch) ->
     Hub.connection_info st !! ws = None ->
     map_Forall (fun _ conns => ws ∉ conns) (Hub.active_connections st) ->
     Hub.disconnect ws (fst (Hub.connect W ws ch now st)) = st) /\
  (forall (alerts_data : Outcome json) (st : ApiHub.HubState),
     is_Some (ApiHub.active_connections st !! ch) ->
     ApiHub.connection_info st !! ws = None ->
     map_Forall (fun _ conns => ws ∉ conns) (ApiHub.active_connections st) ->
     ApiHub.disconnect ws (fst (ApiHub.connect W alerts_data ws ch now st)) = st).
Proof.
  split.
  - intros [a info] [X HX] Hi Hn. simpl in HX, Hi, Hn. unfold Hub.connect. simpl. rewrite HX. simpl.
    match goal with |- Hub.disconnect ws (fst ?r) = _ =>
      assert (Hr : fst r = snd (fst (Hub.send_personal_message W
                     (JObj [("type", JStr "connection_confirmed");
                            ("data", JObj [("channel", JStr ch); ("server_time", iso now);
                                           ("message", JStr ("Connected to " ++ ch ++ " channel"))])])
                     ws now (Hub.mkHub (<[ch:={[ws]} ∪ X]> a)
                                       (<[ws:=Hub.mkConnInfo ch now 0 0 now]> info)))))
        by (destruct (Hub.send_personal_message _ _ _ _ _) as [[? ?] ?]; reflexivity)
    end.
    rewrite Hr, hub_spm_disconnect. unfold Hub.disconnect. simpl.
    rewrite fmap_insert, strip_absent, delete_insert_id by done.
    replace (({[ws]} ∪ X) ∖ {[ws]}) with X
      by (pose proof (map_Forall_lookup_1 _ _ _ _ Hn HX); set_solver).
    by rewrite insert_id.
  - intros alerts_data [a info] [X HX] Hi Hn. simpl in HX, Hi, Hn.
    unfold ApiHub.connect. cbv zeta. simpl. rewrite HX. simpl.
    match goal with |- context [ApiHub.send_to_websocket W ws ?m now ?s1] =>
      destruct (ApiHub.send_to_websocket W ws m now s1) as [st2 sent1] eqn:E2;
      transitivity (ApiHub.disconnect ws s1)
    end.
    + assert (H2 : ApiHub.disconnect ws st2 = ApiHub.disconnect ws
                     (ApiHub.mkHub (<[ch:={[ws]} ∪ X]> a)
                        (<[ws:=ApiHub.mkConnInfo ch now 0 0 now
                                 (ch ++ "_" ++ pretty (size ({[ws]} ∪ X)))]> info))).
      { change st2 with (fst (st2, sent1)). rewrite <- E2. apply api_send_disconnect. }
      rewrite <- H2.
      destruct (if String.eqb ch "alerts" then _ else _) as [st3 sent2] eqn:E3. simpl.
      change st3 with (fst (st3, sent2)). rewrite <- E3.
      destruct (String.eqb ch "alerts");
        [|destruct (String.eqb ch "monitoring"); [|reflexivity]].
      * unfold ApiHub.send_initial_alerts, try_except.
        destruct alerts_data; [apply api_send_disconnect|reflexivity].
      * apply api_send_disconnect.
    + unfold ApiHub.disconnect. simpl.
      rewrite fmap_insert, strip_absent, delete_insert_id by done.
      replace (({[ws]} ∪ X) ∖ {[ws]}) with X
        by (pose proof (map_Forall_lookup_1 _ _ _ _ Hn HX); set_solver).
      by rewrite insert_id.
Qed.

Lemma connect_then_disconnect_witness :
  Hub.disconnect 5 (fst (Hub.connect HubClaims.demo_sockets 5 "logs" 3 HubClaims.demo_hub))
    = HubClaims.demo_hub.
Proof.
  destruct (connect_then_disconnect HubClaims.demo_sockets 5 "logs" 3) as [H _].
  apply H.
  - vm_compute. eexists. reflexivity.
  - vm_compute. reflexivity.
  - apply (bool_decide_eq_true_1
             (map_Forall (fun (_ : string) (conns : gset nat) => 5 ∉ conns)
                (Hub.active_connections HubClaims.demo_hub))).
    vm_compute. reflexivity.
Defined.

Lemma hub_spm_raises (W : SocketEnv) (message : json) (ws : nat) (now : Z) (st : Hub.HubState) :
  client_connected W ws = true -> (forall m, exists e, send_text W ws m = Raised e) ->
  snd (fst (Hub.send_personal_message W message ws now st)) = Hub.disconnect ws st /\
  map fst (snd (Hub.send_personal_message W message ws now st)) = [ws].
Proof.
  intros Hc Hs. unfold Hub.send_personal_message, try_except. rewrite Hc. cbv zeta.
  match goal with |- context [send_text W ws ?m] => destruct (Hs m) as [e ->] end. done.
Qed.

Lemma api_send_raises (W : SocketEnv) (ws : nat) (message : json) (t : Z) (st : ApiHub.HubState) :
  client_connected W ws = true -> (forall m, exists e, send_text W ws m = Raised e) ->
  fst (ApiHub.send_to_websocket W ws message t st) = ApiHub.disconnect ws st /\
  map fst (snd (ApiHub.send_to_websocket W ws message t st)) = [ws].
Proof.
  intros Hc Hs. unfold ApiHub.send_to_websocket, try_except. rewrite Hc. cbv zeta.
  match goal with |- context [send_text W ws ?m] => destruct (Hs m) as [e ->] end. done.
Qed.

Lemma api_disconnect_twice (ws : nat) (st : ApiHub.HubState) :
  ApiHub.disconnect ws (ApiHub.disconnect ws st) = ApiHub.disconnect ws st.
Proof. unfold ApiHub.disconnect. simpl. by rewrite strip_twice, delete_delete_eq. Qed.

(** X19: [connect] of a socket whose sends all raise (the client went away
    right after the handshake: after [accept()] its state is
    [CONNECTED], but [send_text] fails). In both managers the socket is
    registered, the welcome fails and the send handler disconnects it,
    so [connect] ends in the registered state with [disconnect] applied:
    the channel exists (created if needed), the socket has no info and
    is in no channel, no other socket is touched. services/
    websocket_manager.py attempts one send; api/websocket.py attempts
    the welcome, then the initial data of the alerts channel (when it
    could be built) or of the monitoring channel. *)
Theorem connect_send_fails (W : SocketEnv) (ws : nat) (ch : string) (now : Z) :
  client_connected W ws = true -> (forall m, exists e, send_text W ws m = Raised e) ->
  (forall st : Hub.HubState,
     fst (Hub.connect W ws ch now st) =
       Hub.disconnect ws
         (Hub.mkHub (<[ch := {[ws]} ∪ default ∅ (Hub.active_connections st !! ch)]>
                       (Hub.active_connections st))
                    (<[ws := Hub.mkConnInfo ch now 0 0 now]> (Hub.connection_info st))) /\
     HubFacts.gone ws (fst (Hub.connect W ws ch now st)) /\
     map fst (snd (Hub.connect W ws ch now st)) = [ws]) /\
  (forall (alerts_data : Outcome json) (st : ApiHub.HubState),
     let conns := {[ws]} ∪ default ∅ (ApiHub.active_connections st !! ch) in
     fst (ApiHub.connect W alerts_data ws ch now st) =
       ApiHub.disconnect ws
         (ApiHub.mkHub (<[ch := conns]> (ApiHub.active_connections st))
            (<[ws := ApiHub.mkConnInfo ch now 0 0 now (ch ++ "_" ++ pretty (size conns))]>
               (ApiHub.connection_info st))) /\
     ApiHub.connection_info (fst (ApiHub.connect W alerts_data ws ch now st)) !! ws = None /\
     (forall k, ws ∉ ApiHubExtra.members (fst (ApiHub.connect W alerts_data ws ch now st)) k) /\
     map fst (snd (ApiHub.connect W alerts_data ws ch now st)) =
       ws :: (if String.eqb ch "alerts" then (if raised alerts_data then [] else [ws])
              else if String.eqb ch "monitoring" then [ws] else [])).
Proof.
  intros Hc Hs. split.
  - intros st. unfold Hub.connect. cbv zeta.
    match goal with |- context [Hub.send_personal_message W ?msg ws now ?s] =>
      pose proof (hub_spm_raises W msg ws now s Hc Hs) as [H1 H2];
      destruct (Hub.send_personal_message W msg ws now s) as [[b st2] sent] end.
    simpl in *. subst st2. split; [done|]. split; [apply HubFacts.disconnect_gone|done].
  - intros alerts_data st. cbv zeta.
    assert (Hgone : forall X : ApiHub.HubState,
      ApiHub.connection_info (ApiHub.disconnect ws X) !! ws = None /\
      forall k, ws ∉ ApiHubExtra.members (ApiHub.disconnect ws X) k).
    { intros X. split; [apply lookup_delete_eq|]. intros k.
      rewrite ApiHubExtra.api_disconnect_members. set_solver. }
    unfold ApiHub.connect. cbv zeta.
    match goal with |- context [ApiHub.send_to_websocket W ws ?msg now ?s] =>
      pose proof (api_send_raises W ws msg now s Hc Hs) as [H1 H2];
      destruct (ApiHub.send_to_websocket W ws msg now s) as [st2 sent1] end.
    simpl in H1, H2. subst st2.
    destruct (String.eqb ch "alerts").
    + unfold ApiHub.send_initial_alerts, try_except.
      destruct alerts_data as [d|e]; cbn -[ApiHub.disconnect ApiHubExtra.members].
      * match goal with |- context [ApiHub.send_to_websocket W ws ?msg now ?s] =>
          pose proof (api_send_raises W ws msg now s Hc Hs) as [H3 H4];
          destruct (ApiHub.send_to_websocket W ws msg now s) as [st3 sent2] end.
        simpl in *. subst st3. rewrite api_disconnect_twice, map_app, H2, H4.
        split; [done|]. split; [apply Hgone|]. split; [apply Hgone|done].
      * rewrite app_nil_r, H2. split; [done|]. split; [apply Hgone|]. split; [apply Hgone|done].
    + destruct (String.eqb ch "monitoring").
      * unfold ApiHub.send_initial_monitoring.
        match goal with |- context [ApiHub.send_to_websocket W ws ?msg now ?s] =>
          pose proof (api_send_raises W ws msg now s Hc Hs) as [H3 H4];
          destruct (ApiHub.send_to_websocket W ws msg now s) as [st3 sent2] end.
        simpl in *. subst st3. rewrite api_disconnect_twice, map_app, H2, H4.
        split; [done|]. split; [apply Hgone|]. split; [apply Hgone|done].
      * cbn -[ApiHub.disconnect ApiHubExtra.members]. rewrite app_nil_r, H2. split; [done|]. split; [apply Hgone|]. split; [apply Hgone|done].
Qed.

Lemma connect_send_fails_witness :
  HubFacts.gone 2 (fst (Hub.connect HubClaims.demo_sockets 2 "logs" 3 HubClaims.demo_hub)) /\
  map fst (snd (ApiHub.connect HubClaims.demo_sockets (Raised OtherException) 2 "monitoring" 3
                  HubClaims.demo_api_hub)) = [2; 2].
Proof.
  destruct (connect_send_fails HubClaims.demo_sockets 2 "logs" 3) as [H1 _];
    [reflexivity|intros m; exists OtherException; reflexivity|].
  destruct (connect_send_fails HubClaims.demo_sockets 2 "monitoring" 3) as [_ H2];
    [reflexivity|intros m; exists OtherException; reflexivity|].
  split.
  - exact (proj1 (proj2 (H1 HubClaims.demo_hub))).
  - exact (proj2 (proj2 (proj2 (H2 (Raised OtherException) HubClaims.demo_api_hub)))).
Defined.

End HubsExtra.
